(** * voicebr: the call-broadcast engine of the [nexmo] package

    A shallow embedding of the contact-directory decoder, the
    authenticated client ([Do], [Get], [Post], [checkStatus], [call],
    [Call]) and the webhook handlers of [router.go], followed by the
    properties of the specification that concern them.

    Go strings and byte buffers are Rocq [string]s (sequences of 8-bit
    characters).  Go's [int], [int64] and [time.Duration] are [Z], with
    the 64-bit wrap-around written out where the code multiplies.
    A Go [error] is a value of the inductive type [error]; [None] of
    type [option error] is Go's [nil] error. *)

From Stdlib Require Import ZArith List String Ascii Bool Lia QArith Permutation.
Import ListNotations.

Open Scope string_scope.
Open Scope Z_scope.

(** ** Characters the decoders look at *)

Definition LF : ascii := "010"%char.
Definition CR : ascii := "013"%char.
Definition QUOTE : ascii := "034"%char.
Definition NUL : ascii := "000"%char.

Definition str1 (c : ascii) : string := String c EmptyString.

(** ** encoding/csv

    The library the directory decoder drives.  [NewReader] leaves
    [LazyQuotes], [TrimLeadingSpace] and [ReuseRecord] at [false]; the
    decoder never changes them, so only the branches taken under these
    settings are written.  A [ParseError] keeps the line on which its
    record starts and the cause; the column is not modelled. *)
Module csv.

Inductive ErrKind : Type :=
| ErrBareQuote
| ErrQuote
| ErrFieldCount.

Inductive Error : Type :=
| ParseError (StartLine : Z) (Err : ErrKind)
| errInvalidDelim.

Record Reader : Type := mkReader {
  Comma : ascii;
  Comment : ascii;
  FieldsPerRecord : Z;
  input : string
}.

Definition NewReader (buf : string) : Reader :=
  {| Comma := ","%char; Comment := NUL; FieldsPerRecord := 0; input := buf |}.

Definition validDelim (r : ascii) : bool :=
  negb (Ascii.eqb r NUL) && negb (Ascii.eqb r QUOTE)
  && negb (Ascii.eqb r CR) && negb (Ascii.eqb r LF)
  && (nat_of_ascii r <? 128)%nat.

(** [readLine], first half: the input cut after every line feed.  Every
    line but possibly the last ends with its line feed. *)
Fixpoint splitLines (s : string) : list string :=
  match s with
  | EmptyString => []
  | String c rest =>
      if Ascii.eqb c LF then str1 LF :: splitLines rest
      else match splitLines rest with
           | [] => [str1 c]
           | l :: ls => String c l :: ls
           end
  end.

(** [readLine], second half: a carriage return before the line feed is
    dropped, and so is one that ends the input. *)
Fixpoint normalizeLine (line : string) : string :=
  match line with
  | EmptyString => EmptyString
  | String c rest =>
      if Ascii.eqb c CR then
        match rest with
        | EmptyString => EmptyString
        | String d EmptyString =>
            if Ascii.eqb d LF then str1 LF else String c (normalizeLine rest)
        | _ => String c (normalizeLine rest)
        end
      else String c (normalizeLine rest)
  end.

Definition readLines (s : string) : list string :=
  map normalizeLine (splitLines s).

(** [lengthNL(line) == len(line)] *)
Definition onlyNL (line : string) : bool :=
  match line with
  | EmptyString => true
  | String c EmptyString => Ascii.eqb c LF
  | _ => false
  end.

(** [r.Comment != 0 && nextRune(line) == r.Comment] *)
Definition isComment (comment : ascii) (line : string) : bool :=
  negb (Ascii.eqb comment NUL) &&
  match line with
  | EmptyString => false
  | String c _ => Ascii.eqb c comment
  end.

(** Where the [parseField] loop of [readRecord] stands inside a line. *)
Inductive lexState : Type :=
| FieldStart
| Unquoted (buf : string)
| Quoted (buf : string)
| QuoteSeen (buf : string).

Inductive LineOutcome : Type :=
| RecordDone (fields : list string)
| NeedMore (buf : string) (fields : list string)
| Failed (e : ErrKind).

(** The [parseField] loop over one line, a byte at a time.  A field
    that does not open with a quote runs to the next comma or to the
    end of the line and may not hold a quote; a quoted field runs to
    its closing quote, a doubled quote standing for one, and may run
    over the end of the line ([NeedMore]). *)
Fixpoint scanLine (comma : ascii) (st : lexState) (fields : list string)
    (line : string) : LineOutcome :=
  match line with
  | EmptyString =>
      match st with
      | FieldStart => RecordDone (fields ++ [EmptyString])
      | Unquoted buf => RecordDone (fields ++ [buf])
      | Quoted buf => NeedMore buf fields
      | QuoteSeen buf => RecordDone (fields ++ [buf])
      end
  | String c rest =>
      let unquoted := fun buf =>
        if Ascii.eqb c comma then scanLine comma FieldStart (fields ++ [buf]) rest
        else if Ascii.eqb c QUOTE then Failed ErrBareQuote
        else if Ascii.eqb c LF && onlyNL line then RecordDone (fields ++ [buf])
        else scanLine comma (Unquoted (buf ++ str1 c)) fields rest in
      match st with
      | FieldStart =>
          if Ascii.eqb c QUOTE then scanLine comma (Quoted EmptyString) fields rest
          else unquoted EmptyString
      | Unquoted buf => unquoted buf
      | Quoted buf =>
          if Ascii.eqb c QUOTE then scanLine comma (QuoteSeen buf) fields rest
          else scanLine comma (Quoted (buf ++ str1 c)) fields rest
      | QuoteSeen buf =>
          if Ascii.eqb c QUOTE then scanLine comma (Quoted (buf ++ str1 QUOTE)) fields rest
          else if Ascii.eqb c comma then scanLine comma FieldStart (fields ++ [buf]) rest
          else if onlyNL line then RecordDone (fields ++ [buf])
          else Failed ErrQuote
      end
  end.

(** A record as the lexical layer of [readRecord] delivers it, before
    the field count is looked at. *)
Record RawRecord : Type := mkRaw { recLine : Z; recFields : list string }.

(** The records of the remaining lines, up to the first lexical error.
    [pending] is a quoted field left open by the previous line;
    [numLine] is the number of the first line of [lines].  At the start
    of a record comment lines and empty lines are skipped; inside a
    quoted field they are data. *)
Fixpoint lexFrom (comma comment : ascii) (pending : option (string * list string * Z))
    (lines : list string) (numLine : Z) : list RawRecord * option Error :=
  match lines with
  | [] =>
      match pending with
      | None => ([], None)
      | Some (_, _, start) => ([], Some (ParseError start ErrQuote))
      end
  | line :: more =>
      let handle := fun (start : Z) (o : LineOutcome) =>
        match o with
        | RecordDone fs =>
            let '(recs, e) := lexFrom comma comment None more (numLine + 1) in
            (mkRaw start fs :: recs, e)
        | NeedMore buf fs => lexFrom comma comment (Some (buf, fs, start)) more (numLine + 1)
        | Failed k => ([], Some (ParseError start k))
        end in
      match pending with
      | None =>
          if isComment comment line then lexFrom comma comment None more (numLine + 1)
          else if onlyNL line then lexFrom comma comment None more (numLine + 1)
          else handle numLine (scanLine comma FieldStart [] line)
      | Some (buf, fs, start) =>
          handle start (scanLine comma (Quoted buf) fs line)
      end
  end.

Definition lexRecords (r : Reader) : list RawRecord * option Error :=
  lexFrom (Comma r) (Comment r) None (readLines (input r)) 1.

(** The end of [readRecord]: check or update the expected number of
    fields.  Returns the new [FieldsPerRecord] and the record or the
    error. *)
Definition checkFieldCount (fpr : Z) (rec : RawRecord) : Z * (list string + Error) :=
  let n := Z.of_nat (List.length (recFields rec)) in
  if 0 <? fpr then
    if negb (n =? fpr) then (fpr, inr (ParseError (recLine rec) ErrFieldCount))
    else (fpr, inl (recFields rec))
  else if fpr =? 0 then (n, inl (recFields rec))
  else (fpr, inl (recFields rec)).

(** The loop of [ReadAll]: records are appended until the input ends;
    the first error discards them all. *)
Fixpoint readAllLoop (fpr : Z) (recs : list RawRecord) (lexErr : option Error)
    (records : list (list string)) : list (list string) + Error :=
  match recs with
  | [] =>
      match lexErr with
      | None => inl records
      | Some e => inr e
      end
  | rec :: rest =>
      match checkFieldCount fpr rec with
      | (_, inr e) => inr e
      | (fpr', inl record) => readAllLoop fpr' rest lexErr (records ++ [record])
      end
  end.

Definition ReadAll (r : Reader) : list (list string) + Error :=
  if Ascii.eqb (Comma r) (Comment r) || negb (validDelim (Comma r))
     || (negb (Ascii.eqb (Comment r) NUL) && negb (validDelim (Comment r)))
  then inr errInvalidDelim
  else
    let '(recs, lexErr) := lexRecords r in
    readAllLoop (FieldsPerRecord r) recs lexErr [].

(** The rows of a buffer: what the reader delivers when no field count
    is imposed ([FieldsPerRecord] negative). *)
Definition rows (comment : ascii) (buf : string) : list (list string) + Error :=
  ReadAll {| Comma := ","%char; Comment := comment; FieldsPerRecord := -1; input := buf |}.

End csv.

(** ** Errors

    [ErrCorruptedContacts] is the package variable of that name.
    [errorString msg] is an error made from a text: [errors.New], a
    [fmt.Errorf] whose arguments are strings, or an error of a
    collaborator.  [Errorf prefix cause] is [fmt.Errorf(prefix + "%v",
    cause)]: a new error, never identical to [ErrCorruptedContacts],
    whose text is [prefix] followed by the text of [cause]. *)

Inductive error : Type :=
| ErrCorruptedContacts
| errorString (msg : string)
| Errorf (prefix : string) (cause : error)
| csvError (e : csv.Error).

(** [err == ErrCorruptedContacts]: identity with the package variable. *)
Definition isErrCorruptedContacts (e : error) : bool :=
  match e with
  | ErrCorruptedContacts => true
  | _ => false
  end.

(** ** Contacts *)

Record Contact : Type := mkContact {
  Name : string;
  Type_ : string;
  Number : string
}.

Definition NewContact (num name : string) : Contact :=
  {| Type_ := "phone"; Number := num; Name := name |}.

(** A [func(io.Writer) error] of a [ContactsProvider]: the bytes it
    writes to the destination and the error it returns. *)
Definition ReadFn : Type := (string * option error)%type.

Definition index0 (rec : list string) : string := nth 0 rec EmptyString.
Definition index1 (rec : list string) : string := nth 1 rec EmptyString.

(** The [for _, rec := range recs] loop of [DecodeContacts]. *)
Fixpoint collectContacts (recs : list (list string)) (acc : list Contact) : list Contact :=
  match recs with
  | [] => acc
  | rec :: rest =>
      if (List.length rec <? 2)%nat then collectContacts rest acc
      else collectContacts rest (acc ++ [NewContact (index0 rec) (index1 rec)])
  end.

(** The reader is the one [csv.NewReader] makes, with [Comment] set to
    [#] and nothing else changed. *)
Definition DecodeContacts (f : ReadFn) : list Contact * option error :=
  let '(buf, ferr) := f in
  match ferr with
  | Some err => ([], Some err)
  | None =>
      let r := csv.NewReader buf in
      let r := {| csv.Comma := csv.Comma r; csv.Comment := "#"%char;
                  csv.FieldsPerRecord := csv.FieldsPerRecord r;
                  csv.input := csv.input r |} in
      match csv.ReadAll r with
      | inr err => ([], Some (Errorf "decode contacts: " (csvError err)))
      | inl recs =>
          let acc := collectContacts recs [] in
          if negb (List.length acc =? List.length recs)%nat then (acc, Some ErrCorruptedContacts)
          else (acc, None)
      end
  end.

(** ** encoding/json

    A JSON document is kept as its value tree: what the encoder writes
    and what the decoder has read, before, respectively after, the text
    form.  The members of an object are in document order. *)

#[warnings="-register-all"]
Inductive json : Type :=
| JNull
| JBool (b : bool)
| JNumber (q : Q)
| JString (s : string)
| JArray (elems : list json)
| JObject (members : list (string * json)).

Module Json.

(** Insertion of a member by key order: the encoder writes a Go map
    with its keys sorted. *)
Fixpoint insertMember (kv : string * json) (l : list (string * json))
    : list (string * json) :=
  match l with
  | [] => [kv]
  | kv' :: rest =>
      if String.leb (fst kv) (fst kv') then kv :: l
      else kv' :: insertMember kv rest
  end.

(** Encoding of a [map[string]interface{}] literal. *)
Definition encodeMap (m : list (string * json)) : json :=
  JObject (fold_right insertMember [] m).

(** Member lookup in an encoded object. *)
Fixpoint member (k : string) (l : list (string * json)) : option json :=
  match l with
  | [] => None
  | (k', v) :: rest => if String.eqb k k' then Some v else member k rest
  end.

Definition get (k : string) (v : json) : option json :=
  match v with
  | JObject l => member k l
  | _ => None
  end.

Definition keys (v : json) : list string :=
  match v with
  | JObject l => map fst l
  | _ => []
  end.

Definition isLetter (c : ascii) : bool :=
  let n := nat_of_ascii c in
  ((97 <=? n) && (n <=? 122) || (65 <=? n) && (n <=? 90))%nat.

(** The byte without its case bit (caseMask). *)
Definition caseless (c : ascii) : ascii :=
  match c with
  | Ascii b0 b1 b2 b3 b4 _ b6 b7 => Ascii b0 b1 b2 b3 b4 false b6 b7
  end.

(** The decoder's second chance for an object key: equality with the
    field name up to the case of its ASCII letters. *)
Fixpoint equalFold (name key : string) : bool :=
  match name, key with
  | EmptyString, EmptyString => true
  | String a name', String b key' =>
      (Ascii.eqb a b
       || (isLetter a && Ascii.eqb (caseless a) (caseless b)))
      && equalFold name' key'
  | _, _ => false
  end.

(** Which of the struct's fields an object key addresses: the one of
    that exact name, else the first one equal up to case. *)
Definition findField (names : list string) (key : string) : option string :=
  match find (String.eqb key) names with
  | Some f => Some f
  | None => find (fun f => equalFold f key) names
  end.

(** The text of the decoder's type error, without the types it names. *)
Definition typeError : string := "json: cannot unmarshal value into Go value".

(** Storing a JSON value into a Go [string]: a string is stored, null
    leaves the field as it is, anything else is a type error that
    leaves the field as it is. *)
Definition storeString (v : json) (cur : string) : string * option string :=
  match v with
  | JString s => (s, None)
  | JNull => (cur, None)
  | _ => (cur, Some typeError)
  end.

Definition firstError (saved new : option string) : option string :=
  match saved with
  | Some e => Some e
  | None => new
  end.

Definition setField (f v : string) (st : list (string * string)) : list (string * string) :=
  map (fun kv => if String.eqb (fst kv) f then (f, v) else kv) st.

Definition field (f : string) (st : list (string * string)) : string :=
  match find (fun kv => String.eqb (fst kv) f) st with
  | Some kv => snd kv
  | None => EmptyString
  end.

(** The decoder over the members of an object, for a struct all of
    whose fields are strings; [st] holds the fields by JSON name.
    Members that address no field are skipped; the first type error is
    kept and decoding goes on. *)
Fixpoint assign (names : list string) (members : list (string * json))
    (st : list (string * string)) (saved : option string)
    : list (string * string) * option string :=
  match members with
  | [] => (st, saved)
  | (k, v) :: rest =>
      match findField names k with
      | None => assign names rest st saved
      | Some f =>
          let '(s', e) := storeString v (field f st) in
          assign names rest (setField f s' st) (firstError saved e)
      end
  end.

(** [Decode] into a zero-valued struct of string fields. *)
Definition decodeStruct (names : list string) (v : json)
    : list (string * string) * option string :=
  let zero := map (fun f => (f, EmptyString)) names in
  match v with
  | JObject members => assign names members zero None
  | JNull => (zero, None)
  | _ => (zero, Some typeError)
  end.

End Json.

(** Encoding of a [Contact] by its struct tags: [Name] is tagged ["-"]
    and never written. *)
Definition encodeContact (c : Contact) : json :=
  JObject [("type", JString (Type_ c)); ("number", JString (Number c))].

(** ** What a unit of work does to the outside

    Each handler invocation and each goroutine runs against a [World]:
    the answers the outside gives during that run.  What the run does is
    kept as a list of [Event]s, in program order. *)

(** [context.Background()] is [None]; [context.WithTimeout] of it with
    duration [d] (nanoseconds, an int64) is [Some d]. *)
Definition Context : Type := option Z.

(** Modelled from the spec: the rate limiter ([NewLimiter] and its
    [Wait]), whose file is not among the sources.  An instance is
    configured with a ceiling of requests per second; [Wait] blocks until
    a token is available or the context ends, so its outcome belongs to
    the [World]. *)
Record Limiter : Type := mkLimiter { rate : Z }.

Definition NewLimiter (r : Z) : Limiter := {| rate := r |}.

Definition CallLimiter : Limiter := NewLimiter 3.
Definition GetLimiter : Limiter := NewLimiter 15.

Record Request : Type := mkRequest {
  Method : string;
  URL : string;
  Header : list (string * string);
  Body : option json
}.

Record Response : Type := mkResponse {
  StatusCode : Z;
  Status : string;
  RespBody : string
}.

Record PrivateKey : Type := mkKey { pem : string }.

Record World : Type := mkWorld {
  limiterWait : Limiter -> Context -> option error;
  now : Z;
  newUUID : string;
  signedString : PrivateKey -> json -> string + error;
  newRequestError : string -> string -> option error;
  roundTrip : Request -> Response + error
}.

Inductive Arg : Type :=
| AStr (s : string)
| AInt (n : Z)
| AErr (e : error).

Inductive Event : Type :=
| Log (format : string) (args : list Arg)
| Waited (l : Limiter) (ctx : Context)
| Sent (req : Request)
| Wrote (fileName : string) (data : string).

(** ** The client

    The [internal] HTTP client of the struct is the [roundTrip] of the
    [World]; [Number_] is the field [Number] (the name is taken by
    [Contact]). *)

Record Client : Type := mkClient {
  AppID : string;
  Number_ : string;
  Origin : string;
  key : option PrivateKey
}.

Definition Token (c : Client) (w : World) : string * option error :=
  match key c with
  | None =>
      (EmptyString,
       Some (errorString "token: found nil key. Use NewClient to create a valid Client"))
  | Some k =>
      let claims := JObject [("alg", JString "RS256"); ("typ", JString "JWT");
                             ("application_id", JString (AppID c));
                             ("iat", JNumber (inject_Z (now w)));
                             ("jti", JString (newUUID w))] in
      match signedString w k claims with
      | inl token => (token, None)
      | inr err => (EmptyString, Some err)
      end
  end.

Definition checkStatus (resp : Response) : option error :=
  if (StatusCode resp =? 200) || (StatusCode resp =? 201) then None
  else Some (errorString ("request failed: " ++ Status resp)).

Definition Do (c : Client) (w : World) (method url : string) (body : option json)
    : option Response * option error * list Event :=
  match Token c w with
  | (_, Some err) =>
      (None, Some (Errorf "unable to create authorization token: " err), [])
  | (token, None) =>
      match newRequestError w method url with
      | Some err => (None, Some (Errorf "unable to make request: " err), [])
      | None =>
          let hdr := [("Authorization", "Bearer " ++ token)] in
          let hdr := if String.eqb method "POST"
                     then (hdr ++ [("Content-Type", "application/json")])%list else hdr in
          let req := {| Method := method; URL := url; Header := hdr; Body := body |} in
          match roundTrip w req with
          | inr err => (None, Some err, [Sent req])
          | inl resp => (Some resp, checkStatus resp, [Sent req])
          end
      end
  end.

Definition Get (c : Client) (w : World) (ctx : Context) (url : string)
    : option Response * option error * list Event :=
  match limiterWait w GetLimiter ctx with
  | Some err =>
      (None, Some (Errorf "client: unable to perform Get: " err), [Waited GetLimiter ctx])
  | None =>
      let '(resp, err, evs) := Do c w "GET" url None in
      (resp, err, Waited GetLimiter ctx :: evs)
  end.

Definition Post (c : Client) (w : World) (ctx : Context) (url : string) (body : json)
    : option Response * option error * list Event :=
  match limiterWait w CallLimiter ctx with
  | Some err =>
      (None, Some (Errorf "client: unable to perform Post: " err), [Waited CallLimiter ctx])
  | None =>
      let '(resp, err, evs) := Do c w "POST" url (Some body) in
      (resp, err, Waited CallLimiter ctx :: evs)
  end.

(** The anonymous struct [call] encodes. *)
Definition callPayload (c : Client) (to : Contact) (recName : string) : json :=
  JObject [("to", JArray (map encodeContact [to]));
           ("from", encodeContact {| Name := EmptyString; Type_ := "phone";
                                     Number := Number_ c |});
           ("answer_url", JArray (map JString [Origin c ++ "/play/recording/" ++ recName]));
           ("event_url", JArray (map JString [Origin c ++ "/play/recording/event"]))].

(** [json.NewEncoder(&buf).Encode] of a value made of structs, slices and
    strings: no value of these types is rejected. *)
Definition Encode (v : json) : json + error := inl v.

Definition call (c : Client) (w : World) (ctx : Context) (to : Contact)
    (recName : string) : option error * list Event :=
  match Encode (callPayload c to recName) with
  | inr err => (Some (Errorf "unable to encode ncco: " err), [])
  | inl buf =>
      let '(_, err, evs) := Post c w ctx "https://api.nexmo.com/v1/calls" buf in
      match err with
      | Some err => (Some (Errorf "unable to make call: " err), evs)
      | None => (None, evs)
      end
  end.

(** ** The broadcast *)

Definition wrap64 (z : Z) : Z := (z + 2 ^ 63) mod 2 ^ 64 - 2 ^ 63.

Definition Second : Z := 1000000000.

Definition len {A : Type} (l : list A) : Z := Z.of_nat (List.length l).

(** The duration the goroutine of [Call] hands to [context.WithTimeout]. *)
Definition callTimeout (contacts : list Contact) : Z :=
  let n := Z.quot (len contacts) 3 in
  let n := if n <? 1 then 1 else n in
  let d := wrap64 (n * 2) in
  wrap64 (Second * d).

(** A goroutine: what it does once it runs, given how the outside
    answers it. *)
Definition Goroutine : Type := World -> list Event.

(** The body of the [go func(contact Contact)] of [Call]. *)
Definition callRoutine (c : Client) (contacts : list Contact) (recName : string)
    (contact : Contact) : Goroutine :=
  fun w =>
    let ctx : Context := Some (callTimeout contacts) in
    let ev0 := Log "calling %v, message: %v" [AStr (Name contact); AStr recName] in
    match call c w ctx contact recName with
    | (Some err, evs) => ev0 :: (evs ++ [Log "call error: %v" [AErr err]])%list
    | (None, evs) => ev0 :: evs
    end.

Record ContactsProvider : Type := mkProvider {
  ReadBroadcastList : ReadFn;
  ReadWhitelist : ReadFn
}.

(** [Call] after its first statement: what it does with the outcome of
    [DecodeContacts].  It returns the goroutines it has started, in the
    order of the [for] loop, and what it has logged. *)
Definition CallDecoded (c : Client) (decoded : list Contact * option error)
    (recName : string) : list Goroutine * list Event :=
  let '(contacts, err) := decoded in
  let spawnAll := fun (evs : list Event) =>
    (map (callRoutine c contacts recName) contacts,
     (evs ++ [Log "client: contacts decoded: %d" [AInt (len contacts)]])%list) in
  match err with
  | Some err =>
      if isErrCorruptedContacts err then spawnAll [Log "call: %v" [AErr err]]
      else ([], [Log "call error: %v" [AErr err]])
  | None => spawnAll []
  end.

Definition Call (c : Client) (p : ContactsProvider) (recName : string)
    : list Goroutine * list Event :=
  CallDecoded c (DecodeContacts (ReadBroadcastList p)) recName.

(** The goroutines of a broadcast run in any order, each against its own
    [World]: [schedule] lists the goroutines by their index, [worlds]
    gives the world of each index. *)
Definition runRoutine (gs : list Goroutine) (worlds : nat -> World) (i : nat) : list Event :=
  match nth_error gs i with
  | Some g => g (worlds i)
  | None => []
  end.

Definition runSchedule (gs : list Goroutine) (worlds : nat -> World)
    (schedule : list nat) : list (nat * list Event) :=
  map (fun i => (i, runRoutine gs worlds i)) schedule.

(** ** The webhook handlers of router.go *)

Definition recFormat : string := "mp3".

(** The [Storage] interface: a [ContactsProvider] that also stores
    recordings.  [WriteRec src fileName] returns the path and the error.
    ([RecFileHandler] serves the stored files and takes no part below.) *)
Record Storage : Type := mkStorage {
  contacts :> ContactsProvider;
  WriteRec : string -> string -> string * option error
}.

(** An [*http.Request] as the server hands it to a handler.  [reqBody]
    is what a JSON decoder finds when it reads the first value of the
    body: the value, or the error of reading or parsing it.  [reqQuery]
    is [r.URL.Query()]. *)
Record ServerRequest : Type := mkServerRequest {
  reqMethod : string;
  reqQuery : list (string * list string);
  reqBody : json + error
}.

Inductive BodyPart : Type :=
| JSONDoc (v : json)
| ErrorText (e : error).

(** The [http.ResponseWriter] after the handler has returned.  A status
    that was never written goes out as 200. *)
Record ResponseWriter : Type := mkWriter {
  wHeader : list (string * string);
  wStatus : option Z;
  wBody : list BodyPart
}.

Definition newWriter : ResponseWriter :=
  {| wHeader := []; wStatus := None; wBody := [] |}.

Definition HeaderSet (k v : string) (w : ResponseWriter) : ResponseWriter :=
  {| wHeader := (k, v) :: filter (fun kv => negb (String.eqb (fst kv) k)) (wHeader w);
     wStatus := wStatus w; wBody := wBody w |}.

Definition WriteHeader (code : Z) (w : ResponseWriter) : ResponseWriter :=
  match wStatus w with
  | Some _ => w
  | None => {| wHeader := wHeader w; wStatus := Some code; wBody := wBody w |}
  end.

Definition Write (part : BodyPart) (w : ResponseWriter) : ResponseWriter :=
  let w := WriteHeader 200 w in
  {| wHeader := wHeader w; wStatus := wStatus w; wBody := (wBody w ++ [part])%list |}.

(** [http.Error] *)
Definition httpError (err : error) (code : Z) (w : ResponseWriter) : ResponseWriter :=
  let w := HeaderSet "Content-Type" "text/plain; charset=utf-8" w in
  let w := HeaderSet "X-Content-Type-Options" "nosniff" w in
  Write (ErrorText err) (WriteHeader code w).

Definition statusSent (w : ResponseWriter) : Z :=
  match wStatus w with
  | Some code => code
  | None => 200
  end.

Definition StatusOK : Z := 200.
Definition StatusUnauthorized : Z := 401.
Definition StatusInternalServerError : Z := 500.

(** [json.NewDecoder(body).Decode] into a struct of string fields. *)
Definition Decode (body : json + error) (names : list string)
    : list (string * string) * option error :=
  match body with
  | inr err => (map (fun f => (f, EmptyString)) names, Some err)
  | inl v =>
      match Json.decodeStruct names v with
      | (st, Some msg) => (st, Some (errorString msg))
      | (st, None) => (st, None)
      end
  end.

Definition callerFromRequestBody (p : json + error) : string * option error :=
  match Decode p ["from"] with
  | (_, Some err) =>
      (EmptyString, Some (Errorf "unable to find calling number in request body: " err))
  | (body, None) => (Json.field "from" body, None)
  end.

(** [url.Values.Get] *)
Definition QueryGet (q : list (string * list string)) (k : string) : string :=
  match find (fun kv => String.eqb (fst kv) k) q with
  | Some (_, v :: _) => v
  | _ => EmptyString
  end.

Definition callerFromRequestQuery (r : ServerRequest) : string * option error :=
  let from := QueryGet (reqQuery r) "from" in
  if String.eqb from EmptyString then
    (EmptyString, Some (errorString "unable to find calling number in query parameters"))
  else (from, None).

Definition CallerFromRequest (r : ServerRequest) : string * option error :=
  if String.eqb (reqMethod r) "POST" then callerFromRequestBody (reqBody r)
  else callerFromRequestQuery r.

(** The [for i, v := range whitelist] loop of the answer handler: the
    pointer is overwritten at every match, so the last match stays. *)
Fixpoint findCaller (from : string) (whitelist : list Contact) (caller : option Contact)
    : option Contact :=
  match whitelist with
  | [] => caller
  | v :: rest =>
      if String.eqb (Number v) from then findCaller from rest (Some v)
      else findCaller from rest caller
  end.

Definition talkAction (text : string) : list (string * json) :=
  [("action", JString "talk"); ("voiceName", JString "Carla");
   ("level", JNumber (1 # 2)); ("text", JString text)].

Definition recordAction (origin : string) : list (string * json) :=
  [("action", JString "record"); ("beepStart", JBool true);
   ("format", JString recFormat);
   ("eventUrl", JArray (map JString [origin ++ "/store/recording/event"]));
   ("endOnKey", JString "#")].

Definition makeRecordAnswerHandler (s : Storage) (origin : string) (r : ServerRequest)
    : ResponseWriter * list Event :=
  let w := newWriter in
  match CallerFromRequest r with
  | (_, Some err) =>
      (WriteHeader StatusUnauthorized w, [Log "answer handler: %v" [AErr err]])
  | (from, None) =>
      let ev0 := Log "answer handler: authenticating %s..." [AStr from] in
      match DecodeContacts (ReadWhitelist s) with
      | (_, Some err) =>
          (WriteHeader StatusInternalServerError w,
           [ev0; Log "answer handler: unable to decode whitelist: %v" [AErr err]])
      | (whitelist, None) =>
          match findCaller from whitelist None with
          | None =>
              (WriteHeader StatusUnauthorized w,
               [ev0; Log "answer handler: number %s cannot broadcast" [AStr from]])
          | Some caller =>
              let w := HeaderSet "content-type" "application/json" w in
              let w := WriteHeader StatusOK w in
              (Write (JSONDoc (JArray (map Json.encodeMap
                        [talkAction ("Parla pure" ++ Name caller);
                         recordAction origin]))) w,
               [ev0])
          end
      end
  end.

(** What a handler that starts a broadcast leaves behind: the response,
    the events of the handler itself and the goroutines [Call] started. *)
Record Handled : Type := mkHandled {
  response : ResponseWriter;
  events : list Event;
  started : list Goroutine
}.

Definition makeStoreRecordingEventHandler (s : Storage) (c : Client) (world : World)
    (r : ServerRequest) : Handled :=
  let w := newWriter in
  if negb (String.eqb (reqMethod r) "POST") then mkHandled w [] []
  else
    match Decode (reqBody r) ["recording_url"; "recording_uuid"] with
    | (_, Some err) =>
        mkHandled (httpError err StatusInternalServerError w)
          [Log "store recording handler error: unable to decode recorinding event: %v"
               [AErr err]] []
    | (content, None) =>
        match Get c world None (Json.field "recording_url" content) with
        | (_, Some err, evs) =>
            mkHandled w
              (evs ++ [Log "store recording handler error: unable to download file: %v"
                           [AErr err]]) []
        | (None, None, evs) => mkHandled w evs [] (* not reached: see [Get_response_or_error] *)
        | (Some resp, None, evs) =>
            let recName := Json.field "recording_uuid" content ++ "." ++ recFormat in
            match WriteRec s (RespBody resp) recName with
            | (_, Some err) =>
                mkHandled w (evs ++ [Wrote recName (RespBody resp); Log "%v" [AErr err]]) []
            | (_, None) =>
                let '(gs, cevs) := Call c s recName in
                mkHandled w (evs ++ [Wrote recName (RespBody resp)] ++ cevs) gs
            end
        end
    end.

(** ** The rest of router.go *)

(** An incoming request with the parts the two handlers above do not
    look at: the path of its URL, its request URI and what reading its
    body to the end gives (the bytes read and the error, if any).
    [request] holds the parts they do look at. *)
Record Incoming : Type := mkIncoming {
  URLPath : string;
  RequestURI : string;
  request : ServerRequest;
  rawBody : string * option error
}.

(** The deferred function runs when the handler returns: the status is
    written last. *)
Definition LogEventHandler (r : Incoming) : ResponseWriter * list Event :=
  let w := newWriter in
  if negb (String.eqb (reqMethod (request r)) "POST") then (w, [])
  else
    let '(buf, err) := rawBody r in
    let evs :=
      match err with
      | Some e => [Log "log event handler error: unable to read body: %v" [AErr e]]
      | None => []
      end in
    (WriteHeader StatusOK w, (evs ++ [Log "[EVENT] %v" [AStr buf]])%list).

(** [mux.Vars(r)[k]]: the value of a route variable, empty when the
    route has none of that name. *)
Fixpoint varsGet (vars : list (string * string)) (k : string) : string :=
  match vars with
  | [] => EmptyString
  | (k', v) :: rest => if String.eqb k k' then v else varsGet rest k
  end.

Definition streamAction (url : string) : list (string * json) :=
  [("action", JString "stream"); ("level", JNumber (1 # 2));
   ("streamUrl", JArray (map JString [url]))].

Definition makePlayRecordingHandler (origin : string) (vars : list (string * string))
    : ResponseWriter :=
  let name := varsGet vars "name" in
  let w := HeaderSet "content-type" "application/json" newWriter in
  let w := WriteHeader StatusOK w in
  Write (JSONDoc (JArray (map Json.encodeMap
           [talkAction "Messaggio registrato";
            streamAction (origin ++ "/static/" ++ name);
            talkAction "Fine messaggio"]))) w.

(** The routes of gorilla/mux the router uses.  A path template without
    variables matches the path equal to it; [PathVar prefix v] is the
    template [prefix{v}], which matches [prefix] followed by one
    non-empty segment (the default pattern of a variable excludes the
    slash) and binds [v] to it; [PathPrefix] matches every path that
    starts with the prefix. *)
Inductive Matcher : Type :=
| Path (template : string)
| PathVar (prefix : string) (var : string)
| PathPrefix (prefix : string).

Inductive Handler : Type :=
| recordAnswerHandler
| logEventHandler
| storeRecordingEventHandler
| playRecordingHandler
| recFileHandler.

Fixpoint stripPrefix (prefix s : string) : option string :=
  match prefix with
  | EmptyString => Some s
  | String a prefix' =>
      match s with
      | EmptyString => None
      | String b s' => if Ascii.eqb a b then stripPrefix prefix' s' else None
      end
  end.

Fixpoint noSlash (s : string) : bool :=
  match s with
  | EmptyString => true
  | String c rest => negb (Ascii.eqb c "/"%char) && noSlash rest
  end.

Definition matchRoute (m : Matcher) (path : string) : option (list (string * string)) :=
  match m with
  | Path template => if String.eqb template path then Some [] else None
  | PathVar prefix var =>
      match stripPrefix prefix path with
      | Some v =>
          if negb (String.eqb v EmptyString) && noSlash v then Some [(var, v)] else None
      | None => None
      end
  | PathPrefix prefix =>
      match stripPrefix prefix path with
      | Some _ => Some []
      | None => None
      end
  end.

(** The route table of [NewRouter], in the order of registration. *)
Definition NewRouter : list (Matcher * Handler) :=
  [(Path "/record/voice/answer", recordAnswerHandler);
   (Path "/record/voice/event", logEventHandler);
   (Path "/store/recording/event", storeRecordingEventHandler);
   (Path "/play/recording/event", logEventHandler);
   (PathVar "/play/recording/" "name", playRecordingHandler);
   (PathPrefix "/static/", recFileHandler)].

(** [Router.Match]: the first route, in the order of registration, that
    matches the path, with the variables it binds. *)
Fixpoint Match (routes : list (Matcher * Handler)) (path : string)
    : option (Handler * list (string * string)) :=
  match routes with
  | [] => None
  | (m, h) :: rest =>
      match matchRoute m path with
      | Some vars => Some (h, vars)
      | None => Match rest path
      end
  end.

(** What the router does with a request once a route has matched it
    (the redirect of a path that is not in canonical form, and the 404 of
    a path no route matches, come before): [loggingMiddleware] logs the
    request, then the handler of the route runs.  [recFiles] is the
    [RecFileHandler] of the storage, given the path below [/static/]. *)
Definition serveMatched (c : Client) (s : Storage) (recFiles : string -> ResponseWriter)
    (origin : string) (world : World) (r : Incoming)
    (matched : Handler * list (string * string)) : Handled :=
  let ev0 := Log "[%s] %s" [AStr (reqMethod (request r)); AStr (RequestURI r)] in
  let '(h, vars) := matched in
  match h with
  | recordAnswerHandler =>
      let '(w, evs) := makeRecordAnswerHandler s origin (request r) in
      mkHandled w (ev0 :: evs) []
  | logEventHandler =>
      let '(w, evs) := LogEventHandler r in
      mkHandled w (ev0 :: evs) []
  | storeRecordingEventHandler =>
      let h := makeStoreRecordingEventHandler s c world (request r) in
      mkHandled (response h) (ev0 :: events h) (started h)
  | playRecordingHandler =>
      mkHandled (makePlayRecordingHandler origin vars) [ev0] []
  | recFileHandler =>
      match stripPrefix "/static/" (URLPath r) with
      | Some file => mkHandled (recFiles file) [ev0] []
      | None =>
          mkHandled (httpError (errorString "404 page not found") 404 newWriter) [ev0] []
      end
  end.

(** ** cmd/voicebrd/main.go

    The [vonage] package is not among the sources.  Its request types,
    what [json.Unmarshal] makes of a body for each, and the encoding of
    the talk control it builds are taken as given. *)
Module voicebrd.
Section Webhook.

Variable VoiceAnswerRequest : Type.
Variable VoiceEventRequest : Type.
Variable UUID : VoiceAnswerRequest -> string.
Variable From : VoiceAnswerRequest -> string.
Variable unmarshalAnswer : string -> VoiceAnswerRequest + error.
Variable unmarshalEvent : string -> VoiceEventRequest + error.
Variable showEvent : VoiceEventRequest -> string.
Variable encodeTalkControl : string -> json + error.

(** The struct [httpError]. *)
Record HTTPError : Type := mkHTTPError { Code : Z; Err : error }.

(** An error of this package: an [*httpError], or an error that is none
    and wraps none. *)
Inductive failure : Type :=
| Plain (e : error)
| HTTP (h : HTTPError).

(** [err.Error()], as the error whose text it is. *)
Definition text (err : failure) : error :=
  match err with
  | Plain e => e
  | HTTP h => Err h
  end.

Definition Error (w : ResponseWriter) (err : failure) : ResponseWriter * list Event :=
  let code := StatusInternalServerError in
  let code :=
    match err with
    | HTTP herr => Code herr
    | Plain _ => code
    end in
  (httpError (text err) code w, [Log "error * %v" [AErr (text err)]]).

Definition returnAnswer (w : ResponseWriter) (r : Incoming)
    : ResponseWriter * list Event * option failure :=
  let '(b, rerr) := rawBody r in
  match rerr with
  | Some err => (w, [], Some (Plain (Errorf "answer request: " err)))
  | None =>
      match unmarshalAnswer b with
      | inr err =>
          (w, [], Some (HTTP {| Code := 400; Err := Errorf "answer request: " err |}))
      | inl p =>
          let ev := Log "*** reveived call (%v) from: %v" [AStr (UUID p); AStr (From p)] in
          match encodeTalkControl "Hi from Jecoz" with
          | inr err => (w, [ev], Some (Plain (Errorf "answer response: " err)))
          | inl ncco => (Write (JSONDoc ncco) w, [ev], None)
          end
      end
  end.

Definition Answer (r : Incoming) : ResponseWriter * list Event :=
  match returnAnswer newWriter r with
  | (w, evs, Some err) =>
      let '(w, evs') := Error w err in (w, (evs ++ evs')%list)
  | (w, evs, None) => (w, evs)
  end.

Definition returnEvent (w : ResponseWriter) (r : Incoming)
    : ResponseWriter * list Event * option failure :=
  let '(b, rerr) := rawBody r in
  match rerr with
  | Some err => (w, [], Some (Plain (Errorf "event request: " err)))
  | None =>
      match unmarshalEvent b with
      | inr err =>
          (w, [], Some (HTTP {| Code := 400; Err := Errorf "event request: " err |}))
      | inl p =>
          (WriteHeader StatusOK w, [Log "event: %v" [AStr (showEvent p)]], None)
      end
  end.

Definition Event (r : Incoming) : ResponseWriter * list Event :=
  match returnEvent newWriter r with
  | (w, evs, Some err) =>
      let '(w, evs') := Error w err in (w, (evs ++ evs')%list)
  | (w, evs, None) => (w, evs)
  end.

End Webhook.
End voicebrd.

(** ** Vocabulary of the properties *)

Definition nl : string := str1 LF.

(** A row is well formed when it has at least two fields. *)
Definition wellFormed (rec : list string) : bool := (2 <=? List.length rec)%nat.

Definition contactOfRow (rec : list string) : Contact :=
  NewContact (index0 rec) (index1 rec).

(** The rows of a contact directory: the records of its bytes, lines
    that start with [#] being comments. *)
Definition directoryRows (data : string) : list (list string) + csv.Error :=
  csv.rows "#" data.

(** A field written between quotes. *)
Definition quoted (s : string) : string := String QUOTE (s ++ str1 QUOTE).

(** A field is plain when it can stand in a row as it is: it holds no
    comma, no quote and no line break. *)
Fixpoint plain (s : string) : bool :=
  match s with
  | EmptyString => true
  | String c rest =>
      negb (Ascii.eqb c ","%char) && negb (Ascii.eqb c QUOTE)
      && negb (Ascii.eqb c CR) && negb (Ascii.eqb c LF) && plain rest
  end.

Definition startsWith (c : ascii) (s : string) : bool :=
  match s with
  | EmptyString => false
  | String d _ => Ascii.eqb d c
  end.

(** A directory entry (number, name) that can be written as the line
    [number,name]. *)
Definition plainEntry (e : string * string) : bool :=
  plain (fst e) && plain (snd e) && negb (startsWith "#"%char (fst e)).

Definition renderRow (e : string * string) : string :=
  fst e ++ "," ++ snd e ++ nl.

Fixpoint renderDirectory (entries : list (string * string)) : string :=
  match entries with
  | [] => EmptyString
  | e :: rest => renderRow e ++ renderDirectory rest
  end.

(** The records of a written directory, with the lines they stand on. *)
Fixpoint rawRows (numLine : Z) (entries : list (string * string)) : list csv.RawRecord :=
  match entries with
  | [] => []
  | e :: rest => csv.mkRaw numLine [fst e; snd e] :: rawRows (numLine + 1) rest
  end.

(** An object lacks a field when none of its keys addresses it for the
    decoder, that is, none equals the field name up to the case of its
    letters. *)
Definition lacksField (name : string) (members : list (string * json)) : bool :=
  forallb (fun kv => negb (Json.equalFold name (fst kv))) members.

(** The deadline the specification gives for a broadcast to
    [contactCount] contacts, in nanoseconds. *)
Definition specDeadline (contactCount : Z) : Z :=
  Z.max 1 (contactCount / rate CallLimiter) * 2 * Second.

Definition maxInt64 : Z := 2 ^ 63 - 1.

(** Sample values, for the instances the properties are tried on. *)

Definition sampleClient : Client :=
  {| AppID := "app-1"; Number_ := "390000000"; Origin := "https://voicebr.example";
     key := Some {| pem := "PRIVATE KEY" |} |}.

(** A world in which the limiters grant at once, signing works and the
    platform answers every request with [answer]. *)
Definition worldAnswering (answer : Response + error) : World :=
  {| limiterWait := fun _ _ => None;
     now := 1546300800;
     newUUID := "00000000-0000-4000-8000-000000000000";
     signedString := fun _ _ => inl "signed.jwt.token";
     newRequestError := fun _ _ => None;
     roundTrip := fun _ => answer |}.

Definition okResponse : Response :=
  {| StatusCode := 200; Status := "200 OK"; RespBody := "ID3-audio-bytes" |}.

Definition notFoundResponse : Response :=
  {| StatusCode := 404; Status := "404 Not Found"; RespBody := EmptyString |}.

(** Two worlds for two goroutines: the platform refuses the call of the
    first and accepts the call of every other. *)
Definition twoWorlds (i : nat) : World :=
  match i with
  | O => worldAnswering (inl notFoundResponse)
  | _ => worldAnswering (inl okResponse)
  end.

Definition sampleProvider (broadcast whitelist : ReadFn) : ContactsProvider :=
  {| ReadBroadcastList := broadcast; ReadWhitelist := whitelist |}.

Definition sampleStorage (broadcast whitelist : ReadFn) : Storage :=
  {| contacts := sampleProvider broadcast whitelist;
     WriteRec := fun _ fileName => ("/var/voicebr/recs/" ++ fileName, None) |}.


(** More vocabulary. *)

Definition isSent (ev : Event) : bool :=
  match ev with
  | Sent _ => true
  | _ => false
  end.

Definition isWaited (ev : Event) : bool :=
  match ev with
  | Waited _ _ => true
  | _ => false
  end.

(** The requests a run of goroutines has sent, all reports together. *)
Definition sentInRun (run : list (nat * list Event)) : nat :=
  List.length (filter isSent (List.concat (map snd run))).

(** A text that stays on its line: it holds no line break. *)
Fixpoint oneLine (s : string) : bool :=
  match s with
  | EmptyString => true
  | String c rest => negb (Ascii.eqb c CR) && negb (Ascii.eqb c LF) && oneLine rest
  end.

(** The lines of a directory file as one writes it by hand: entries,
    comments and empty lines. *)
Inductive DirLine : Type :=
| Entry (e : string * string)
| Remark (text : string)
| Blank.

Definition writable (l : DirLine) : bool :=
  match l with
  | Entry e => plainEntry e
  | Remark t => oneLine t
  | Blank => true
  end.

Definition renderLine (l : DirLine) : string :=
  match l with
  | Entry e => renderRow e
  | Remark t => String "#"%char (t ++ nl)
  | Blank => nl
  end.

Fixpoint renderLines (ls : list DirLine) : string :=
  match ls with
  | [] => EmptyString
  | l :: rest => renderLine l ++ renderLines rest
  end.

Fixpoint entriesOf (ls : list DirLine) : list (string * string) :=
  match ls with
  | [] => []
  | Entry e :: rest => e :: entriesOf rest
  | _ :: rest => entriesOf rest
  end.

(** The records of such a file, with the lines they stand on. *)
Fixpoint rawLines (numLine : Z) (ls : list DirLine) : list csv.RawRecord :=
  match ls with
  | [] => []
  | Entry e :: rest => csv.mkRaw numLine [fst e; snd e] :: rawLines (numLine + 1) rest
  | _ :: rest => rawLines (numLine + 1) rest
  end.

(** A client that was given no key. *)
Definition keylessClient : Client :=
  {| AppID := "app-1"; Number_ := "390000000"; Origin := "https://voicebr.example";
     key := None |}.

(** A world like [worldAnswering] but whose limiters refuse with the
    error of an expired context. *)
Definition worldRefusing : World :=
  {| limiterWait := fun _ _ => Some (errorString "context deadline exceeded");
     now := 1546300800;
     newUUID := "00000000-0000-4000-8000-000000000000";
     signedString := fun _ _ => inl "signed.jwt.token";
     newRequestError := fun _ _ => None;
     roundTrip := fun _ => inl okResponse |}.

Definition sampleIncoming (method path : string) (body : string * option error) : Incoming :=
  {| URLPath := path; RequestURI := path;
     request := {| reqMethod := method; reqQuery := [];
                   reqBody := inr (errorString "EOF") |};
     rawBody := body |}.

(** A member of a request body is in order for the field [from] when it
    does not address it, or holds a string or null. *)
Definition fromInOrder (kv : string * json) : bool :=
  negb (Json.equalFold "from" (fst kv)) ||
  match snd kv with
  | JString _ | JNull => true
  | _ => false
  end.

(** A body the caller can be read from: null, or an object all of whose
    members are in order for [from]. *)
Definition callerBodyInOrder (body : json + error) : bool :=
  match body with
  | inl JNull => true
  | inl (JObject members) => forallb fromInOrder members
  | _ => false
  end.

(** What the events of one goroutine must be to count as the call
    attempt for [contact] under the timeout [deadline], given how the
    outside [w] answers it: it logs the call, waits on the call limiter
    under that timeout, and then
    - if the limiter refuses, logs that error and sends nothing;
    - if no token can be made or no request built, logs that error and
      sends nothing;
    - otherwise sends one POST to the calls endpoint, signed, whose JSON
      body names the contact's kind and number as recipient, the client's
      number as sender and the two callback URLs, and logs an error after
      it exactly when the round trip fails or the status is neither 200
      nor 201. *)
Definition callAttempt (c : Client) (deadline : Z) (recName : string)
    (contact : Contact) (w : World) (report : list Event) : Prop :=
  exists tail,
    report = Log "calling %v, message: %v" [AStr (Name contact); AStr recName]
             :: Waited CallLimiter (Some deadline) :: tail /\
    (forall e,
        limiterWait w CallLimiter (Some deadline) = Some e ->
        tail = [Log "call error: %v"
                    [AErr (Errorf "unable to make call: "
                             (Errorf "client: unable to perform Post: " e))]]) /\
    (forall s terr,
        limiterWait w CallLimiter (Some deadline) = None ->
        Token c w = (s, Some terr) ->
        tail = [Log "call error: %v"
                    [AErr (Errorf "unable to make call: "
                             (Errorf "unable to create authorization token: " terr))]]) /\
    (forall token nerr,
        limiterWait w CallLimiter (Some deadline) = None ->
        Token c w = (token, None) ->
        newRequestError w "POST" "https://api.nexmo.com/v1/calls" = Some nerr ->
        tail = [Log "call error: %v"
                    [AErr (Errorf "unable to make call: "
                             (Errorf "unable to make request: " nerr))]]) /\
    (forall token req,
        limiterWait w CallLimiter (Some deadline) = None ->
        Token c w = (token, None) ->
        newRequestError w "POST" "https://api.nexmo.com/v1/calls" = None ->
        req = {| Method := "POST"; URL := "https://api.nexmo.com/v1/calls";
                 Header := [("Authorization", "Bearer " ++ token);
                            ("Content-Type", "application/json")];
                 Body := Some (JObject
                   [("to", JArray [JObject [("type", JString (Type_ contact));
                                            ("number", JString (Number contact))]]);
                    ("from", JObject [("type", JString "phone");
                                      ("number", JString (Number_ c))]);
                    ("answer_url",
                     JArray [JString (Origin c ++ "/play/recording/" ++ recName)]);
                    ("event_url",
                     JArray [JString (Origin c ++ "/play/recording/event")])]) |} ->
        (forall resp,
            roundTrip w req = inl resp ->
            StatusCode resp = 200 \/ StatusCode resp = 201 ->
            tail = [Sent req]) /\
        (forall resp,
            roundTrip w req = inl resp ->
            StatusCode resp <> 200 -> StatusCode resp <> 201 ->
            tail = [Sent req;
                    Log "call error: %v"
                        [AErr (Errorf "unable to make call: "
                                 (errorString ("request failed: " ++ Status resp)))]]) /\
        (forall rerr,
            roundTrip w req = inr rerr ->
            tail = [Sent req;
                    Log "call error: %v" [AErr (Errorf "unable to make call: " rerr)]])).

(** * Properties *)

(** ** The csv reader *)

Lemma app_one_not_nil {A : Type} (l : list A) (x : A) : (l ++ [x])%list <> [].
Proof. destruct l; discriminate. Qed.

Lemma scanLine_fields_nonempty comma line :
  forall st fields fs,
    csv.scanLine comma st fields line = csv.RecordDone fs -> fs <> [].
Proof.
  induction line as [|c rest IH]; intros st fields fs H.
  - destruct st; simpl in H; inversion H; apply app_one_not_nil.
  - simpl in H.
    destruct st;
      repeat match type of H with
             | (if ?b then _ else _) = _ => destruct b
             end;
      try discriminate;
      try (inversion H; apply app_one_not_nil);
      try (eapply IH; eassumption).
Qed.

Lemma lexFrom_fields_nonempty comma comment lines :
  forall pending numLine,
    Forall (fun rec => csv.recFields rec <> [])
           (fst (csv.lexFrom comma comment pending lines numLine)).
Proof.
  induction lines as [|line more IH]; intros pending numLine.
  - destruct pending as [[[? ?] ?]|]; constructor.
  - simpl.
    assert (Hh : forall start o,
      Forall (fun rec => csv.recFields rec <> [])
        (fst match o with
             | csv.RecordDone fs =>
                 let '(recs, e) := csv.lexFrom comma comment None more (numLine + 1) in
                 ({| csv.recLine := start; csv.recFields := fs |} :: recs, e)
             | csv.NeedMore buf fs =>
                 csv.lexFrom comma comment (Some (buf, fs, start)) more (numLine + 1)
             | csv.Failed k => ([], Some (csv.ParseError start k))
             end) \/ o = csv.RecordDone []).
    { intros start o. destruct o as [fs|buf fs|k].
      - destruct fs as [|f fs]; [right; reflexivity|left].
        specialize (IH None (numLine + 1)).
        destruct (csv.lexFrom comma comment None more (numLine + 1)) as [recs e].
        simpl in *. constructor; [discriminate|assumption].
      - left. apply IH.
      - left. constructor. }
    destruct pending as [[[buf fs] start]|].
    + destruct (Hh start (csv.scanLine comma (csv.Quoted buf) fs line)) as [H|H];
        [exact H|].
      apply scanLine_fields_nonempty in H. congruence.
    + destruct (csv.isComment comment line); [apply IH|].
      destruct (csv.onlyNL line); [apply IH|].
      destruct (Hh numLine (csv.scanLine comma csv.FieldStart [] line)) as [H|H];
        [exact H|].
      apply scanLine_fields_nonempty in H. congruence.
Qed.

(** With a negative [FieldsPerRecord] the loop delivers every record. *)
Lemma readAllLoop_unchecked recs :
  forall fpr lexErr records,
    fpr < 0 ->
    csv.readAllLoop fpr recs lexErr records =
    match lexErr with
    | None => inl (records ++ map csv.recFields recs)%list
    | Some e => inr e
    end.
Proof.
  induction recs as [|rec rest IH]; intros fpr lexErr records Hneg; simpl.
  - rewrite app_nil_r. reflexivity.
  - unfold csv.checkFieldCount.
    destruct (0 <? fpr) eqn:E1; [apply Z.ltb_lt in E1; lia|].
    destruct (fpr =? 0) eqn:E2; [apply Z.eqb_eq in E2; lia|].
    rewrite IH by assumption. rewrite <- app_assoc. reflexivity.
Qed.

(** With a positive [FieldsPerRecord] the loop delivers the records
    exactly when each has that many fields. *)
Lemma readAllLoop_fixed_ok recs :
  forall fpr records,
    0 < fpr ->
    Forall (fun rec => Z.of_nat (List.length (csv.recFields rec)) = fpr) recs ->
    csv.readAllLoop fpr recs None records = inl (records ++ map csv.recFields recs)%list.
Proof.
  induction recs as [|rec rest IH]; intros fpr records Hpos Hall; simpl.
  - rewrite app_nil_r. reflexivity.
  - inversion Hall as [|? ? Hrec Hrest]; subst.
    unfold csv.checkFieldCount.
    destruct (0 <? Z.of_nat (List.length (csv.recFields rec))) eqn:E1;
      [|apply Z.ltb_ge in E1; lia].
    rewrite Z.eqb_refl. simpl.
    rewrite IH by assumption. rewrite <- app_assoc. reflexivity.
Qed.

Lemma readAllLoop_fixed_inv recs :
  forall fpr lexErr records out,
    0 < fpr ->
    csv.readAllLoop fpr recs lexErr records = inl out ->
    lexErr = None /\
    out = (records ++ map csv.recFields recs)%list /\
    Forall (fun rec => Z.of_nat (List.length (csv.recFields rec)) = fpr) recs.
Proof.
  induction recs as [|rec rest IH]; intros fpr lexErr records out Hpos H; simpl in H.
  - destruct lexErr; [discriminate|]. inversion H; subst.
    rewrite app_nil_r. repeat split. constructor.
  - unfold csv.checkFieldCount in H.
    destruct (0 <? fpr) eqn:E1; [|apply Z.ltb_ge in E1; lia].
    destruct (Z.of_nat (List.length (csv.recFields rec)) =? fpr) eqn:E2; simpl in H;
      [|discriminate].
    apply Z.eqb_eq in E2.
    destruct (IH _ _ _ _ Hpos H) as (He & Hout & Hall).
    repeat split; [assumption| |constructor; assumption].
    rewrite Hout, <- app_assoc. reflexivity.
Qed.

(** What [ReadAll] delivers under the zero [FieldsPerRecord] of
    [NewReader]: all the records have as many fields as the first. *)
Lemma readAllLoop_first_sets recs :
  forall lexErr out,
    Forall (fun rec => csv.recFields rec <> []) recs ->
    csv.readAllLoop 0 recs lexErr [] = inl out ->
    lexErr = None /\ out = map csv.recFields recs /\
    exists n, Forall (fun rec => List.length rec = n) out.
Proof.
  intros lexErr out Hne H. destruct recs as [|rec rest]; simpl in H.
  - destruct lexErr; [discriminate|]. inversion H; subst.
    repeat split. exists 0%nat. constructor.
  - inversion Hne as [|? ? Hrec Hrest]; subst.
    unfold csv.checkFieldCount in H. simpl in H.
    assert (Hpos : 0 < Z.of_nat (List.length (csv.recFields rec))).
    { destruct (csv.recFields rec); [congruence|simpl; lia]. }
    destruct (readAllLoop_fixed_inv _ _ _ _ _ Hpos H) as (He & Hout & Hall).
    repeat split; [assumption|assumption|].
    exists (List.length (csv.recFields rec)). subst out. simpl.
    constructor; [reflexivity|].
    apply Forall_map. eapply Forall_impl; [|exact Hall].
    simpl. intros a Ha. lia.
Qed.

(** ** The directory decoder *)

Lemma collectContacts_filter recs :
  forall acc,
    collectContacts recs acc = (acc ++ map contactOfRow (filter wellFormed recs))%list.
Proof.
  induction recs as [|rec rest IH]; intros acc; simpl.
  - rewrite app_nil_r. reflexivity.
  - unfold wellFormed at 1.
    destruct (List.length rec) as [|[|n]] eqn:E; simpl.
    + apply IH.
    + apply IH.
    + rewrite IH, <- app_assoc. reflexivity.
Qed.

(** [DecodeContacts] and [directoryRows] read the same records; they
    differ in the field count the reader imposes. *)
Lemma decoder_reads data :
  exists recs lexErr,
    csv.lexFrom "," "#" None (csv.readLines data) 1 = (recs, lexErr) /\
    Forall (fun rec => csv.recFields rec <> []) recs /\
    directoryRows data =
      match lexErr with
      | None => inl (map csv.recFields recs)
      | Some e => inr e
      end /\
    DecodeContacts (data, None) =
      match csv.readAllLoop 0 recs lexErr [] with
      | inr err => ([], Some (Errorf "decode contacts: " (csvError err)))
      | inl rs =>
          let acc := collectContacts rs [] in
          if negb (List.length acc =? List.length rs)%nat
          then (acc, Some ErrCorruptedContacts) else (acc, None)
      end.
Proof.
  pose proof (lexFrom_fields_nonempty "," "#" (csv.readLines data) None 1) as Hne.
  destruct (csv.lexFrom "," "#" None (csv.readLines data) 1) as [recs lexErr] eqn:E.
  exists recs, lexErr. split; [reflexivity|]. split; [exact Hne|]. split.
  - unfold directoryRows, csv.rows, csv.ReadAll, csv.lexRecords. simpl.
    rewrite E. rewrite readAllLoop_unchecked by lia. reflexivity.
  - unfold DecodeContacts, csv.ReadAll, csv.lexRecords. simpl.
    rewrite E. reflexivity.
Qed.

Lemma filter_all {A : Type} (f : A -> bool) (l : list A) :
  Forall (fun x => f x = true) l -> filter f l = l.
Proof.
  induction 1 as [|x l Hx Hl IH]; simpl; [reflexivity|].
  rewrite Hx, IH. reflexivity.
Qed.

Lemma filter_none {A : Type} (f : A -> bool) (l : list A) :
  Forall (fun x => f x = false) l -> filter f l = [].
Proof.
  induction 1 as [|x l Hx Hl IH]; simpl; [reflexivity|].
  rewrite Hx, IH. reflexivity.
Qed.

Lemma filter_length_le {A : Type} (f : A -> bool) (l : list A) :
  (List.length (filter f l) <= List.length l)%nat.
Proof.
  induction l as [|x l IH]; simpl; [lia|]. destruct (f x); simpl; lia.
Qed.

Lemma filter_length_all {A : Type} (f : A -> bool) (l : list A) :
  List.length (filter f l) = List.length l -> Forall (fun x => f x = true) l.
Proof.
  induction l as [|x l IH]; simpl; intros H; [constructor|].
  destruct (f x) eqn:E; simpl in H.
  - constructor; [assumption|]. apply IH. lia.
  - pose proof (filter_length_le f l). lia.
Qed.

(** Rows that all have the same number [k >= 2] of fields decode to one
    contact each, in order, without error. *)
Lemma DecodeContacts_uniform data rows k :
  directoryRows data = inl rows ->
  (2 <= k)%nat ->
  Forall (fun rec => List.length rec = k) rows ->
  DecodeContacts (data, None) = (map contactOfRow rows, None).
Proof.
  intros Hrows Hk Hall.
  destruct (decoder_reads data) as (recs & lexErr & _ & _ & Hr & Hd).
  rewrite Hd. rewrite Hr in Hrows.
  destruct lexErr as [e|]; [discriminate|]. inversion Hrows; subst rows; clear Hrows.
  assert (Hloop : csv.readAllLoop 0 recs None [] = inl (map csv.recFields recs)).
  { destruct recs as [|rec rest]; [reflexivity|].
    simpl in Hall. inversion Hall as [|? ? Hrec Hrest]; subst.
    simpl. unfold csv.checkFieldCount. simpl.
    rewrite readAllLoop_fixed_ok; [reflexivity|lia|].
    apply Forall_map in Hrest. eapply Forall_impl; [|exact Hrest].
    simpl. intros a Ha. lia. }
  rewrite Hloop. simpl.
  rewrite collectContacts_filter. simpl.
  rewrite filter_all.
  - rewrite length_map, Nat.eqb_refl. reflexivity.
  - eapply Forall_impl; [|exact Hall]. simpl. intros a Ha.
    unfold wellFormed. apply Nat.leb_le. lia.
Qed.

(** The partial error never comes with a contact: the reader has already
    refused every directory whose rows differ in their number of
    fields. *)
Lemma DecodeContacts_partial_empty data cs :
  DecodeContacts (data, None) = (cs, Some ErrCorruptedContacts) -> cs = [].
Proof.
  intros H.
  destruct (decoder_reads data) as (recs & lexErr & _ & Hne & _ & Hd).
  rewrite Hd in H. clear Hd.
  destruct (csv.readAllLoop 0 recs lexErr []) as [rs|err] eqn:E; [|discriminate].
  destruct (readAllLoop_first_sets _ _ _ Hne E) as (_ & _ & n & Hn).
  simpl in H. rewrite collectContacts_filter in H. simpl in H.
  destruct (List.length (map contactOfRow (filter wellFormed rs)) =? List.length rs)%nat
    eqn:El; simpl in H; [discriminate|].
  inversion H; subst cs; clear H.
  apply Nat.eqb_neq in El. rewrite length_map in El.
  destruct (Nat.leb 2 n) eqn:E2.
  - exfalso. apply El. rewrite filter_all; [reflexivity|].
    eapply Forall_impl; [|exact Hn]. simpl. intros a Ha.
    unfold wellFormed. rewrite Ha. exact E2.
  - rewrite filter_none; [reflexivity|].
    eapply Forall_impl; [|exact Hn]. simpl. intros a Ha.
    unfold wellFormed. rewrite Ha. exact E2.
Qed.

(** A directory all of whose rows are malformed decodes to no contact
    and the partial error. *)
Lemma DecodeContacts_all_malformed data rows :
  directoryRows data = inl rows ->
  rows <> [] ->
  Forall (fun rec => wellFormed rec = false) rows ->
  DecodeContacts (data, None) = ([], Some ErrCorruptedContacts).
Proof.
  intros Hrows Hnn Hall.
  destruct (decoder_reads data) as (recs & lexErr & _ & Hne & Hr & Hd).
  rewrite Hd. rewrite Hr in Hrows.
  destruct lexErr as [e|]; [discriminate|]. inversion Hrows; subst rows; clear Hrows.
  assert (Hone : Forall (fun rec => Z.of_nat (List.length (csv.recFields rec)) = 1) recs).
  { apply Forall_map in Hall.
    rewrite Forall_forall in *. intros rec Hin.
    specialize (Hall rec Hin). specialize (Hne rec Hin). simpl in Hall.
    unfold wellFormed in Hall. apply Nat.leb_gt in Hall.
    destruct (csv.recFields rec) as [|? [|? ?]]; simpl in *; [congruence|lia|lia]. }
  assert (Hloop : csv.readAllLoop 0 recs None [] = inl (map csv.recFields recs)).
  { destruct recs as [|rec rest]; [reflexivity|].
    inversion Hone as [|? ? Hrec Hrest]; subst.
    simpl. unfold csv.checkFieldCount. simpl. rewrite Hrec.
    rewrite readAllLoop_fixed_ok; [reflexivity|lia|assumption]. }
  rewrite Hloop. simpl.
  rewrite collectContacts_filter. simpl.
  rewrite filter_none by assumption. simpl.
  destruct recs; [exfalso; apply Hnn; reflexivity|reflexivity].
Qed.

Lemma readAllLoop_error_kind recs :
  forall fpr records e,
    csv.readAllLoop fpr recs None records = inr e ->
    exists line, e = csv.ParseError line csv.ErrFieldCount.
Proof.
  induction recs as [|rec rest IH]; intros fpr records e H; simpl in H.
  - discriminate.
  - unfold csv.checkFieldCount in H.
    destruct (0 <? fpr).
    + destruct (negb (Z.of_nat (List.length (csv.recFields rec)) =? fpr)).
      * inversion H. eexists. reflexivity.
      * eapply IH. exact H.
    + destruct (fpr =? 0); eapply IH; exact H.
Qed.

(** Every directory that mixes well-formed and malformed rows is refused
    as a whole, with the reader's field-count error. *)
Lemma DecodeContacts_mixed_refused data rows :
  directoryRows data = inl rows ->
  Exists (fun rec => wellFormed rec = true) rows ->
  Exists (fun rec => wellFormed rec = false) rows ->
  exists line,
    DecodeContacts (data, None)
    = ([], Some (Errorf "decode contacts: "
                   (csvError (csv.ParseError line csv.ErrFieldCount)))).
Proof.
  intros Hrows Hgood Hbad.
  destruct (decoder_reads data) as (recs & lexErr & _ & Hne & Hr & Hd).
  rewrite Hd. rewrite Hr in Hrows.
  destruct lexErr as [e|]; [discriminate|]. inversion Hrows; subst rows; clear Hrows.
  destruct (csv.readAllLoop 0 recs None []) as [rs|err] eqn:E.
  - exfalso.
    destruct (readAllLoop_first_sets _ _ _ Hne E) as (_ & Hout & n & Hn).
    subst rs. rewrite Forall_forall in Hn.
    apply Exists_exists in Hgood. destruct Hgood as (g & Hgin & Hg).
    apply Exists_exists in Hbad. destruct Hbad as (b & Hbin & Hb).
    unfold wellFormed in Hg, Hb.
    rewrite (Hn g Hgin) in Hg. rewrite (Hn b Hbin) in Hb. congruence.
  - destruct (readAllLoop_error_kind _ _ _ _ E) as (line & ->).
    exists line. reflexivity.
Qed.

(** C1 (the code departs from the claim).  The directory ["123,Alice"],
    ["456"] has one well-formed and one malformed row; the claim expects
    the contact of the first row with [ErrCorruptedContacts].
    [DecodeContacts] returns no contact and the reader's field-count error
    for line 2, wrapped: the reader is left at [FieldsPerRecord = 0], which
    binds every record to the field count of the first. *)
Theorem DecodeContacts_mixed_rows :
  directoryRows ("123,Alice" ++ nl ++ "456" ++ nl) = inl [["123"; "Alice"]; ["456"]] /\
  DecodeContacts ("123,Alice" ++ nl ++ "456" ++ nl, None)
  = ([], Some (Errorf "decode contacts: "
                 (csvError (csv.ParseError 2 csv.ErrFieldCount)))).
Proof. split; vm_compute; reflexivity. Qed.

(** C9.  When every row of the directory has the same number of fields
    and that number is at least two, [DecodeContacts] returns one contact
    per row, in row order (number from the first field, name from the
    second), and no error. *)
Theorem DecodeContacts_well_formed data rows k :
  directoryRows data = inl rows ->
  (2 <= k)%nat ->
  Forall (fun rec => List.length rec = k) rows ->
  exists cs,
    DecodeContacts (data, None) = (cs, None) /\
    cs = map contactOfRow rows /\
    List.length cs = List.length rows /\
    forall i rec, nth_error rows i = Some rec ->
      nth_error cs i = Some (NewContact (index0 rec) (index1 rec)).
Proof.
  intros Hrows Hk Hall. exists (map contactOfRow rows).
  split; [eapply DecodeContacts_uniform; eassumption|].
  split; [reflexivity|]. split; [apply length_map|].
  intros i rec Hi. rewrite nth_error_map, Hi. reflexivity.
Qed.

Lemma DecodeContacts_well_formed_witness :
  exists cs,
    DecodeContacts ("# broadcast list" ++ nl ++ "123,Alice" ++ nl ++ "456,Bob" ++ nl, None)
      = (cs, None) /\
    cs = map contactOfRow [["123"; "Alice"]; ["456"; "Bob"]] /\
    List.length cs = 2%nat /\
    forall i rec, nth_error [["123"; "Alice"]; ["456"; "Bob"]] i = Some rec ->
      nth_error cs i = Some (NewContact (index0 rec) (index1 rec)).
Proof.
  apply (DecodeContacts_well_formed
           ("# broadcast list" ++ nl ++ "123,Alice" ++ nl ++ "456,Bob" ++ nl)
           [["123"; "Alice"]; ["456"; "Bob"]] 2).
  - vm_compute. reflexivity.
  - lia.
  - repeat constructor.
Defined.

(** ** The authenticated transport *)

Lemma checkStatus_ok resp :
  checkStatus resp = None <-> StatusCode resp = 200 \/ StatusCode resp = 201.
Proof.
  unfold checkStatus.
  destruct (StatusCode resp =? 200) eqn:E1; simpl.
  - apply Z.eqb_eq in E1. split; auto.
  - destruct (StatusCode resp =? 201) eqn:E2.
    + apply Z.eqb_eq in E2. split; auto.
    + apply Z.eqb_neq in E1. apply Z.eqb_neq in E2.
      split; [discriminate|]. intros [H|H]; contradiction.
Qed.


(** [Do] hands back a response only from the round trip, together with
    the verdict of [checkStatus] on it. *)
Lemma Do_response c w method url body resp err evs :
  Do c w method url body = (Some resp, err, evs) ->
  err = checkStatus resp /\ exists req, roundTrip w req = inl resp /\ evs = [Sent req].
Proof.
  unfold Do. intros H.
  destruct (Token c w) as [token [terr|]]; [discriminate|].
  destruct (newRequestError w method url); [discriminate|].
  match type of H with
  | match roundTrip w ?r with _ => _ end = _ =>
      destruct (roundTrip w r) as [resp'|rerr] eqn:E; [|discriminate];
      inversion H; subst; split; [reflexivity|]; exists r; split; [exact E|reflexivity]
  end.
Qed.

Lemma Do_response_or_error c w method url body :
  forall evs, Do c w method url body <> (None, None, evs).
Proof.
  intros evs H. unfold Do in H.
  destruct (Token c w) as [token [terr|]]; [discriminate|].
  destruct (newRequestError w method url); [discriminate|].
  match type of H with
  | match roundTrip w ?r with _ => _ end = _ =>
      destruct (roundTrip w r); discriminate
  end.
Qed.

Lemma Get_response c w ctx url resp err evs :
  Get c w ctx url = (Some resp, err, evs) -> err = checkStatus resp.
Proof.
  unfold Get. intros H.
  destruct (limiterWait w GetLimiter ctx); [discriminate|].
  destruct (Do c w "GET" url None) as [[r e] ev] eqn:E.
  inversion H; subst. apply Do_response in E. tauto.
Qed.

Lemma Get_response_or_error c w ctx url :
  forall evs, Get c w ctx url <> (None, None, evs).
Proof.
  intros evs H. unfold Get in H.
  destruct (limiterWait w GetLimiter ctx); [discriminate|].
  destruct (Do c w "GET" url None) as [[r e] ev] eqn:E.
  inversion H; subst. eapply Do_response_or_error. exact E.
Qed.




(** ** The broadcast *)

Lemma wrap64_small z : - 2 ^ 63 <= z < 2 ^ 63 -> wrap64 z = z.
Proof.
  intros H. unfold wrap64. rewrite Z.mod_small; lia.
Qed.

Lemma len_nonneg {A : Type} (l : list A) : 0 <= len l.
Proof. unfold len. lia. Qed.

Lemma callTimeout_spec contacts :
  specDeadline (len contacts) <= maxInt64 ->
  callTimeout contacts = specDeadline (len contacts).
Proof.
  unfold specDeadline, maxInt64, callTimeout, CallLimiter, NewLimiter, Second. simpl rate.
  pose proof (len_nonneg contacts) as Hl. intros Hb.
  rewrite Z.quot_div_nonneg by lia.
  assert (Hq : 0 <= len contacts / 3) by (apply Z.div_pos; lia).
  assert (Hn : (if len contacts / 3 <? 1 then 1 else len contacts / 3)
               = Z.max 1 (len contacts / 3)).
  { destruct (len contacts / 3 <? 1) eqn:E.
    - apply Z.ltb_lt in E. lia.
    - apply Z.ltb_ge in E. lia. }
  rewrite Hn.
  assert (Hm : 1 <= Z.max 1 (len contacts / 3)) by lia.
  rewrite (wrap64_small (Z.max 1 (len contacts / 3) * 2)) by lia.
  rewrite wrap64_small by lia. lia.
Qed.

(** The bound of [callTimeout_spec] in contacts: up to 13835058056 of
    them the deadline is a [time.Duration]. *)
Lemma specDeadline_fits (contacts : list Contact) :
  len contacts <= 13835058056 -> specDeadline (len contacts) <= maxInt64.
Proof.
  unfold specDeadline, maxInt64, CallLimiter, NewLimiter, Second. simpl rate.
  pose proof (len_nonneg contacts) as Hl. intros Hb.
  assert (Hq : len contacts / 3 < 4611686019).
  { apply Z.div_lt_upper_bound; lia. }
  assert (Hq0 : 0 <= len contacts / 3) by (apply Z.div_pos; lia).
  lia.
Qed.

(** What a call goroutine does, step by step. *)
Lemma callRoutine_events c contacts recName contact w :
  callRoutine c contacts recName contact w =
  Log "calling %v, message: %v" [AStr (Name contact); AStr recName]
  :: Waited CallLimiter (Some (callTimeout contacts))
  :: match limiterWait w CallLimiter (Some (callTimeout contacts)) with
     | Some e =>
         [Log "call error: %v"
              [AErr (Errorf "unable to make call: "
                       (Errorf "client: unable to perform Post: " e))]]
     | None =>
         let '(_, err, evs) :=
           Do c w "POST" "https://api.nexmo.com/v1/calls"
              (Some (callPayload c contact recName)) in
         match err with
         | Some e => (evs ++ [Log "call error: %v"
                                  [AErr (Errorf "unable to make call: " e)]])%list
         | None => evs
         end
     end.
Proof.
  unfold callRoutine, call, Encode, Post.
  destruct (limiterWait w CallLimiter (Some (callTimeout contacts))); [reflexivity|].
  destruct (Do c w "POST" "https://api.nexmo.com/v1/calls"
              (Some (callPayload c contact recName))) as [[r e] evs].
  destruct e; reflexivity.
Qed.

Lemma Do_events_no_wait c w method url body l ctx :
  ~ In (Waited l ctx) (snd (Do c w method url body)).
Proof.
  unfold Do.
  destruct (Token c w) as [token [terr|]]; [simpl; tauto|].
  destruct (newRequestError w method url); [simpl; tauto|].
  match goal with
  | |- ~ In _ (snd match roundTrip w ?r with _ => _ end) =>
      destruct (roundTrip w r); simpl; intros [H|[]]; discriminate
  end.
Qed.

Lemma callRoutine_waits c contacts recName contact w :
  In (Waited CallLimiter (Some (callTimeout contacts)))
     (callRoutine c contacts recName contact w) /\
  forall l ctx,
    In (Waited l ctx) (callRoutine c contacts recName contact w) ->
    l = CallLimiter /\ ctx = Some (callTimeout contacts).
Proof.
  rewrite callRoutine_events. split; [right; left; reflexivity|].
  intros l ctx [H|[H|H]]; [discriminate|inversion H; split; reflexivity|].
  exfalso.
  destruct (limiterWait w CallLimiter (Some (callTimeout contacts))).
  - destruct H as [H|[]]; discriminate.
  - pose proof (Do_events_no_wait c w "POST" "https://api.nexmo.com/v1/calls"
                  (Some (callPayload c contact recName)) l ctx) as Hn.
    destruct (Do c w "POST" "https://api.nexmo.com/v1/calls"
                (Some (callPayload c contact recName))) as [[r e] evs].
    simpl in Hn. destruct e; [|contradiction].
    apply in_app_or in H. destruct H as [H|[H|[]]]; [contradiction|discriminate].
Qed.

Lemma CallDecoded_proceeds c contacts err recName :
  err = None \/ err = Some ErrCorruptedContacts ->
  fst (CallDecoded c (contacts, err) recName)
  = map (callRoutine c contacts recName) contacts.
Proof. intros [->| ->]; reflexivity. Qed.

Lemma CallDecoded_aborts c contacts err recName :
  err <> ErrCorruptedContacts ->
  CallDecoded c (contacts, Some err) recName = ([], [Log "call error: %v" [AErr err]]).
Proof.
  intros Hne. unfold CallDecoded.
  destruct err; simpl; try reflexivity. congruence.
Qed.

Lemma CallDecoded_routines c decoded recName g :
  In g (fst (CallDecoded c decoded recName)) ->
  exists contact, In contact (fst decoded) /\ g = callRoutine c (fst decoded) recName contact.
Proof.
  destruct decoded as [contacts err]. unfold CallDecoded. simpl fst at 2 3.
  intros H.
  assert (Hm : In g (map (callRoutine c contacts recName) contacts)).
  { destruct err as [e|]; [|exact H].
    destruct (isErrCorruptedContacts e); [exact H|destruct H]. }
  apply in_map_iff in Hm. destruct Hm as (contact & Hg & Hin).
  exists contact. split; [exact Hin|symmetry; exact Hg].
Qed.

(** C4.  In every broadcast, every call goroutine waits on the call
    limiter under a context whose timeout is
    [max 1 (contactCount / 3) * 2] seconds, 3 being the ceiling the call
    limiter is configured with, and under no other context.  The bound
    says that this duration is a [time.Duration], a signed 64-bit count
    of nanoseconds. *)
Theorem call_deadline c p recName g w :
  In g (fst (Call c p recName)) ->
  specDeadline (len (fst (DecodeContacts (ReadBroadcastList p)))) <= maxInt64 ->
  specDeadline (len (fst (DecodeContacts (ReadBroadcastList p))))
  = Z.max 1 (len (fst (DecodeContacts (ReadBroadcastList p))) / 3) * 2 * 1000000000 /\
  In (Waited CallLimiter
        (Some (specDeadline (len (fst (DecodeContacts (ReadBroadcastList p))))))) (g w) /\
  forall l ctx,
    In (Waited l ctx) (g w) ->
    ctx = Some (specDeadline (len (fst (DecodeContacts (ReadBroadcastList p))))).
Proof.
  intros Hg Hb. unfold Call in Hg.
  apply CallDecoded_routines in Hg. destruct Hg as (contact & _ & ->).
  rewrite <- (callTimeout_spec _ Hb).
  split; [rewrite (callTimeout_spec _ Hb); reflexivity|].
  destruct (callRoutine_waits c (fst (DecodeContacts (ReadBroadcastList p)))
              recName contact w) as [H1 H2].
  split; [exact H1|]. intros l ctx H. apply H2 in H. tauto.
Qed.

Lemma call_deadline_witness :
  specDeadline 7 = Z.max 1 (7 / 3) * 2 * 1000000000 /\
  In (Waited CallLimiter (Some 4000000000))
     (callRoutine sampleClient
        (map contactOfRow [["1"; "A"]; ["2"; "B"]; ["3"; "C"]; ["4"; "D"];
                           ["5"; "E"]; ["6"; "F"]; ["7"; "G"]])
        "ABC.mp3" (NewContact "1" "A") (worldAnswering (inl okResponse))) /\
  forall l ctx,
    In (Waited l ctx)
       (callRoutine sampleClient
          (map contactOfRow [["1"; "A"]; ["2"; "B"]; ["3"; "C"]; ["4"; "D"];
                             ["5"; "E"]; ["6"; "F"]; ["7"; "G"]])
          "ABC.mp3" (NewContact "1" "A") (worldAnswering (inl okResponse))) ->
    ctx = Some 4000000000.
Proof.
  apply (call_deadline sampleClient
           (sampleProvider
              ("1,A" ++ nl ++ "2,B" ++ nl ++ "3,C" ++ nl ++ "4,D" ++ nl ++
               "5,E" ++ nl ++ "6,F" ++ nl ++ "7,G" ++ nl, None)
              (EmptyString, None))
           "ABC.mp3"
           (callRoutine sampleClient
              (map contactOfRow [["1"; "A"]; ["2"; "B"]; ["3"; "C"]; ["4"; "D"];
                                 ["5"; "E"]; ["6"; "F"]; ["7"; "G"]])
              "ABC.mp3" (NewContact "1" "A"))
           (worldAnswering (inl okResponse))).
  - left. reflexivity.
  - vm_compute. discriminate.
Defined.

Lemma runSchedule_map gs worlds schedule :
  runSchedule gs worlds schedule = map (fun i => (i, runRoutine gs worlds i)) schedule.
Proof. reflexivity. Qed.

Lemma runRoutine_nth c contacts recName worlds i contact :
  nth_error contacts i = Some contact ->
  runRoutine (map (callRoutine c contacts recName) contacts) worlds i
  = callRoutine c contacts recName contact (worlds i).
Proof.
  intros H. unfold runRoutine.
  generalize (callRoutine c contacts recName) as f. intros f.
  rewrite nth_error_map, H. reflexivity.
Qed.

Lemma runRoutine_beyond c contacts recName worlds i :
  nth_error contacts i = None ->
  runRoutine (map (callRoutine c contacts recName) contacts) worlds i = [].
Proof.
  intros H. unfold runRoutine.
  generalize (callRoutine c contacts recName) as f. intros f.
  rewrite nth_error_map, H. reflexivity.
Qed.

(** What [call] does, step by step, with the request written out: the
    wait on the call limiter, the token, the request, the round trip and
    the verdict on the status. *)
Lemma call_steps c w ctx to recName :
  call c w ctx to recName =
  match limiterWait w CallLimiter ctx with
  | Some e =>
      (Some (Errorf "unable to make call: "
               (Errorf "client: unable to perform Post: " e)),
       [Waited CallLimiter ctx])
  | None =>
      match Token c w with
      | (_, Some terr) =>
          (Some (Errorf "unable to make call: "
                   (Errorf "unable to create authorization token: " terr)),
           [Waited CallLimiter ctx])
      | (token, None) =>
          match newRequestError w "POST" "https://api.nexmo.com/v1/calls" with
          | Some nerr =>
              (Some (Errorf "unable to make call: "
                       (Errorf "unable to make request: " nerr)),
               [Waited CallLimiter ctx])
          | None =>
              let req :=
                {| Method := "POST"; URL := "https://api.nexmo.com/v1/calls";
                   Header := [("Authorization", "Bearer " ++ token);
                              ("Content-Type", "application/json")];
                   Body := Some (JObject
                     [("to", JArray [JObject [("type", JString (Type_ to));
                                              ("number", JString (Number to))]]);
                      ("from", JObject [("type", JString "phone");
                                        ("number", JString (Number_ c))]);
                      ("answer_url",
                       JArray [JString (Origin c ++ "/play/recording/" ++ recName)]);
                      ("event_url",
                       JArray [JString (Origin c ++ "/play/recording/event")])]) |} in
              match roundTrip w req with
              | inr rerr =>
                  (Some (Errorf "unable to make call: " rerr),
                   [Waited CallLimiter ctx; Sent req])
              | inl resp =>
                  (if (StatusCode resp =? 200) || (StatusCode resp =? 201) then None
                   else Some (Errorf "unable to make call: "
                                (errorString ("request failed: " ++ Status resp))),
                   [Waited CallLimiter ctx; Sent req])
              end
          end
      end
  end.
Proof.
  unfold call, Encode, Post, Do, checkStatus, callPayload, encodeContact.
  destruct (limiterWait w CallLimiter ctx); [reflexivity|].
  destruct (Token c w) as [token [terr|]]; [reflexivity|].
  destruct (newRequestError w "POST" "https://api.nexmo.com/v1/calls"); [reflexivity|].
  cbn [String.eqb Ascii.eqb Bool.eqb app map Name Type_ Number].
  match goal with
  | |- context [roundTrip w ?r] => destruct (roundTrip w r) as [resp|rerr]
  end; [|reflexivity].
  destruct ((StatusCode resp =? 200) || (StatusCode resp =? 201)); reflexivity.
Qed.

Lemma callRoutine_is_attempt c contacts recName contact w :
  callAttempt c (callTimeout contacts) recName contact w
    (callRoutine c contacts recName contact w).
Proof.
  unfold callAttempt, callRoutine. rewrite call_steps.
  destruct (limiterWait w CallLimiter (Some (callTimeout contacts))) as [lerr|].
  { eexists. split; [reflexivity|]. split; [|split; [|split]].
    - intros e H. inversion H. reflexivity.
    - intros s terr H. discriminate.
    - intros token nerr H. discriminate.
    - intros token req H. discriminate. }
  destruct (Token c w) as [token [terr|]].
  { eexists. split; [reflexivity|]. split; [|split; [|split]].
    - intros e H. discriminate.
    - intros s terr' _ H. inversion H. reflexivity.
    - intros token' nerr _ H. discriminate.
    - intros token' req _ H. discriminate. }
  destruct (newRequestError w "POST" "https://api.nexmo.com/v1/calls") as [nerr|].
  { eexists. split; [reflexivity|]. split; [|split; [|split]].
    - intros e H. discriminate.
    - intros s terr _ H. discriminate.
    - intros token' nerr' _ _ H. inversion H. reflexivity.
    - intros token' req _ _ H. discriminate. }
  cbv zeta.
  match goal with
  | |- context [roundTrip w ?r] =>
      set (rq := r); destruct (roundTrip w rq) as [resp|rerr] eqn:E
  end.
  - destruct ((StatusCode resp =? 200) || (StatusCode resp =? 201)) eqn:Es.
    + eexists. split; [reflexivity|]. split; [|split; [|split]].
      * intros e H. discriminate.
      * intros s terr _ H. discriminate.
      * intros token' nerr _ _ H. discriminate.
      * intros token' req _ Ht _ Hreq. inversion Ht; subst token'.
        fold rq in Hreq. subst req. rewrite E. split; [|split].
        -- intros resp' _ _. reflexivity.
        -- intros resp' Hr H1 H2. exfalso. inversion Hr; subst resp'.
           apply orb_true_iff in Es.
           destruct Es as [Es|Es]; apply Z.eqb_eq in Es; contradiction.
        -- intros rerr H. discriminate.
    + eexists. split; [simpl; reflexivity|]. split; [|split; [|split]].
      * intros e H. discriminate.
      * intros s terr _ H. discriminate.
      * intros token' nerr _ _ H. discriminate.
      * intros token' req _ Ht _ Hreq. inversion Ht; subst token'.
        fold rq in Hreq. subst req. rewrite E. split; [|split].
        -- intros resp' Hr Hs. exfalso. inversion Hr; subst resp'.
           apply orb_false_iff in Es. destruct Es as [E1 E2].
           apply Z.eqb_neq in E1. apply Z.eqb_neq in E2.
           destruct Hs; contradiction.
        -- intros resp' Hr _ _. inversion Hr; subst resp'. reflexivity.
        -- intros rerr H. discriminate.
  - eexists. split; [simpl; reflexivity|]. split; [|split; [|split]].
    + intros e H. discriminate.
    + intros s terr _ H. discriminate.
    + intros token' nerr _ _ H. discriminate.
    + intros token' req _ Ht _ Hreq. inversion Ht; subst token'.
      fold rq in Hreq. subst req. rewrite E. split; [|split].
      * intros resp H. discriminate.
      * intros resp H. discriminate.
      * intros rerr' H. inversion H. reflexivity.
Qed.

(** C7.  What [Call] does is what [CallDecoded] does with the outcome of
    the decode.  When the decode failed with an error other than
    [ErrCorruptedContacts], the broadcast logs that error and stops: no
    goroutine is started, so nothing waits and nothing is sent.  When it
    failed with [ErrCorruptedContacts], the broadcast logs the error and
    the number of contacts decoded and goes on with the contacts that were
    decoded, whatever they are: it starts one goroutine for each of them,
    in order, each of which is the call attempt for its own contact (it
    waits on the call limiter and posts the call to that contact's
    number), and no goroutine beyond them. *)
Theorem Call_on_decode_error c recName contacts err :
  (forall p,
      DecodeContacts (ReadBroadcastList p) = (contacts, Some err) ->
      Call c p recName = CallDecoded c (contacts, Some err) recName) /\
  (err <> ErrCorruptedContacts ->
   CallDecoded c (contacts, Some err) recName
   = ([], [Log "call error: %v" [AErr err]]) /\
   forall worlds i,
     runRoutine (fst (CallDecoded c (contacts, Some err) recName)) worlds i = []) /\
  (err = ErrCorruptedContacts ->
   snd (CallDecoded c (contacts, Some err) recName)
   = [Log "call: %v" [AErr ErrCorruptedContacts];
      Log "client: contacts decoded: %d" [AInt (len contacts)]] /\
   List.length (fst (CallDecoded c (contacts, Some err) recName))
   = List.length contacts /\
   forall worlds i,
     match nth_error contacts i with
     | Some contact =>
         callAttempt c (callTimeout contacts) recName contact (worlds i)
           (runRoutine (fst (CallDecoded c (contacts, Some err) recName)) worlds i)
     | None =>
         runRoutine (fst (CallDecoded c (contacts, Some err) recName)) worlds i = []
     end).
Proof.
  split; [|split].
  - intros p Hd. unfold Call. rewrite Hd. reflexivity.
  - intros Hne. rewrite (CallDecoded_aborts _ _ _ _ Hne).
    split; [reflexivity|].
    intros worlds i. unfold runRoutine. cbn [fst].
    destruct i; reflexivity.
  - intros ->. split; [reflexivity|].
    rewrite CallDecoded_proceeds by (right; reflexivity).
    split; [apply length_map|].
    intros worlds i.
    destruct (nth_error contacts i) as [contact|] eqn:Hi.
    + rewrite (runRoutine_nth _ _ _ _ _ _ Hi). apply callRoutine_is_attempt.
    + apply runRoutine_beyond. exact Hi.
Qed.

Lemma Call_on_decode_error_witness :
  CallDecoded sampleClient
    ([NewContact "123" "Alice"; NewContact "789" "Carol"],
     Some (errorString "local storage error: unable to open contacts file")) "ABC.mp3"
  = ([], [Log "call error: %v"
              [AErr (errorString "local storage error: unable to open contacts file")]]) /\
  snd (CallDecoded sampleClient
         ([NewContact "123" "Alice"; NewContact "789" "Carol"],
          Some ErrCorruptedContacts) "ABC.mp3")
  = [Log "call: %v" [AErr ErrCorruptedContacts];
     Log "client: contacts decoded: %d" [AInt 2]] /\
  List.length
    (fst (CallDecoded sampleClient
            ([NewContact "123" "Alice"; NewContact "789" "Carol"],
             Some ErrCorruptedContacts) "ABC.mp3")) = 2%nat /\
  runRoutine
    (fst (CallDecoded sampleClient
            ([NewContact "123" "Alice"; NewContact "789" "Carol"],
             Some ErrCorruptedContacts) "ABC.mp3"))
    (fun _ => worldAnswering (inl okResponse)) 1
  = [Log "calling %v, message: %v" [AStr "Carol"; AStr "ABC.mp3"];
     Waited CallLimiter (Some 2000000000);
     Sent {| Method := "POST"; URL := "https://api.nexmo.com/v1/calls";
             Header := [("Authorization", "Bearer signed.jwt.token");
                        ("Content-Type", "application/json")];
             Body := Some (JObject
               [("to", JArray [JObject [("type", JString "phone");
                                        ("number", JString "789")]]);
                ("from", JObject [("type", JString "phone");
                                  ("number", JString "390000000")]);
                ("answer_url",
                 JArray [JString "https://voicebr.example/play/recording/ABC.mp3"]);
                ("event_url",
                 JArray [JString "https://voicebr.example/play/recording/event"])]) |}] /\
  runRoutine
    (fst (CallDecoded sampleClient
            ([NewContact "123" "Alice"; NewContact "789" "Carol"],
             Some ErrCorruptedContacts) "ABC.mp3"))
    (fun _ => worldAnswering (inl okResponse)) 2 = [].
Proof.
  destruct (Call_on_decode_error sampleClient "ABC.mp3"
              [NewContact "123" "Alice"; NewContact "789" "Carol"]
              (errorString "local storage error: unable to open contacts file"))
    as (_ & Habort & _).
  destruct (Call_on_decode_error sampleClient "ABC.mp3"
              [NewContact "123" "Alice"; NewContact "789" "Carol"]
              ErrCorruptedContacts)
    as (_ & _ & Hpartial).
  destruct (Habort ltac:(discriminate)) as (Hstop & _).
  destruct (Hpartial eq_refl) as (Hlog & Hlen & Hrun).
  split; [exact Hstop|]. split; [exact Hlog|]. split; [exact Hlen|]. split.
  - pose proof (Hrun (fun _ => worldAnswering (inl okResponse)) 1%nat) as H1.
    cbn [nth_error] in H1.
    destruct H1 as (tail & Hr & _ & _ & _ & Hsend).
    destruct (Hsend "signed.jwt.token" _ eq_refl eq_refl eq_refl eq_refl)
      as (Hok & _ & _).
    rewrite (Hok okResponse eq_refl (or_introl eq_refl)) in Hr.
    exact Hr.
  - exact (Hrun (fun _ => worldAnswering (inl okResponse)) 2%nat).
Defined.

(** The two branches of [Call] after a failed decode, on instances: a
    reader error stops the broadcast, the partial error does not. *)
Example Call_stops_on_reader_error :
  Call sampleClient
    (sampleProvider ("123,Alice" ++ nl ++ "456" ++ nl, None) (EmptyString, None)) "ABC.mp3"
  = ([], [Log "call error: %v"
              [AErr (Errorf "decode contacts: "
                       (csvError (csv.ParseError 2 csv.ErrFieldCount)))]]).
Proof. vm_compute. reflexivity. Qed.

Example Call_goes_on_after_partial_error :
  Call sampleClient
    (sampleProvider ("123" ++ nl ++ "456" ++ nl, None) (EmptyString, None)) "ABC.mp3"
  = ([], [Log "call: %v" [AErr ErrCorruptedContacts];
          Log "client: contacts decoded: %d" [AInt 0]]).
Proof. vm_compute. reflexivity. Qed.

Example CallDecoded_partial_subset :
  List.length
    (fst (CallDecoded sampleClient
            ([NewContact "123" "Alice"; NewContact "789" "Carol"],
             Some ErrCorruptedContacts) "ABC.mp3")) = 2%nat.
Proof. reflexivity. Qed.

(** The only request a call goroutine sends is the POST that carries the
    payload of its own contact. *)
Lemma callRoutine_sends c contacts recName contact w req :
  In (Sent req) (callRoutine c contacts recName contact w) ->
  Method req = "POST" /\ URL req = "https://api.nexmo.com/v1/calls" /\
  Body req = Some (callPayload c contact recName).
Proof.
  rewrite callRoutine_events. intros [H|[H|H]]; [discriminate|discriminate|].
  destruct (limiterWait w CallLimiter (Some (callTimeout contacts))).
  - destruct H as [H|[]]; discriminate.
  - unfold Do in H.
    destruct (Token c w) as [token [terr|]].
    + destruct H as [H|[]]; discriminate.
    + destruct (newRequestError w "POST" "https://api.nexmo.com/v1/calls").
      * destruct H as [H|[]]; discriminate.
      * match type of H with
        | context [roundTrip w ?r] => destruct (roundTrip w r) as [resp|rerr]
        end.
        -- destruct (checkStatus resp).
           ++ destruct H as [H|[H|[]]]; [|discriminate].
              inversion H. repeat split.
           ++ destruct H as [H|[]]. inversion H. repeat split.
        -- destruct H as [H|[H|[]]]; [|discriminate].
           inversion H. repeat split.
Qed.

(** A goroutine reports a call error exactly when its own [call] failed,
    and as the last thing it does. *)
Lemma callRoutine_reports c contacts recName contact w :
  callRoutine c contacts recName contact w =
  (Log "calling %v, message: %v" [AStr (Name contact); AStr recName]
   :: snd (call c w (Some (callTimeout contacts)) contact recName)
   ++ match fst (call c w (Some (callTimeout contacts)) contact recName) with
      | Some e => [Log "call error: %v" [AErr e]]
      | None => []
      end)%list.
Proof.
  unfold callRoutine.
  destruct (call c w (Some (callTimeout contacts)) contact recName) as [[e|] evs]; simpl.
  - reflexivity.
  - rewrite app_nil_r. reflexivity.
Qed.

(** C2.  A broadcast over [N] decoded contacts starts exactly [N] call
    goroutines, the [i]-th for the [i]-th contact (so a contact listed
    twice is called twice).  Whatever the order in which they run and
    whatever the outside answers to each, every goroutine runs exactly
    once and what it does is the call attempt for its own contact under
    its own answers: it logs the call, waits on the call limiter and posts
    the call to its contact's number; when its attempt fails (the wait
    runs out, no token or request can be made, the round trip fails, the
    status is neither 200 nor 201) it logs that error itself as its last
    step.  What a goroutine does depends on no answer given to another:
    a failed attempt leaves every other attempt as it would have been. *)
Theorem Call_fans_out c p recName contacts err :
  DecodeContacts (ReadBroadcastList p) = (contacts, err) ->
  err = None \/ err = Some ErrCorruptedContacts ->
  List.length (fst (Call c p recName)) = List.length contacts /\
  (forall worlds schedule,
      Permutation schedule (seq 0 (List.length contacts)) ->
      map fst (runSchedule (fst (Call c p recName)) worlds schedule) = schedule /\
      (forall i contact,
          nth_error contacts i = Some contact ->
          exists report,
            In (i, report) (runSchedule (fst (Call c p recName)) worlds schedule) /\
            callAttempt c (callTimeout contacts) recName contact (worlds i) report) /\
      (forall i report,
          In (i, report) (runSchedule (fst (Call c p recName)) worlds schedule) ->
          exists contact,
            nth_error contacts i = Some contact /\
            callAttempt c (callTimeout contacts) recName contact (worlds i) report)) /\
  (forall worlds worlds' i,
      worlds i = worlds' i ->
      runRoutine (fst (Call c p recName)) worlds i
      = runRoutine (fst (Call c p recName)) worlds' i).
Proof.
  intros Hd Herr.
  assert (Hgs : fst (Call c p recName) = map (callRoutine c contacts recName) contacts).
  { unfold Call. rewrite Hd. apply CallDecoded_proceeds. exact Herr. }
  rewrite Hgs. split; [apply length_map|]. split.
  - intros worlds schedule Hperm. rewrite runSchedule_map. split; [|split].
    + rewrite map_map. cbn [fst]. apply map_id.
    + intros i contact Hi.
      exists (callRoutine c contacts recName contact (worlds i)). split.
      * apply in_map_iff. exists i. split.
        -- rewrite (runRoutine_nth _ _ _ _ _ _ Hi). reflexivity.
        -- apply (Permutation_in _ (Permutation_sym Hperm)).
           apply in_seq. split; [lia|]. simpl.
           apply nth_error_Some. congruence.
      * apply callRoutine_is_attempt.
    + intros i report Hin.
      apply in_map_iff in Hin. destruct Hin as (j & Hj & Hin).
      inversion Hj; subst j report. clear Hj.
      apply (Permutation_in _ Hperm) in Hin. apply in_seq in Hin.
      destruct (nth_error contacts i) as [contact|] eqn:Hi.
      * exists contact. split; [reflexivity|].
        rewrite (runRoutine_nth _ _ _ _ _ _ Hi). apply callRoutine_is_attempt.
      * exfalso. apply nth_error_None in Hi. lia.
  - intros worlds worlds' i Hw. unfold runRoutine.
    destruct (nth_error (map (callRoutine c contacts recName) contacts) i);
      [rewrite Hw|]; reflexivity.
Qed.

Lemma Call_fans_out_witness :
  List.length
    (fst (Call sampleClient
            (sampleProvider ("123,Alice" ++ nl ++ "456,Bob" ++ nl, None) (EmptyString, None))
            "ABC.mp3")) = 2%nat /\
  map fst
    (runSchedule
       (fst (Call sampleClient
               (sampleProvider ("123,Alice" ++ nl ++ "456,Bob" ++ nl, None)
                  (EmptyString, None)) "ABC.mp3"))
       twoWorlds [1%nat; 0%nat]) = [1%nat; 0%nat] /\
  In (0%nat,
      [Log "calling %v, message: %v" [AStr "Alice"; AStr "ABC.mp3"];
       Waited CallLimiter (Some 2000000000);
       Sent {| Method := "POST"; URL := "https://api.nexmo.com/v1/calls";
               Header := [("Authorization", "Bearer signed.jwt.token");
                          ("Content-Type", "application/json")];
               Body := Some (JObject
                 [("to", JArray [JObject [("type", JString "phone");
                                          ("number", JString "123")]]);
                  ("from", JObject [("type", JString "phone");
                                    ("number", JString "390000000")]);
                  ("answer_url",
                   JArray [JString "https://voicebr.example/play/recording/ABC.mp3"]);
                  ("event_url",
                   JArray [JString "https://voicebr.example/play/recording/event"])]) |};
       Log "call error: %v"
           [AErr (Errorf "unable to make call: "
                    (errorString "request failed: 404 Not Found"))]])
     (runSchedule
        (fst (Call sampleClient
                (sampleProvider ("123,Alice" ++ nl ++ "456,Bob" ++ nl, None)
                   (EmptyString, None)) "ABC.mp3"))
        twoWorlds [1%nat; 0%nat]) /\
  In (1%nat,
      [Log "calling %v, message: %v" [AStr "Bob"; AStr "ABC.mp3"];
       Waited CallLimiter (Some 2000000000);
       Sent {| Method := "POST"; URL := "https://api.nexmo.com/v1/calls";
               Header := [("Authorization", "Bearer signed.jwt.token");
                          ("Content-Type", "application/json")];
               Body := Some (JObject
                 [("to", JArray [JObject [("type", JString "phone");
                                          ("number", JString "456")]]);
                  ("from", JObject [("type", JString "phone");
                                    ("number", JString "390000000")]);
                  ("answer_url",
                   JArray [JString "https://voicebr.example/play/recording/ABC.mp3"]);
                  ("event_url",
                   JArray [JString "https://voicebr.example/play/recording/event"])]) |}])
     (runSchedule
        (fst (Call sampleClient
                (sampleProvider ("123,Alice" ++ nl ++ "456,Bob" ++ nl, None)
                   (EmptyString, None)) "ABC.mp3"))
        twoWorlds [1%nat; 0%nat]).
Proof.
  destruct (Call_fans_out sampleClient
              (sampleProvider ("123,Alice" ++ nl ++ "456,Bob" ++ nl, None) (EmptyString, None))
              "ABC.mp3" [NewContact "123" "Alice"; NewContact "456" "Bob"] None
              eq_refl (or_introl eq_refl)) as (Hlen & Hrun & _).
  destruct (Hrun twoWorlds [1%nat; 0%nat] (perm_swap _ _ _)) as (Hidx & Hall & _).
  split; [exact Hlen|]. split; [exact Hidx|]. split.
  - destruct (Hall 0%nat (NewContact "123" "Alice") eq_refl)
      as (report & Hin & tail & Hr & _ & _ & _ & Hsend).
    destruct (Hsend "signed.jwt.token" _ eq_refl eq_refl eq_refl eq_refl)
      as (_ & Hbad & _).
    rewrite (Hbad notFoundResponse eq_refl ltac:(discriminate) ltac:(discriminate)) in Hr.
    rewrite Hr in Hin. exact Hin.
  - destruct (Hall 1%nat (NewContact "456" "Bob") eq_refl)
      as (report & Hin & tail & Hr & _ & _ & _ & Hsend).
    destruct (Hsend "signed.jwt.token" _ eq_refl eq_refl eq_refl eq_refl)
      as (Hok & _ & _).
    rewrite (Hok okResponse eq_refl (or_introl eq_refl)) in Hr.
    rewrite Hr in Hin. exact Hin.
Defined.

(** The same broadcast run: the platform refuses Alice's call, whose
    goroutine logs the error; Bob's call, run first, is sent all the
    same. *)
Example broadcast_with_one_refusal :
  map (fun r => (fst r, List.length (snd r),
                 existsb (fun ev => match ev with Sent _ => true | _ => false end) (snd r),
                 last (snd r) (Log EmptyString [])))
      (runSchedule
         (fst (Call sampleClient
                 (sampleProvider ("123,Alice" ++ nl ++ "456,Bob" ++ nl, None)
                    (EmptyString, None)) "ABC.mp3"))
         twoWorlds [1%nat; 0%nat])
  = [(1%nat, 3%nat, true,
      Sent {| Method := "POST"; URL := "https://api.nexmo.com/v1/calls";
              Header := [("Authorization", "Bearer signed.jwt.token");
                         ("Content-Type", "application/json")];
              Body := Some (callPayload sampleClient (NewContact "456" "Bob") "ABC.mp3") |});
     (0%nat, 4%nat, true,
      Log "call error: %v"
          [AErr (Errorf "unable to make call: "
                   (errorString "request failed: 404 Not Found"))])].
Proof. vm_compute. reflexivity. Qed.

(** ** The answer handler *)

Lemma findCaller_some from whitelist :
  forall caller,
    (caller <> None \/ In from (map Number whitelist)) ->
    exists v, findCaller from whitelist caller = Some v.
Proof.
  induction whitelist as [|v rest IH]; intros caller H; simpl.
  - destruct H as [H|[]]. destruct caller; [eexists; reflexivity|congruence].
  - destruct (String.eqb (Number v) from) eqn:E.
    + apply IH. left. discriminate.
    + apply IH. destruct H as [H|[H|H]]; [left; exact H| |right; exact H].
      apply String.eqb_neq in E. contradiction.
Qed.

Lemma findCaller_none from whitelist :
  ~ In from (map Number whitelist) -> findCaller from whitelist None = None.
Proof.
  induction whitelist as [|v rest IH]; intros H; simpl; [reflexivity|].
  destruct (String.eqb (Number v) from) eqn:E.
  - apply String.eqb_eq in E. exfalso. apply H. left. exact E.
  - apply IH. intros Hin. apply H. right. exact Hin.
Qed.

(** The caller found is the last whitelist entry with that number. *)
Lemma findCaller_number from whitelist :
  forall caller v,
    findCaller from whitelist caller = Some v ->
    caller = Some v \/ (In v whitelist /\ Number v = from).
Proof.
  induction whitelist as [|x rest IH]; intros caller v H; simpl in H.
  - left. exact H.
  - destruct (String.eqb (Number x) from) eqn:E.
    + apply String.eqb_eq in E.
      destruct (IH _ _ H) as [Hc|[Hin Hn]].
      * inversion Hc; subst. right. split; [left; reflexivity|reflexivity].
      * right. split; [right; exact Hin|exact Hn].
    + destruct (IH _ _ H) as [Hc|[Hin Hn]]; [left; exact Hc|].
      right. split; [right; exact Hin|exact Hn].
Qed.

(** The response of the answer handler once the caller and the whitelist
    are known. *)
Lemma answer_authorized (s : Storage) origin r from whitelist :
  CallerFromRequest r = (from, None) ->
  DecodeContacts (ReadWhitelist s) = (whitelist, None) ->
  In from (map Number whitelist) ->
  exists caller,
    In caller whitelist /\ Number caller = from /\
    fst (makeRecordAnswerHandler s origin r) =
    {| wHeader := [("content-type", "application/json")];
       wStatus := Some 200;
       wBody := [JSONDoc (JArray
                   [JObject [("action", JString "talk"); ("level", JNumber (1 # 2));
                             ("text", JString ("Parla pure" ++ Name caller));
                             ("voiceName", JString "Carla")];
                    JObject [("action", JString "record"); ("beepStart", JBool true);
                             ("endOnKey", JString "#");
                             ("eventUrl",
                              JArray [JString (origin ++ "/store/recording/event")]);
                             ("format", JString "mp3")]])] |}.
Proof.
  intros Hc Hd Hin. unfold makeRecordAnswerHandler. rewrite Hc, Hd.
  destruct (findCaller_some from whitelist None (or_intror Hin)) as (v & Hv).
  rewrite Hv. exists v.
  destruct (findCaller_number _ _ _ _ Hv) as [Hn|[Hvin Hvn]]; [discriminate|].
  split; [exact Hvin|]. split; [exact Hvn|]. reflexivity.
Qed.

Lemma answer_unauthorized (s : Storage) origin r from whitelist :
  CallerFromRequest r = (from, None) ->
  DecodeContacts (ReadWhitelist s) = (whitelist, None) ->
  ~ In from (map Number whitelist) ->
  fst (makeRecordAnswerHandler s origin r) =
  {| wHeader := []; wStatus := Some 401; wBody := [] |}.
Proof.
  intros Hc Hd Hin. unfold makeRecordAnswerHandler. rewrite Hc, Hd.
  rewrite (findCaller_none _ _ Hin). reflexivity.
Qed.

(** Without a caller the handler answers 401; with a whitelist that does
    not decode, the partial error included, it answers 500.  Neither
    response has a body. *)
Lemma answer_without_caller (s : Storage) origin r from err :
  CallerFromRequest r = (from, Some err) ->
  fst (makeRecordAnswerHandler s origin r)
  = {| wHeader := []; wStatus := Some 401; wBody := [] |}.
Proof.
  intros Hc. unfold makeRecordAnswerHandler. rewrite Hc. reflexivity.
Qed.

Lemma answer_whitelist_error (s : Storage) origin r from whitelist err :
  CallerFromRequest r = (from, None) ->
  DecodeContacts (ReadWhitelist s) = (whitelist, Some err) ->
  fst (makeRecordAnswerHandler s origin r)
  = {| wHeader := []; wStatus := Some 500; wBody := [] |}.
Proof.
  intros Hc Hd. unfold makeRecordAnswerHandler. rewrite Hc, Hd. reflexivity.
Qed.

(** C3.  With the caller number [X] extracted from the request and the
    whitelist decoded: if [X] is the number of a whitelist entry the
    handler answers 200 with one JSON array of exactly two objects, a
    talk action followed by a record action; if it is the number of none,
    the handler answers 401 and writes no body. *)
Theorem answer_handler_whitelist (s : Storage) origin r X whitelist :
  CallerFromRequest r = (X, None) ->
  DecodeContacts (ReadWhitelist s) = (whitelist, None) ->
  (In X (map Number whitelist) ->
   statusSent (fst (makeRecordAnswerHandler s origin r)) = 200 /\
   exists talk record,
     wBody (fst (makeRecordAnswerHandler s origin r)) = [JSONDoc (JArray [talk; record])] /\
     Json.get "action" talk = Some (JString "talk") /\
     Json.get "action" record = Some (JString "record")) /\
  (~ In X (map Number whitelist) ->
   statusSent (fst (makeRecordAnswerHandler s origin r)) = 401 /\
   wBody (fst (makeRecordAnswerHandler s origin r)) = []).
Proof.
  intros Hc Hd. split; intros Hin.
  - destruct (answer_authorized s origin r X whitelist Hc Hd Hin) as (caller & _ & _ & Hw).
    rewrite Hw. split; [reflexivity|].
    eexists. eexists. split; [reflexivity|]. split; reflexivity.
  - rewrite (answer_unauthorized s origin r X whitelist Hc Hd Hin).
    split; reflexivity.
Qed.

Lemma answer_handler_whitelist_witness :
  statusSent
    (fst (makeRecordAnswerHandler
            (sampleStorage (EmptyString, None) ("390111,Anna" ++ nl ++ "390222,Bea" ++ nl, None))
            "https://voicebr.example"
            {| reqMethod := "GET"; reqQuery := [("from", ["390111"])];
               reqBody := inr (errorString "EOF") |})) = 200 /\
  statusSent
    (fst (makeRecordAnswerHandler
            (sampleStorage (EmptyString, None) ("390111,Anna" ++ nl ++ "390222,Bea" ++ nl, None))
            "https://voicebr.example"
            {| reqMethod := "GET"; reqQuery := [("from", ["390333"])];
               reqBody := inr (errorString "EOF") |})) = 401.
Proof.
  split.
  - apply (answer_handler_whitelist
             (sampleStorage (EmptyString, None)
                ("390111,Anna" ++ nl ++ "390222,Bea" ++ nl, None))
             "https://voicebr.example"
             {| reqMethod := "GET"; reqQuery := [("from", ["390111"])];
                reqBody := inr (errorString "EOF") |}
             "390111" [NewContact "390111" "Anna"; NewContact "390222" "Bea"]
             eq_refl eq_refl).
    left. reflexivity.
  - apply (answer_handler_whitelist
             (sampleStorage (EmptyString, None)
                ("390111,Anna" ++ nl ++ "390222,Bea" ++ nl, None))
             "https://voicebr.example"
             {| reqMethod := "GET"; reqQuery := [("from", ["390333"])];
                reqBody := inr (errorString "EOF") |}
             "390333" [NewContact "390111" "Anna"; NewContact "390222" "Bea"]
             eq_refl eq_refl).
    simpl. intros [H|[H|[]]]; discriminate.
Defined.

(** ** Caller extraction from a body without the field *)

Lemma equalFold_from_refl : Json.equalFold "from" "from" = true.
Proof. reflexivity. Qed.

Lemma findField_lacking k :
  Json.equalFold "from" k = false -> Json.findField ["from"] k = None.
Proof.
  intros H. unfold Json.findField. cbn [find].
  destruct (String.eqb k "from") eqn:E.
  - apply String.eqb_eq in E. subst k. rewrite equalFold_from_refl in H. discriminate.
  - rewrite H. reflexivity.
Qed.

Lemma assign_lacking members :
  forall st saved,
    lacksField "from" members = true ->
    Json.assign ["from"] members st saved = (st, saved).
Proof.
  induction members as [|[k v] rest IH]; intros st saved H; simpl; [reflexivity|].
  simpl in H. apply andb_true_iff in H. destruct H as [Hk Hrest].
  apply negb_true_iff in Hk. rewrite (findField_lacking _ Hk).
  apply IH. exact Hrest.
Qed.

Lemma callerFromRequestBody_lacking members :
  lacksField "from" members = true ->
  callerFromRequestBody (inl (JObject members)) = (EmptyString, None).
Proof.
  intros H. unfold callerFromRequestBody, Decode, Json.decodeStruct.
  rewrite (assign_lacking _ _ _ H). reflexivity.
Qed.

(** C10.  A POST answer request whose body is a JSON object without a
    [from] member yields the empty caller number and no error.  The
    handler then goes on to the whitelist: it answers 401 when no entry
    has the empty number, and 200, as for any authorized caller, when
    one has. *)
Theorem caller_missing_from_is_empty (s : Storage) origin r members :
  reqMethod r = "POST" ->
  reqBody r = inl (JObject members) ->
  lacksField "from" members = true ->
  CallerFromRequest r = (EmptyString, None) /\
  forall whitelist,
    DecodeContacts (ReadWhitelist s) = (whitelist, None) ->
    (~ In EmptyString (map Number whitelist) ->
     statusSent (fst (makeRecordAnswerHandler s origin r)) = 401 /\
     wBody (fst (makeRecordAnswerHandler s origin r)) = []) /\
    (In EmptyString (map Number whitelist) ->
     statusSent (fst (makeRecordAnswerHandler s origin r)) = 200 /\
     exists talk record,
       wBody (fst (makeRecordAnswerHandler s origin r))
       = [JSONDoc (JArray [talk; record])]).
Proof.
  intros Hm Hb Hl.
  assert (Hc : CallerFromRequest r = (EmptyString, None)).
  { unfold CallerFromRequest. rewrite Hm, Hb. simpl.
    apply callerFromRequestBody_lacking. exact Hl. }
  split; [exact Hc|]. intros whitelist Hd. split; intros Hin.
  - rewrite (answer_unauthorized s origin r _ whitelist Hc Hd Hin). split; reflexivity.
  - destruct (answer_authorized s origin r _ whitelist Hc Hd Hin) as (caller & _ & _ & Hw).
    rewrite Hw. split; [reflexivity|]. eexists. eexists. reflexivity.
Qed.

(** A whitelist row with an empty number field, [",Bob"], lets the
    request without a caller through. *)
Lemma caller_missing_from_is_empty_witness :
  CallerFromRequest
    {| reqMethod := "POST"; reqQuery := [];
       reqBody := inl (JObject [("to", JString "390000000"); ("uuid", JString "c0ffee")]) |}
  = (EmptyString, None) /\
  DecodeContacts ("390111,Anna" ++ nl ++ ",Bob" ++ nl, None)
  = ([NewContact "390111" "Anna"; NewContact EmptyString "Bob"], None) /\
  statusSent
    (fst (makeRecordAnswerHandler
            (sampleStorage (EmptyString, None) ("390111,Anna" ++ nl ++ ",Bob" ++ nl, None))
            "https://voicebr.example"
            {| reqMethod := "POST"; reqQuery := [];
               reqBody := inl (JObject [("to", JString "390000000");
                                        ("uuid", JString "c0ffee")]) |})) = 200.
Proof.
  destruct (caller_missing_from_is_empty
              (sampleStorage (EmptyString, None)
                 ("390111,Anna" ++ nl ++ ",Bob" ++ nl, None))
              "https://voicebr.example"
              {| reqMethod := "POST"; reqQuery := [];
                 reqBody := inl (JObject [("to", JString "390000000");
                                          ("uuid", JString "c0ffee")]) |}
              [("to", JString "390000000"); ("uuid", JString "c0ffee")]
              eq_refl eq_refl eq_refl) as [Hc Hw].
  split; [exact Hc|]. split; [vm_compute; reflexivity|].
  apply (Hw [NewContact "390111" "Anna"; NewContact EmptyString "Bob"] eq_refl).
  right. left. reflexivity.
Defined.

(** ** The recording-stored handler *)

Lemma Do_events_no_write c w method url body name data :
  ~ In (Wrote name data) (snd (Do c w method url body)).
Proof.
  unfold Do.
  destruct (Token c w) as [token [terr|]]; [simpl; tauto|].
  destruct (newRequestError w method url); [simpl; tauto|].
  match goal with
  | |- ~ In _ (snd match roundTrip w ?r with _ => _ end) =>
      destruct (roundTrip w r); simpl; intros [H|[]]; discriminate
  end.
Qed.

Lemma Get_events_no_write c w ctx url name data :
  ~ In (Wrote name data) (snd (Get c w ctx url)).
Proof.
  unfold Get.
  destruct (limiterWait w GetLimiter ctx).
  - simpl. intros [H|[]]. discriminate.
  - pose proof (Do_events_no_write c w "GET" url None name data) as Hn.
    destruct (Do c w "GET" url None) as [[r e] evs]. simpl in *.
    intros [H|H]; [discriminate|contradiction].
Qed.

Lemma CallDecoded_events_no_write c decoded recName name data :
  ~ In (Wrote name data) (snd (CallDecoded c decoded recName)).
Proof.
  destruct decoded as [contacts [e|]]; unfold CallDecoded.
  - destruct (isErrCorruptedContacts e); simpl.
    + intros [H|[H|[]]]; discriminate.
    + intros [H|[]]. discriminate.
  - simpl. intros [H|[]]. discriminate.
Qed.

(** C6.  When the body of a recording-stored webhook decodes with
    recording_uuid [U], every file the handler writes is named [U]
    followed by [.mp3]; once the download has succeeded the recording is
    written under that name, and once it is stored the broadcast the
    handler starts is the broadcast of that name. *)
Theorem recording_name (s : Storage) c world r content U :
  reqMethod r = "POST" ->
  Decode (reqBody r) ["recording_url"; "recording_uuid"] = (content, None) ->
  Json.field "recording_uuid" content = U ->
  (forall name data,
      In (Wrote name data) (events (makeStoreRecordingEventHandler s c world r)) ->
      name = U ++ ".mp3") /\
  (forall resp evs,
      Get c world None (Json.field "recording_url" content) = (Some resp, None, evs) ->
      In (Wrote (U ++ ".mp3") (RespBody resp))
         (events (makeStoreRecordingEventHandler s c world r)) /\
      (snd (WriteRec s (RespBody resp) (U ++ ".mp3")) = None ->
       started (makeStoreRecordingEventHandler s c world r)
       = fst (Call c s (U ++ ".mp3")))).
Proof.
  intros Hm Hd HU. unfold makeStoreRecordingEventHandler.
  rewrite Hm, Hd, HU. simpl negb. cbv iota.
  pose proof (fun n d => Get_events_no_write c world None
                           (Json.field "recording_url" content) n d) as Hnw.
  destruct (Get c world None (Json.field "recording_url" content)) as [[resp err] gevs].
  simpl in Hnw. unfold recFormat. change ("." ++ "mp3") with ".mp3".
  split.
  - intros name data Hin.
    destruct resp as [resp|]; destruct err as [e|];
      try (simpl in Hin; apply in_app_or in Hin;
           destruct Hin as [Hin|[Hin|[]]];
           [exfalso; eapply Hnw; exact Hin|discriminate]);
      try (exfalso; eapply Hnw; exact Hin).
    destruct (WriteRec s (RespBody resp) (U ++ ".mp3")) as [path [werr|]].
    + simpl in Hin. apply in_app_or in Hin.
      destruct Hin as [Hin|[Hin|[Hin|[]]]];
        [exfalso; eapply Hnw; exact Hin|inversion Hin; reflexivity|discriminate].
    + pose proof (fun n d => CallDecoded_events_no_write c
                      (DecodeContacts (ReadBroadcastList s)) (U ++ ".mp3") n d) as Hcw.
      unfold Call in Hin.
      destruct (CallDecoded c (DecodeContacts (ReadBroadcastList s)) (U ++ ".mp3"))
        as [gs cevs].
      simpl in Hin, Hcw. apply in_app_or in Hin.
      destruct Hin as [Hin|[Hin|Hin]];
        [exfalso; eapply Hnw; exact Hin|inversion Hin; reflexivity
        |exfalso; eapply Hcw; exact Hin].
  - intros resp' evs' Hg. inversion Hg; subst resp err gevs.
    destruct (WriteRec s (RespBody resp') (U ++ ".mp3")) as [path [werr|]] eqn:Ew.
    + split; [|simpl; discriminate].
      simpl. apply in_or_app. right. left. reflexivity.
    + split.
      * destruct (Call c s (U ++ ".mp3")) as [gs cevs]. simpl.
        apply in_or_app. right. left. reflexivity.
      * intros _. destruct (Call c s (U ++ ".mp3")) as [gs cevs]. reflexivity.
Qed.

Lemma recording_name_witness :
  In (Wrote "ABC.mp3" "ID3-audio-bytes")
     (events (makeStoreRecordingEventHandler
                (sampleStorage ("123,Alice" ++ nl, None) (EmptyString, None))
                sampleClient (worldAnswering (inl okResponse))
                {| reqMethod := "POST"; reqQuery := [];
                   reqBody := inl (JObject
                     [("recording_url", JString "https://api.nexmo.com/v1/files/abc");
                      ("recording_uuid", JString "ABC")]) |})).
Proof.
  destruct (recording_name
              (sampleStorage ("123,Alice" ++ nl, None) (EmptyString, None))
              sampleClient (worldAnswering (inl okResponse))
              {| reqMethod := "POST"; reqQuery := [];
                 reqBody := inl (JObject
                   [("recording_url", JString "https://api.nexmo.com/v1/files/abc");
                    ("recording_uuid", JString "ABC")]) |}
              [("recording_url", "https://api.nexmo.com/v1/files/abc");
               ("recording_uuid", "ABC")]
              "ABC" eq_refl eq_refl eq_refl) as [_ Hw].
  apply (Hw okResponse
            [Waited GetLimiter None;
             Sent {| Method := "GET"; URL := "https://api.nexmo.com/v1/files/abc";
                     Header := [("Authorization", "Bearer signed.jwt.token")];
                     Body := None |}]).
  reflexivity.
Defined.

(** ** Writing a directory and reading it back *)

Lemma append_nil_r s : s ++ EmptyString = s.
Proof. induction s as [|c s IH]; simpl; [reflexivity|rewrite IH; reflexivity]. Qed.

Lemma append_assoc s t u : (s ++ t) ++ u = s ++ t ++ u.
Proof. induction s as [|c s IH]; simpl; [reflexivity|rewrite IH; reflexivity]. Qed.

Ltac split_plain H :=
  simpl in H;
  repeat match type of H with
         | _ && _ = true => let H' := fresh "Hc" in
                            apply andb_true_iff in H; destruct H as [H H']
         end;
  repeat match goal with
         | Hn : negb _ = true |- _ => apply negb_true_iff in Hn
         end.

Lemma splitLines_plain l :
  forall tail,
    plain l = true ->
    csv.splitLines (l ++ tail) =
    match csv.splitLines tail with
    | [] => match l with EmptyString => [] | _ => [l] end
    | x :: xs => (l ++ x) :: xs
    end.
Proof.
  induction l as [|c l IH]; intros tail Hp.
  - simpl. destruct (csv.splitLines tail); reflexivity.
  - split_plain Hp. cbn [append csv.splitLines]. rewrite Hc0.
    rewrite (IH tail Hc).
    destruct (csv.splitLines tail); [destruct l|]; reflexivity.
Qed.

Lemma splitLines_row e rest :
  plainEntry e = true ->
  csv.splitLines (renderRow e ++ rest) = renderRow e :: csv.splitLines rest.
Proof.
  intros He. unfold plainEntry in He.
  apply andb_true_iff in He. destruct He as [He _].
  apply andb_true_iff in He. destruct He as [Hn Hm].
  unfold renderRow. rewrite !append_assoc.
  change (fst e ++ "," ++ snd e ++ nl ++ rest)
    with (fst e ++ String ","%char (snd e ++ String LF rest)).
  change (fst e ++ "," ++ snd e ++ nl)
    with (fst e ++ String ","%char (snd e ++ String LF EmptyString)).
  rewrite (splitLines_plain _ _ Hn).
  cbn [csv.splitLines]. change (Ascii.eqb "," LF) with false. cbv iota.
  rewrite (splitLines_plain _ _ Hm).
  cbn [csv.splitLines]. rewrite Ascii.eqb_refl. reflexivity.
Qed.

Lemma normalizeLine_plain l :
  forall tail,
    plain l = true ->
    csv.normalizeLine (l ++ tail) = l ++ csv.normalizeLine tail.
Proof.
  induction l as [|c l IH]; intros tail Hp; [reflexivity|].
  split_plain Hp. cbn [append csv.normalizeLine]. rewrite Hc1.
  rewrite (IH tail Hc). reflexivity.
Qed.

Lemma normalizeLine_row e :
  plainEntry e = true -> csv.normalizeLine (renderRow e) = renderRow e.
Proof.
  intros He. unfold plainEntry in He.
  apply andb_true_iff in He. destruct He as [He _].
  apply andb_true_iff in He. destruct He as [Hn Hm].
  unfold renderRow.
  change (fst e ++ "," ++ snd e ++ nl)
    with (fst e ++ String ","%char (snd e ++ String LF EmptyString)).
  rewrite (normalizeLine_plain _ _ Hn).
  cbn [csv.normalizeLine]. change (Ascii.eqb "," CR) with false. cbv iota.
  rewrite (normalizeLine_plain _ _ Hm). reflexivity.
Qed.

Lemma readLines_directory entries :
  Forall (fun e => plainEntry e = true) entries ->
  csv.readLines (renderDirectory entries) = map renderRow entries.
Proof.
  unfold csv.readLines.
  induction 1 as [|e rest He Hrest IH]; [reflexivity|].
  simpl renderDirectory. rewrite (splitLines_row _ _ He).
  simpl. rewrite IH, (normalizeLine_row _ He). reflexivity.
Qed.

Lemma scanLine_plain_unquoted f :
  forall buf fields d rest,
    plain f = true ->
    csv.scanLine "," (csv.Unquoted buf) fields (f ++ String d rest)
    = csv.scanLine "," (csv.Unquoted (buf ++ f)) fields (String d rest).
Proof.
  induction f as [|c f IH]; intros buf fields d rest Hp.
  - rewrite append_nil_r. reflexivity.
  - split_plain Hp. cbn [append csv.scanLine]. rewrite Hp, Hc2, Hc0. cbn [andb].
    rewrite (IH _ _ _ _ Hc). rewrite append_assoc. reflexivity.
Qed.

Lemma scanLine_plain_start f :
  forall fields d rest,
    plain f = true ->
    Ascii.eqb d QUOTE = false ->
    csv.scanLine "," csv.FieldStart fields (f ++ String d rest)
    = csv.scanLine "," (csv.Unquoted f) fields (String d rest).
Proof.
  intros fields d rest Hp Hd. destruct f as [|c f].
  - cbn [append csv.scanLine]. rewrite Hd. reflexivity.
  - split_plain Hp. cbn [append csv.scanLine]. rewrite Hp, Hc2, Hc0. cbn [andb].
    rewrite (scanLine_plain_unquoted _ _ _ _ _ Hc). reflexivity.
Qed.

Lemma scanLine_row e :
  plainEntry e = true ->
  csv.scanLine "," csv.FieldStart [] (renderRow e) = csv.RecordDone [fst e; snd e].
Proof.
  intros He. unfold plainEntry in He.
  apply andb_true_iff in He. destruct He as [He _].
  apply andb_true_iff in He. destruct He as [Hn Hm].
  unfold renderRow.
  change (fst e ++ "," ++ snd e ++ nl)
    with (fst e ++ String ","%char (snd e ++ String LF EmptyString)).
  rewrite (scanLine_plain_start (fst e) [] ","%char _ Hn eq_refl).
  cbn [csv.scanLine]. rewrite Ascii.eqb_refl.
  rewrite (scanLine_plain_start (snd e) _ LF EmptyString Hm eq_refl).
  reflexivity.
Qed.

Lemma row_is_data e :
  plainEntry e = true ->
  csv.isComment "#" (renderRow e) = false /\ csv.onlyNL (renderRow e) = false.
Proof.
  intros He. unfold plainEntry in He.
  apply andb_true_iff in He. destruct He as [_ Hh].
  apply negb_true_iff in Hh.
  destruct e as [num name]. unfold renderRow. simpl fst in *. simpl snd.
  destruct num as [|c num].
  - split; [reflexivity|]. destruct name; reflexivity.
  - simpl in Hh. split.
    + unfold csv.isComment. cbn [append]. rewrite Hh. reflexivity.
    + cbn [append csv.onlyNL]. destruct num; reflexivity.
Qed.

Lemma lexFrom_directory entries :
  forall numLine,
    Forall (fun e => plainEntry e = true) entries ->
    csv.lexFrom "," "#" None (map renderRow entries) numLine
    = (rawRows numLine entries, None).
Proof.
  induction entries as [|e rest IH]; intros numLine Hall; [reflexivity|].
  inversion Hall as [|? ? He Hrest]; subst.
  destruct (row_is_data _ He) as [Hc Ho].
  cbn [map csv.lexFrom rawRows]. rewrite Hc, Ho, (scanLine_row _ He).
  rewrite (IH _ Hrest). reflexivity.
Qed.

Lemma rawRows_fields entries :
  forall numLine,
    map csv.recFields (rawRows numLine entries) = map (fun e => [fst e; snd e]) entries.
Proof.
  induction entries as [|e rest IH]; intros numLine; simpl; [reflexivity|].
  rewrite IH. reflexivity.
Qed.

Lemma directoryRows_rendered entries :
  Forall (fun e => plainEntry e = true) entries ->
  directoryRows (renderDirectory entries) = inl (map (fun e => [fst e; snd e]) entries).
Proof.
  intros Hall.
  destruct (decoder_reads (renderDirectory entries)) as (recs & lexErr & Hlex & _ & Hr & _).
  rewrite (readLines_directory _ Hall), (lexFrom_directory _ _ Hall) in Hlex.
  inversion Hlex; subst. rewrite Hr, rawRows_fields. reflexivity.
Qed.

(** A directory written one plain [number,name] line per entry decodes to
    the contacts of its entries, in order, without error. *)
Lemma DecodeContacts_rendered entries :
  Forall (fun e => plainEntry e = true) entries ->
  DecodeContacts (renderDirectory entries, None)
  = (map (fun e => NewContact (fst e) (snd e)) entries, None).
Proof.
  intros Hall.
  rewrite (DecodeContacts_uniform _ _ 2 (directoryRows_rendered _ Hall)).
  - rewrite map_map. reflexivity.
  - lia.
  - apply Forall_map. apply Forall_forall. intros; reflexivity.
Qed.

(** ** A contact on the wire and in the directory *)

(** C8.  The encoding of a contact has the members [type] and [number]
    and no other, holding the contact's kind and number.  The payload
    that [call] builds for a contact carries it under [to] as exactly
    that object, kind and number and no name, next to the sender and the
    two callback URLs; every request [call] sends for the contact has
    this payload as its body, and [call] does send it once the limiter
    grants and a token and a request can be made.  So the payload does not
    depend on the contact's name.  A directory whose only row carries the
    contact's number and name decodes to one contact with that number,
    that name and the kind phone, so that encoding the decoded contact
    gives back the same number and the kind phone; when the contact's kind
    is phone, the decoded contact is the contact itself. *)
Theorem contact_wire_round_trip (c : Contact) :
  Json.keys (encodeContact c) = ["type"; "number"] /\
  Json.get "type" (encodeContact c) = Some (JString (Type_ c)) /\
  Json.get "number" (encodeContact c) = Some (JString (Number c)) /\
  (forall c' cl recName,
      Type_ c' = Type_ c -> Number c' = Number c ->
      callPayload cl c' recName = callPayload cl c recName) /\
  (forall data,
      directoryRows data = inl [[Number c; Name c]] ->
      exists c',
        DecodeContacts (data, None) = ([c'], None) /\
        Number c' = Number c /\ Name c' = Name c /\ Type_ c' = "phone" /\
        Json.get "number" (encodeContact c') = Json.get "number" (encodeContact c) /\
        Json.get "type" (encodeContact c') = Some (JString "phone") /\
        (Type_ c = "phone" -> c' = c)) /\
  (plain (Number c) = true -> plain (Name c) = true ->
   startsWith "#" (Number c) = false ->
   directoryRows (Number c ++ "," ++ Name c ++ nl) = inl [[Number c; Name c]]) /\
  (forall cl recName,
      callPayload cl c recName
      = JObject
          [("to", JArray [JObject [("type", JString (Type_ c));
                                   ("number", JString (Number c))]]);
           ("from", JObject [("type", JString "phone");
                             ("number", JString (Number_ cl))]);
           ("answer_url", JArray [JString (Origin cl ++ "/play/recording/" ++ recName)]);
           ("event_url", JArray [JString (Origin cl ++ "/play/recording/event")])]) /\
  (forall cl w ctx recName req,
      In (Sent req) (snd (call cl w ctx c recName)) ->
      Method req = "POST" /\ URL req = "https://api.nexmo.com/v1/calls" /\
      Body req
      = Some (JObject
          [("to", JArray [JObject [("type", JString (Type_ c));
                                   ("number", JString (Number c))]]);
           ("from", JObject [("type", JString "phone");
                             ("number", JString (Number_ cl))]);
           ("answer_url", JArray [JString (Origin cl ++ "/play/recording/" ++ recName)]);
           ("event_url", JArray [JString (Origin cl ++ "/play/recording/event")])])) /\
  (forall cl w ctx recName token,
      limiterWait w CallLimiter ctx = None ->
      Token cl w = (token, None) ->
      newRequestError w "POST" "https://api.nexmo.com/v1/calls" = None ->
      In (Sent {| Method := "POST"; URL := "https://api.nexmo.com/v1/calls";
                  Header := [("Authorization", "Bearer " ++ token);
                             ("Content-Type", "application/json")];
                  Body := Some (JObject
                    [("to", JArray [JObject [("type", JString (Type_ c));
                                             ("number", JString (Number c))]]);
                     ("from", JObject [("type", JString "phone");
                                       ("number", JString (Number_ cl))]);
                     ("answer_url",
                      JArray [JString (Origin cl ++ "/play/recording/" ++ recName)]);
                     ("event_url",
                      JArray [JString (Origin cl ++ "/play/recording/event")])]) |})
         (snd (call cl w ctx c recName))).
Proof.
  split; [reflexivity|]. split; [reflexivity|]. split; [reflexivity|].
  split; [|split; [|split; [|split; [|split]]]].
  - intros c' cl recName Ht Hn. unfold callPayload, encodeContact. simpl.
    rewrite Ht, Hn. reflexivity.
  - intros data Hrows. exists (NewContact (Number c) (Name c)).
    split.
    + apply (DecodeContacts_uniform data _ 2 Hrows); [lia|repeat constructor].
    + repeat split. intros Ht. destruct c as [n t m]. simpl in *. subst t. reflexivity.
  - intros Hn Hm Hh.
    pose proof (directoryRows_rendered [(Number c, Name c)]) as H.
    simpl in H. rewrite append_nil_r in H. apply H.
    constructor; [|constructor]. unfold plainEntry. simpl.
    rewrite Hn, Hm, Hh. reflexivity.
  - intros cl recName. reflexivity.
  - intros cl w ctx recName req. rewrite call_steps.
    destruct (limiterWait w CallLimiter ctx).
    { intros [H|[]]; discriminate. }
    destruct (Token cl w) as [token [terr|]].
    { intros [H|[]]; discriminate. }
    destruct (newRequestError w "POST" "https://api.nexmo.com/v1/calls").
    { intros [H|[]]; discriminate. }
    cbv zeta.
    match goal with
    | |- context [roundTrip w ?r] => destruct (roundTrip w r) as [resp|rerr]
    end; cbn [snd]; (intros [H|[H|[]]]; [discriminate|]);
      inversion H; repeat split.
  - intros cl w ctx recName token Hl Ht Hn. rewrite call_steps, Hl, Ht, Hn.
    cbv zeta.
    match goal with
    | |- context [roundTrip w ?r] => destruct (roundTrip w r) as [resp|rerr]
    end; cbn [snd]; right; left; reflexivity.
Qed.

Lemma contact_wire_round_trip_witness :
  DecodeContacts ("390111,Anna" ++ nl, None) = ([NewContact "390111" "Anna"], None) /\
  encodeContact (NewContact "390111" "Anna")
  = JObject [("type", JString "phone"); ("number", JString "390111")] /\
  In (Sent {| Method := "POST"; URL := "https://api.nexmo.com/v1/calls";
              Header := [("Authorization", "Bearer signed.jwt.token");
                         ("Content-Type", "application/json")];
              Body := Some (JObject
                [("to", JArray [JObject [("type", JString "phone");
                                         ("number", JString "390111")]]);
                 ("from", JObject [("type", JString "phone");
                                   ("number", JString "390000000")]);
                 ("answer_url",
                  JArray [JString "https://voicebr.example/play/recording/ABC.mp3"]);
                 ("event_url",
                  JArray [JString "https://voicebr.example/play/recording/event"])]) |})
     (snd (call sampleClient (worldAnswering (inl okResponse)) (Some 2000000000)
             (NewContact "390111" "Anna") "ABC.mp3")).
Proof.
  destruct (contact_wire_round_trip (NewContact "390111" "Anna"))
    as (_ & _ & _ & _ & Hdec & Hrows & _ & _ & Hsent).
  destruct (Hdec ("390111,Anna" ++ nl) (Hrows eq_refl eq_refl eq_refl))
    as (c' & Hd & _ & _ & _ & _ & _ & Hc).
  rewrite (Hc eq_refl) in Hd. split; [exact Hd|]. split; [reflexivity|].
  exact (Hsent sampleClient (worldAnswering (inl okResponse)) (Some 2000000000)
           "ABC.mp3" "signed.jwt.token" eq_refl eq_refl eq_refl).
Defined.

(** ** The reader on instances *)

Example rows_line_ends :
  directoryRows ("a,b" ++ str1 CR ++ nl ++ nl ++ "# c" ++ nl ++ "c,d" ++ str1 CR)
  = inl [["a"; "b"]; ["c"; "d"]].
Proof. vm_compute. reflexivity. Qed.

Example rows_quoted_field :
  directoryRows (quoted "a,b" ++ ",c" ++ nl) = inl [["a,b"; "c"]].
Proof. vm_compute. reflexivity. Qed.

Example rows_doubled_quote :
  directoryRows (quoted ("a" ++ str1 QUOTE ++ str1 QUOTE ++ "b") ++ ",c" ++ nl)
  = inl [["a" ++ str1 QUOTE ++ "b"; "c"]].
Proof. vm_compute. reflexivity. Qed.

Example rows_quoted_over_lines :
  directoryRows (quoted ("multi" ++ nl ++ "#line") ++ ",x" ++ nl ++ "y,z")
  = inl [["multi" ++ nl ++ "#line"; "x"]; ["y"; "z"]].
Proof. vm_compute. reflexivity. Qed.

Example rows_bare_quote :
  directoryRows ("a" ++ str1 QUOTE ++ "b,c" ++ nl)
  = inr (csv.ParseError 1 csv.ErrBareQuote).
Proof. vm_compute. reflexivity. Qed.

Example rows_text_after_quote :
  directoryRows ("x,y" ++ nl ++ quoted "a" ++ "b,c" ++ nl)
  = inr (csv.ParseError 2 csv.ErrQuote).
Proof. vm_compute. reflexivity. Qed.

Example rows_open_quote :
  directoryRows (String QUOTE "abc" ++ nl) = inr (csv.ParseError 1 csv.ErrQuote).
Proof. vm_compute. reflexivity. Qed.

Example rows_empty_fields :
  directoryRows ("a," ++ nl ++ ",") = inl [["a"; EmptyString]; [EmptyString; EmptyString]].
Proof. vm_compute. reflexivity. Qed.

Example decode_three_fields :
  DecodeContacts ("a,b,c" ++ nl ++ "d,e,f" ++ nl, None)
  = ([NewContact "a" "b"; NewContact "d" "e"], None).
Proof. vm_compute. reflexivity. Qed.

Example decode_all_malformed :
  DecodeContacts ("a" ++ nl ++ "b" ++ nl, None) = ([], Some ErrCorruptedContacts).
Proof. vm_compute. reflexivity. Qed.

Example decode_empty_directory :
  DecodeContacts (EmptyString, None) = ([], None).
Proof. vm_compute. reflexivity. Qed.

Example decode_reader_failure :
  DecodeContacts ("123,Al", Some (errorString "unexpected EOF"))
  = ([], Some (errorString "unexpected EOF")).
Proof. reflexivity. Qed.

(** * More of the code *)

(** ** What the directory decoder returns *)

(** X1.  Whenever [DecodeContacts] returns an error, whichever it is
    (the provider's, the reader's or [ErrCorruptedContacts]), it returns
    no contact with it. *)
Theorem decode_error_no_contacts f cs e :
  DecodeContacts f = (cs, Some e) -> cs = [].
Proof.
  destruct f as [data [ferr|]]; intros H.
  - simpl in H. inversion H. reflexivity.
  - pose proof H as H0.
    destruct (decoder_reads data) as (recs & lexErr & _ & _ & _ & Hd).
    rewrite Hd in H. clear Hd.
    destruct (csv.readAllLoop 0 recs lexErr []) as [rs|err].
    + simpl in H.
      destruct (negb (List.length (collectContacts rs []) =? List.length rs)%nat);
        inversion H; subst.
      eapply DecodeContacts_partial_empty. exact H0.
    + inversion H. reflexivity.
Qed.

Lemma decode_error_no_contacts_witness :
  fst (DecodeContacts ("123" ++ nl ++ "456" ++ nl, None)) = [].
Proof.
  apply (decode_error_no_contacts ("123" ++ nl ++ "456" ++ nl, None)
           (fst (DecodeContacts ("123" ++ nl ++ "456" ++ nl, None)))
           ErrCorruptedContacts).
  vm_compute. reflexivity.
Defined.

(** X2.  Every contact [DecodeContacts] returns stems from a row of the
    directory that has at least two fields: its number is the first
    field, its name the second, its kind is phone; and the provider has
    reported no error. *)
Theorem decode_contacts_from_rows f c :
  In c (fst (DecodeContacts f)) ->
  snd f = None /\
  Type_ c = "phone" /\
  exists rows rec,
    directoryRows (fst f) = inl rows /\ In rec rows /\
    (2 <= List.length rec)%nat /\
    Number c = index0 rec /\ Name c = index1 rec.
Proof.
  destruct f as [data [ferr|]]; intros H; [destruct H|].
  simpl fst. simpl snd. split; [reflexivity|].
  destruct (decoder_reads data) as (recs & lexErr & _ & Hne & Hr & Hd).
  rewrite Hd in H. clear Hd.
  destruct (csv.readAllLoop 0 recs lexErr []) as [rs|err] eqn:E; [|destruct H].
  destruct (readAllLoop_first_sets _ _ _ Hne E) as (He & Hout & _).
  subst lexErr.
  assert (Hin : In c (collectContacts rs [])).
  { simpl in H.
    destruct (negb (List.length (collectContacts rs []) =? List.length rs)%nat);
      exact H. }
  rewrite collectContacts_filter in Hin. simpl in Hin.
  apply in_map_iff in Hin. destruct Hin as (rec & Hc & Hrec).
  apply filter_In in Hrec. destruct Hrec as [Hrec Hwf].
  subst c. split; [reflexivity|].
  exists rs, rec. rewrite Hr, Hout.
  split; [reflexivity|]. split; [rewrite <- Hout; exact Hrec|].
  split; [apply Nat.leb_le; exact Hwf|]. split; reflexivity.
Qed.

Lemma decode_contacts_from_rows_witness :
  Type_ (NewContact "456" "Bob") = "phone".
Proof.
  apply (decode_contacts_from_rows
           ("123,Alice,x" ++ nl ++ "456,Bob,y" ++ nl, None) (NewContact "456" "Bob")).
  right. left. reflexivity.
Defined.

(** X3.  A directory two of whose rows differ in their number of fields
    is refused as a whole: no contact, and the reader's field-count error
    for one of its lines, wrapped. *)
Theorem decode_field_counts_differ data rows r1 r2 :
  directoryRows data = inl rows ->
  In r1 rows -> In r2 rows ->
  List.length r1 <> List.length r2 ->
  exists line,
    DecodeContacts (data, None)
    = ([], Some (Errorf "decode contacts: "
                   (csvError (csv.ParseError line csv.ErrFieldCount)))).
Proof.
  intros Hrows H1 H2 Hne12.
  destruct (decoder_reads data) as (recs & lexErr & _ & Hne & Hr & Hd).
  rewrite Hd. rewrite Hr in Hrows.
  destruct lexErr as [e|]; [discriminate|]. inversion Hrows; subst rows; clear Hrows.
  destruct (csv.readAllLoop 0 recs None []) as [rs|err] eqn:E.
  - exfalso.
    destruct (readAllLoop_first_sets _ _ _ Hne E) as (_ & Hout & n & Hn).
    subst rs. rewrite Forall_forall in Hn.
    apply Hne12. rewrite (Hn r1 H1), (Hn r2 H2). reflexivity.
  - destruct (readAllLoop_error_kind _ _ _ _ E) as (line & ->).
    exists line. reflexivity.
Qed.

Lemma decode_field_counts_differ_witness :
  exists line,
    DecodeContacts ("123,Alice" ++ nl ++ "456,Bob,Rome" ++ nl, None)
    = ([], Some (Errorf "decode contacts: "
                   (csvError (csv.ParseError line csv.ErrFieldCount)))).
Proof.
  apply (decode_field_counts_differ
           ("123,Alice" ++ nl ++ "456,Bob,Rome" ++ nl)
           [["123"; "Alice"]; ["456"; "Bob"; "Rome"]]
           ["123"; "Alice"] ["456"; "Bob"; "Rome"]).
  - vm_compute. reflexivity.
  - left. reflexivity.
  - right. left. reflexivity.
  - simpl. discriminate.
Defined.

(** X4.  [DecodeContacts] returns [ErrCorruptedContacts] for the bytes of
    a directory exactly when the directory has at least one row and each
    of its rows has a single field. *)
Theorem decode_partial_error_iff data :
  (exists cs, DecodeContacts (data, None) = (cs, Some ErrCorruptedContacts)) <->
  (exists rows,
      directoryRows data = inl rows /\ rows <> [] /\
      Forall (fun rec => List.length rec = 1%nat) rows).
Proof.
  split.
  - intros (cs & H).
    destruct (decoder_reads data) as (recs & lexErr & _ & Hne & Hr & Hd).
    rewrite Hd in H. clear Hd.
    destruct (csv.readAllLoop 0 recs lexErr []) as [rs|err] eqn:E; [|discriminate].
    destruct (readAllLoop_first_sets _ _ _ Hne E) as (He & Hout & n & Hn).
    subst lexErr. exists rs. rewrite Hr, Hout. split; [reflexivity|].
    rewrite <- Hout.
    simpl in H. rewrite collectContacts_filter in H. simpl in H.
    rewrite length_map in H.
    destruct (List.length (filter wellFormed rs) =? List.length rs)%nat eqn:El;
      simpl in H; [discriminate|].
    apply Nat.eqb_neq in El.
    split; [intros ->; apply El; reflexivity|].
    assert (Hall : Forall (fun rec => rec <> []) rs).
    { subst rs. apply Forall_map. exact Hne. }
    destruct (Nat.leb 2 n) eqn:E2.
    + exfalso. apply El. rewrite filter_all; [reflexivity|].
      eapply Forall_impl; [|exact Hn]. simpl. intros a Ha.
      unfold wellFormed. rewrite Ha. exact E2.
    + apply Nat.leb_gt in E2.
      rewrite Forall_forall in *. intros rec Hin.
      specialize (Hn rec Hin). specialize (Hall rec Hin).
      destruct rec; [congruence|simpl in *; lia].
  - intros (rows & Hrows & Hnn & Hall). exists [].
    apply (DecodeContacts_all_malformed data rows Hrows Hnn).
    eapply Forall_impl; [|exact Hall]. simpl. intros a Ha.
    unfold wellFormed. rewrite Ha. reflexivity.
Qed.

(** ** Comments and empty lines *)

Ltac split_oneLine H :=
  simpl in H;
  repeat match type of H with
         | _ && _ = true => let H' := fresh "Ho" in
                            apply andb_true_iff in H; destruct H as [H H']
         end;
  repeat match goal with
         | Hn : negb _ = true |- _ => apply negb_true_iff in Hn
         end.

Lemma splitLines_oneLine l :
  forall tail,
    oneLine l = true ->
    csv.splitLines (l ++ tail) =
    match csv.splitLines tail with
    | [] => match l with EmptyString => [] | _ => [l] end
    | x :: xs => (l ++ x) :: xs
    end.
Proof.
  induction l as [|c l IH]; intros tail Hp.
  - simpl. destruct (csv.splitLines tail); reflexivity.
  - split_oneLine Hp. cbn [append csv.splitLines]. rewrite Ho0.
    rewrite (IH tail Ho).
    destruct (csv.splitLines tail); [destruct l|]; reflexivity.
Qed.

Lemma normalizeLine_oneLine l :
  forall tail,
    oneLine l = true ->
    csv.normalizeLine (l ++ tail) = l ++ csv.normalizeLine tail.
Proof.
  induction l as [|c l IH]; intros tail Hp; [reflexivity|].
  split_oneLine Hp. cbn [append csv.normalizeLine]. rewrite Hp.
  rewrite (IH tail Ho). reflexivity.
Qed.

Lemma splitLines_renderLine l rest :
  writable l = true ->
  csv.splitLines (renderLine l ++ rest) = renderLine l :: csv.splitLines rest.
Proof.
  destruct l as [e|t|]; intros Hw; simpl in Hw.
  - apply splitLines_row. exact Hw.
  - unfold renderLine.
    change (String "#" (t ++ nl) ++ rest) with (String "#"%char ((t ++ nl) ++ rest)).
    rewrite append_assoc.
    change (nl ++ rest) with (String LF rest).
    cbn [csv.splitLines]. change (Ascii.eqb "#" LF) with false. cbv iota.
    rewrite (splitLines_oneLine _ _ Hw).
    cbn [csv.splitLines]. rewrite Ascii.eqb_refl. reflexivity.
  - reflexivity.
Qed.

Lemma normalizeLine_renderLine l :
  writable l = true -> csv.normalizeLine (renderLine l) = renderLine l.
Proof.
  destruct l as [e|t|]; intros Hw; simpl in Hw.
  - apply normalizeLine_row. exact Hw.
  - unfold renderLine. cbn [csv.normalizeLine].
    change (Ascii.eqb "#" CR) with false. cbv iota.
    rewrite (normalizeLine_oneLine _ _ Hw). reflexivity.
  - reflexivity.
Qed.

Lemma readLines_renderLines ls :
  Forall (fun l => writable l = true) ls ->
  csv.readLines (renderLines ls) = map renderLine ls.
Proof.
  unfold csv.readLines.
  induction 1 as [|l rest Hl Hrest IH]; [reflexivity|].
  simpl renderLines. rewrite (splitLines_renderLine _ _ Hl).
  simpl. rewrite IH, (normalizeLine_renderLine _ Hl). reflexivity.
Qed.

Lemma lexFrom_renderLines ls :
  forall numLine,
    Forall (fun l => writable l = true) ls ->
    csv.lexFrom "," "#" None (map renderLine ls) numLine = (rawLines numLine ls, None).
Proof.
  induction ls as [|l rest IH]; intros numLine Hall; [reflexivity|].
  inversion Hall as [|? ? Hl Hrest]; subst.
  destruct l as [e|t|]; simpl in Hl.
  - destruct (row_is_data _ Hl) as [Hc Ho].
    cbn [map csv.lexFrom rawLines renderLine]. rewrite Hc, Ho, (scanLine_row _ Hl).
    rewrite (IH _ Hrest). reflexivity.
  - cbn [map csv.lexFrom rawLines renderLine].
    change (csv.isComment "#" (String "#" (t ++ nl))) with true. cbv iota.
    apply IH. exact Hrest.
  - cbn [map csv.lexFrom rawLines renderLine].
    change (csv.isComment "#" nl) with false.
    change (csv.onlyNL nl) with true. cbv iota.
    apply IH. exact Hrest.
Qed.

Lemma rawLines_fields ls :
  forall numLine,
    map csv.recFields (rawLines numLine ls) = map (fun e => [fst e; snd e]) (entriesOf ls).
Proof.
  induction ls as [|l rest IH]; intros numLine; [reflexivity|].
  destruct l as [e|t|]; simpl; rewrite IH; reflexivity.
Qed.

(** X5.  A directory file written line by line, with entries as plain
    [number,name] lines, comments as lines that start with [#] and empty
    lines between them in any order, decodes to the contacts of its
    entries, in the order of the file, without error: comments and empty
    lines change nothing. *)
Theorem decode_ignores_comments ls :
  Forall (fun l => writable l = true) ls ->
  DecodeContacts (renderLines ls, None)
  = (map (fun e => NewContact (fst e) (snd e)) (entriesOf ls), None).
Proof.
  intros Hall.
  assert (Hrows : directoryRows (renderLines ls)
                  = inl (map (fun e => [fst e; snd e]) (entriesOf ls))).
  { destruct (decoder_reads (renderLines ls)) as (recs & lexErr & Hlex & _ & Hr & _).
    rewrite (readLines_renderLines _ Hall), (lexFrom_renderLines _ _ Hall) in Hlex.
    inversion Hlex; subst. rewrite Hr, rawLines_fields. reflexivity. }
  rewrite (DecodeContacts_uniform _ _ 2 Hrows).
  - rewrite map_map. reflexivity.
  - lia.
  - apply Forall_map. apply Forall_forall. intros; reflexivity.
Qed.

Lemma decode_ignores_comments_witness :
  DecodeContacts
    ("# whitelist, edited by hand" ++ nl ++ "390111,Anna" ++ nl ++ nl ++
     "#390222,Bea" ++ nl ++ "390333,Carla" ++ nl, None)
  = ([NewContact "390111" "Anna"; NewContact "390333" "Carla"], None).
Proof.
  apply (decode_ignores_comments
           [Remark " whitelist, edited by hand"; Entry ("390111", "Anna"); Blank;
            Remark "390222,Bea"; Entry ("390333", "Carla")]).
  repeat constructor.
Defined.

(** ** What the client sends *)

Lemma Do_sent c w method url body req :
  In (Sent req) (snd (Do c w method url body)) ->
  exists token,
    Token c w = (token, None) /\
    newRequestError w method url = None /\
    req = {| Method := method; URL := url;
             Header := if String.eqb method "POST"
                       then [("Authorization", "Bearer " ++ token);
                             ("Content-Type", "application/json")]
                       else [("Authorization", "Bearer " ++ token)];
             Body := body |}.
Proof.
  unfold Do.
  destruct (Token c w) as [token [terr|]]; [intros []|].
  destruct (newRequestError w method url); [intros []|].
  intros H. exists token. split; [reflexivity|]. split; [reflexivity|].
  match type of H with
  | context [roundTrip w ?r] =>
      assert (Hr : req = r)
        by (destruct (roundTrip w r); destruct H as [H|[]]; inversion H; reflexivity)
  end.
  rewrite Hr. destruct (String.eqb method "POST"); reflexivity.
Qed.

(** X6.  A request leaves [Get] or [Post] only after the limiter of its
    class has granted the wait ([GetLimiter] for [Get], [CallLimiter] for
    [Post]), and only signed: it carries the bearer token [Token] has
    just made.  A [Get] request has no body and no content type; a [Post]
    request carries the body with the JSON content type. *)
Theorem requests_are_gated_and_signed c w :
  (forall ctx url req,
      In (Sent req) (snd (Get c w ctx url)) ->
      limiterWait w GetLimiter ctx = None /\
      exists token,
        Token c w = (token, None) /\
        req = {| Method := "GET"; URL := url;
                 Header := [("Authorization", "Bearer " ++ token)];
                 Body := None |}) /\
  (forall ctx url body req,
      In (Sent req) (snd (Post c w ctx url body)) ->
      limiterWait w CallLimiter ctx = None /\
      exists token,
        Token c w = (token, None) /\
        req = {| Method := "POST"; URL := url;
                 Header := [("Authorization", "Bearer " ++ token);
                            ("Content-Type", "application/json")];
                 Body := Some body |}).
Proof.
  split.
  - intros ctx url req. unfold Get.
    destruct (limiterWait w GetLimiter ctx).
    + intros [H|[]]. discriminate.
    + pose proof (Do_sent c w "GET" url None req) as Hs.
      destruct (Do c w "GET" url None) as [[r e] evs]. simpl in *.
      intros [H|H]; [discriminate|].
      destruct (Hs H) as (token & Ht & _ & Hreq).
      split; [reflexivity|]. exists token. split; assumption.
  - intros ctx url body req. unfold Post.
    destruct (limiterWait w CallLimiter ctx).
    + intros [H|[]]. discriminate.
    + pose proof (Do_sent c w "POST" url (Some body) req) as Hs.
      destruct (Do c w "POST" url (Some body)) as [[r e] evs]. simpl in *.
      intros [H|H]; [discriminate|].
      destruct (Hs H) as (token & Ht & _ & Hreq).
      split; [reflexivity|]. exists token. split; assumption.
Qed.

Lemma requests_are_gated_and_signed_witness :
  exists token,
    Token sampleClient (worldAnswering (inl okResponse)) = (token, None) /\
    {| Method := "GET"; URL := "https://api.nexmo.com/v1/files/abc";
       Header := [("Authorization", "Bearer signed.jwt.token")]; Body := None |}
    = {| Method := "GET"; URL := "https://api.nexmo.com/v1/files/abc";
         Header := [("Authorization", "Bearer " ++ token)]; Body := None |}.
Proof.
  destruct (requests_are_gated_and_signed sampleClient (worldAnswering (inl okResponse)))
    as [Hg _].
  destruct (Hg None "https://api.nexmo.com/v1/files/abc"
              {| Method := "GET"; URL := "https://api.nexmo.com/v1/files/abc";
                 Header := [("Authorization", "Bearer signed.jwt.token")]; Body := None |}
              (or_intror (or_introl eq_refl))) as [_ H].
  exact H.
Defined.

(** X7.  [call] returns nil exactly when the call limiter granted the
    wait, the token was made, the request was built and the platform
    answered the POST of this contact's payload with status 200 or 201. *)
Theorem call_succeeds_iff c w ctx to recName :
  fst (call c w ctx to recName) = None <->
  limiterWait w CallLimiter ctx = None /\
  exists token resp,
    Token c w = (token, None) /\
    newRequestError w "POST" "https://api.nexmo.com/v1/calls" = None /\
    roundTrip w {| Method := "POST"; URL := "https://api.nexmo.com/v1/calls";
                   Header := [("Authorization", "Bearer " ++ token);
                              ("Content-Type", "application/json")];
                   Body := Some (callPayload c to recName) |} = inl resp /\
    (StatusCode resp = 200 \/ StatusCode resp = 201).
Proof.
  unfold call, Encode, Post, Do.
  destruct (limiterWait w CallLimiter ctx) as [lerr|].
  { cbn [fst]. split; [discriminate|]. intros [H _]. discriminate. }
  destruct (Token c w) as [token [terr|]].
  { cbn [fst]. split; [discriminate|]. intros (_ & t & r & H & _). discriminate. }
  destruct (newRequestError w "POST" "https://api.nexmo.com/v1/calls") as [nerr|].
  { cbn [fst]. split; [discriminate|]. intros (_ & t & r & _ & H & _). discriminate. }
  change (String.eqb "POST" "POST") with true. cbv iota.
  cbn [app].
  destruct (roundTrip w
              {| Method := "POST"; URL := "https://api.nexmo.com/v1/calls";
                 Header := [("Authorization", "Bearer " ++ token);
                            ("Content-Type", "application/json")];
                 Body := Some (callPayload c to recName) |}) as [resp|rerr] eqn:E.
  - destruct (checkStatus resp) as [serr|] eqn:Es; cbn [fst].
    + split; [discriminate|].
      intros (_ & t & r & Ht & _ & Hr & Hs). exfalso.
      inversion Ht; subst t. rewrite E in Hr. inversion Hr; subst r.
      apply checkStatus_ok in Hs. congruence.
    + split; [|reflexivity]. intros _. split; [reflexivity|].
      exists token, resp. repeat split; try assumption.
      apply checkStatus_ok. exact Es.
  - cbn [fst]. split; [discriminate|].
    intros (_ & t & r & Ht & _ & Hr & _). exfalso.
    inversion Ht; subst t. rewrite E in Hr. discriminate.
Qed.

Lemma Do_without_key c w method url body :
  key c = None ->
  Do c w method url body
  = (None,
     Some (Errorf "unable to create authorization token: "
             (errorString "token: found nil key. Use NewClient to create a valid Client")),
     []).
Proof.
  intros Hk. unfold Do, Token. rewrite Hk. reflexivity.
Qed.

(** X8.  A client without a key never contacts the platform: [Do] fails
    before it builds a request, no call goroutine sends anything and each
    ends by logging its call error, and the recording-stored handler
    neither stores a file nor starts a broadcast. *)
Theorem keyless_client_sends_nothing c :
  key c = None ->
  (forall w method url body,
      fst (Do c w method url body)
      = (None,
         Some (Errorf "unable to create authorization token: "
                 (errorString
                    "token: found nil key. Use NewClient to create a valid Client")))) /\
  (forall contacts recName contact w,
      (forall req, ~ In (Sent req) (callRoutine c contacts recName contact w)) /\
      exists e, last (callRoutine c contacts recName contact w) (Log EmptyString [])
                = Log "call error: %v" [AErr e]) /\
  (forall (s : Storage) w r,
      started (makeStoreRecordingEventHandler s c w r) = [] /\
      forall ev, In ev (events (makeStoreRecordingEventHandler s c w r)) ->
                 match ev with
                 | Sent _ | Wrote _ _ => False
                 | _ => True
                 end).
Proof.
  intros Hk. split; [|split].
  - intros. rewrite (Do_without_key _ _ _ _ _ Hk). reflexivity.
  - intros contacts recName contact w. rewrite callRoutine_events.
    destruct (limiterWait w CallLimiter (Some (callTimeout contacts))).
    + split; [|eexists; reflexivity].
      intros req [H|[H|[H|[]]]]; discriminate.
    + rewrite (Do_without_key _ _ _ _ _ Hk).
      split; [|eexists; reflexivity].
      intros req [H|[H|[H|[]]]]; discriminate.
  - intros s w r. unfold makeStoreRecordingEventHandler.
    destruct (negb (String.eqb (reqMethod r) "POST")).
    { split; [reflexivity|]. intros ev []. }
    destruct (Decode (reqBody r) ["recording_url"; "recording_uuid"]) as [content [derr|]].
    { split; [reflexivity|]. intros ev [H|[]]. subst ev. exact I. }
    unfold Get.
    destruct (limiterWait w GetLimiter None).
    { split; [reflexivity|]. intros ev [H|[H|[]]]; subst ev; exact I. }
    rewrite (Do_without_key _ _ _ _ _ Hk).
    split; [reflexivity|]. intros ev [H|[H|[]]]; subst ev; exact I.
Qed.

Lemma keyless_client_sends_nothing_witness :
  started (makeStoreRecordingEventHandler
             (sampleStorage ("123,Alice" ++ nl, None) (EmptyString, None))
             keylessClient (worldAnswering (inl okResponse))
             {| reqMethod := "POST"; reqQuery := [];
                reqBody := inl (JObject
                  [("recording_url", JString "https://api.nexmo.com/v1/files/abc");
                   ("recording_uuid", JString "ABC")]) |}) = [].
Proof.
  destruct (keyless_client_sends_nothing keylessClient eq_refl) as (_ & _ & Hs).
  apply Hs.
Defined.

(** ** How much a broadcast sends, and how long it waits *)

Lemma Do_sent_count c w method url body :
  (List.length (filter isSent (snd (Do c w method url body))) <= 1)%nat.
Proof.
  unfold Do.
  destruct (Token c w) as [token [terr|]]; [simpl; lia|].
  destruct (newRequestError w method url); [simpl; lia|].
  match goal with
  | |- context [roundTrip w ?r] => destruct (roundTrip w r); simpl; lia
  end.
Qed.

Lemma callRoutine_counts c contacts recName contact w :
  (List.length (filter isSent (callRoutine c contacts recName contact w)) <= 1)%nat /\
  List.length (filter isWaited (callRoutine c contacts recName contact w)) = 1%nat.
Proof.
  rewrite callRoutine_events. cbn [filter isSent isWaited List.length].
  destruct (limiterWait w CallLimiter (Some (callTimeout contacts))); [simpl; lia|].
  pose proof (Do_sent_count c w "POST" "https://api.nexmo.com/v1/calls"
                (Some (callPayload c contact recName))) as Hs.
  pose proof (fun l ctx => Do_events_no_wait c w "POST" "https://api.nexmo.com/v1/calls"
                (Some (callPayload c contact recName)) l ctx) as Hw.
  destruct (Do c w "POST" "https://api.nexmo.com/v1/calls"
              (Some (callPayload c contact recName))) as [[r e] evs].
  simpl in Hs, Hw.
  assert (Hnw : filter isWaited evs = []).
  { clear Hs. induction evs as [|ev evs IH]; [reflexivity|].
    simpl. destruct ev as [f a|l ctx|req|n d]; simpl;
      try (apply IH; intros l' ctx' Hin; apply (Hw l' ctx'); right; exact Hin).
    exfalso. apply (Hw l ctx). left. reflexivity. }
  destruct e as [e|].
  - rewrite !filter_app, Hnw. simpl. rewrite app_nil_r. split; [lia|reflexivity].
  - rewrite Hnw. split; [lia|reflexivity].
Qed.

Lemma sentInRun_le (gs : list Goroutine) worlds schedule :
  (forall (g : Goroutine) w, In g gs -> (List.length (filter isSent (g w)) <= 1)%nat) ->
  (sentInRun (runSchedule gs worlds schedule) <= List.length schedule)%nat.
Proof.
  intros Hg. unfold sentInRun, runSchedule.
  induction schedule as [|i rest IH]; [simpl; lia|].
  cbn [map snd List.concat]. rewrite filter_app, length_app.
  assert (Hi : (List.length (filter isSent (runRoutine gs worlds i)) <= 1)%nat).
  { unfold runRoutine. destruct (nth_error gs i) as [g|] eqn:E; [|simpl; lia].
    apply Hg. eapply nth_error_In. exact E. }
  cbn [List.length]. lia.
Qed.

(** X9.  A broadcast never sends more requests than there are contacts
    in the list: run once each, in any order and whatever the outside
    answers, the goroutines [Call] has started send at most one request
    each (there is no retry), and each waits on the limiter exactly
    once. *)
Theorem broadcast_sends_at_most_once c p recName worlds schedule :
  Permutation schedule (seq 0 (List.length (fst (Call c p recName)))) ->
  (sentInRun (runSchedule (fst (Call c p recName)) worlds schedule)
   <= List.length (fst (DecodeContacts (ReadBroadcastList p))))%nat /\
  forall g w,
    In g (fst (Call c p recName)) ->
    (List.length (filter isSent (g w)) <= 1)%nat /\
    List.length (filter isWaited (g w)) = 1%nat.
Proof.
  intros Hperm.
  assert (Hg : forall g w, In g (fst (Call c p recName)) ->
                 (List.length (filter isSent (g w)) <= 1)%nat /\
                 List.length (filter isWaited (g w)) = 1%nat).
  { intros g w Hin. unfold Call in Hin.
    apply CallDecoded_routines in Hin. destruct Hin as (contact & _ & ->).
    apply callRoutine_counts. }
  split; [|exact Hg].
  eapply Nat.le_trans.
  - apply sentInRun_le. intros g w Hin. apply Hg. exact Hin.
  - rewrite (Permutation_length Hperm), length_seq.
    unfold Call.
    destruct (DecodeContacts (ReadBroadcastList p)) as [contacts [e|]]; simpl.
    + destruct (isErrCorruptedContacts e); simpl; [rewrite length_map|]; lia.
    + rewrite length_map. lia.
Qed.

Lemma broadcast_sends_at_most_once_witness :
  (sentInRun
     (runSchedule
        (fst (Call sampleClient
                (sampleProvider ("123,Alice" ++ nl ++ "456,Bob" ++ nl, None)
                   (EmptyString, None)) "ABC.mp3"))
        twoWorlds [1%nat; 0%nat]) <= 2)%nat.
Proof.
  apply (broadcast_sends_at_most_once sampleClient
           (sampleProvider ("123,Alice" ++ nl ++ "456,Bob" ++ nl, None) (EmptyString, None))
           "ABC.mp3" twoWorlds [1%nat; 0%nat]).
  apply perm_swap.
Defined.

Lemma specDeadline_mono a b :
  0 <= a -> a <= b -> specDeadline a <= specDeadline b.
Proof.
  intros Ha Hab. unfold specDeadline, CallLimiter, NewLimiter, Second. simpl rate.
  assert (a / 3 <= b / 3) by (apply Z.div_le_mono; lia). lia.
Qed.

(** X10.  Within the range of [time.Duration] (up to 13835058056
    contacts) the timeout of a call is never below two seconds, is
    exactly two seconds for a list of fewer than six contacts, the empty
    list included, and does not shrink when the list grows. *)
Theorem callTimeout_bounds (l1 l2 : list Contact) :
  len l1 <= len l2 -> len l2 <= 13835058056 ->
  2 * Second <= callTimeout l1 <= callTimeout l2 /\
  (len l1 < 6 -> callTimeout l1 = 2 * Second).
Proof.
  intros H12 H2.
  pose proof (len_nonneg l1) as Hn1.
  rewrite (callTimeout_spec l1) by (apply specDeadline_fits; lia).
  rewrite (callTimeout_spec l2) by (apply specDeadline_fits; lia).
  split; [split|].
  - unfold specDeadline, Second. lia.
  - apply specDeadline_mono; assumption.
  - intros H6. unfold specDeadline, CallLimiter, NewLimiter, Second. simpl rate.
    assert (len l1 / 3 < 2) by (apply Z.div_lt_upper_bound; lia).
    assert (0 <= len l1 / 3) by (apply Z.div_pos; lia).
    lia.
Qed.

Lemma callTimeout_bounds_witness :
  2 * Second <= callTimeout [] <= callTimeout [NewContact "1" "A"; NewContact "2" "B"] /\
  (len (@nil Contact) < 6 -> callTimeout [] = 2 * Second).
Proof.
  apply (callTimeout_bounds [] [NewContact "1" "A"; NewContact "2" "B"]).
  - vm_compute. discriminate.
  - vm_compute. discriminate.
Defined.

(** ** Who is calling *)

(** X11.  For a request that is not a POST the caller is the first value
    of the query parameter [from], and an absent or empty one is an
    error: such a request is answered 401 whatever the whitelist holds,
    a row with an empty number included. *)
Theorem caller_from_query (s : Storage) origin r :
  reqMethod r <> "POST" ->
  (QueryGet (reqQuery r) "from" <> EmptyString ->
   CallerFromRequest r = (QueryGet (reqQuery r) "from", None)) /\
  (QueryGet (reqQuery r) "from" = EmptyString ->
   snd (CallerFromRequest r)
   = Some (errorString "unable to find calling number in query parameters") /\
   fst (makeRecordAnswerHandler s origin r)
   = {| wHeader := []; wStatus := Some 401; wBody := [] |}).
Proof.
  intros Hm. apply String.eqb_neq in Hm.
  assert (Hc : CallerFromRequest r = callerFromRequestQuery r).
  { unfold CallerFromRequest. rewrite Hm. reflexivity. }
  split; intros Hq.
  - rewrite Hc. unfold callerFromRequestQuery.
    apply String.eqb_neq in Hq. rewrite Hq. reflexivity.
  - assert (He : CallerFromRequest r
                 = (EmptyString,
                    Some (errorString "unable to find calling number in query parameters"))).
    { rewrite Hc. unfold callerFromRequestQuery. rewrite Hq. reflexivity. }
    split; [rewrite He; reflexivity|].
    apply (answer_without_caller s origin r _ _ He).
Qed.

Lemma caller_from_query_witness :
  fst (makeRecordAnswerHandler
         (sampleStorage (EmptyString, None) (",Bob" ++ nl, None))
         "https://voicebr.example"
         {| reqMethod := "GET"; reqQuery := [("from", [EmptyString]); ("to", ["390000000"])];
            reqBody := inr (errorString "EOF") |})
  = {| wHeader := []; wStatus := Some 401; wBody := [] |}.
Proof.
  destruct (caller_from_query
              (sampleStorage (EmptyString, None) (",Bob" ++ nl, None))
              "https://voicebr.example"
              {| reqMethod := "GET";
                 reqQuery := [("from", [EmptyString]); ("to", ["390000000"])];
                 reqBody := inr (errorString "EOF") |}) as [_ H].
  - simpl. discriminate.
  - apply H. reflexivity.
Defined.

Lemma findField_from k :
  Json.findField ["from"] k = if Json.equalFold "from" k then Some "from" else None.
Proof.
  unfold Json.findField. cbn [find].
  destruct (String.eqb k "from") eqn:E.
  - apply String.eqb_eq in E. subst k. reflexivity.
  - reflexivity.
Qed.

(** X12.  In the body of a POST answer request the member that gives the
    caller is the last one whose key is [from] in any letter case: when
    the members before it are in order and none after it addresses
    [from], the caller is its string. *)
Theorem caller_from_body_last_member pre key X post :
  Json.equalFold "from" key = true ->
  forallb fromInOrder pre = true ->
  lacksField "from" post = true ->
  callerFromRequestBody (inl (JObject (pre ++ (key, JString X) :: post)%list)) = (X, None).
Proof.
  intros Hkey Hpre Hpost.
  unfold callerFromRequestBody, Decode, Json.decodeStruct. cbn [map].
  assert (Ha : forall members v saved,
             forallb fromInOrder members = true ->
             Json.assign ["from"] (members ++ (key, JString X) :: post)
               [("from", v)] saved = ([("from", X)], saved)).
  { induction members as [|[k x] rest IH]; intros v saved H.
    - cbn [app Json.assign]. rewrite findField_from, Hkey.
      cbn. rewrite (assign_lacking _ _ _ Hpost). destruct saved; reflexivity.
    - simpl in H. apply andb_true_iff in H. destruct H as [Hk Hrest].
      cbn [app Json.assign]. rewrite findField_from.
      unfold fromInOrder in Hk. cbn [fst snd] in Hk.
      destruct (Json.equalFold "from" k).
      + cbn [negb orb] in Hk. destruct x; try discriminate.
        * cbn. destruct saved; apply IH; exact Hrest.
        * cbn. destruct saved; apply IH; exact Hrest.
      + apply IH. exact Hrest. }
  rewrite (Ha pre EmptyString None Hpre). reflexivity.
Qed.

Lemma caller_from_body_last_member_witness :
  callerFromRequestBody
    (inl (JObject [("from", JString "390111"); ("uuid", JString "c0ffee");
                   ("FROM", JString "390999"); ("to", JString "390000000")]))
  = ("390999", None).
Proof.
  apply (caller_from_body_last_member
           [("from", JString "390111"); ("uuid", JString "c0ffee")]
           "FROM" "390999" [("to", JString "390000000")]);
    reflexivity.
Defined.

Lemma assign_from_error members :
  forall v saved,
    snd (Json.assign ["from"] members [("from", v)] saved) = None <->
    saved = None /\ forallb fromInOrder members = true.
Proof.
  induction members as [|[k x] rest IH]; intros v saved.
  - simpl. split; [intros H; split; [exact H|reflexivity]|intros [H _]; exact H].
  - cbn [Json.assign forallb]. rewrite findField_from.
    unfold fromInOrder at 1. cbn [fst snd].
    destruct (Json.equalFold "from" k); cbn [negb orb].
    + destruct x; cbn;
        try (rewrite IH; destruct saved; cbn; intuition discriminate).
    + apply IH.
Qed.

(** X13.  For a POST answer request the caller is read without error
    exactly when the body is null or an object in which every member
    whose key is [from], in any letter case, holds a string or null.  Any
    other body (one that cannot be read or parsed, a JSON value of
    another kind, a [from] that is a number, a boolean, an array or an
    object) is answered 401 without a body, whatever the whitelist. *)
Theorem caller_from_body_error_iff (s : Storage) origin r :
  reqMethod r = "POST" ->
  (snd (CallerFromRequest r) = None <-> callerBodyInOrder (reqBody r) = true) /\
  (callerBodyInOrder (reqBody r) = false ->
   fst (makeRecordAnswerHandler s origin r)
   = {| wHeader := []; wStatus := Some 401; wBody := [] |}).
Proof.
  intros Hm.
  assert (Hc : CallerFromRequest r = callerFromRequestBody (reqBody r)).
  { unfold CallerFromRequest. rewrite Hm. reflexivity. }
  assert (Hiff : snd (callerFromRequestBody (reqBody r)) = None
                 <-> callerBodyInOrder (reqBody r) = true).
  { unfold callerFromRequestBody, Decode, Json.decodeStruct, callerBodyInOrder.
    destruct (reqBody r) as [v|e]; [|simpl; split; discriminate].
    destruct v as [|b|q|str|elems|members]; try (simpl; split; discriminate).
    - simpl. split; reflexivity.
    - cbn [map].
      pose proof (assign_from_error members EmptyString None) as Ha.
      destruct (Json.assign ["from"] members [("from", EmptyString)] None)
        as [st [msg|]]; simpl in *.
      + split; [discriminate|]. intros H. exfalso.
        destruct Ha as [_ Ha]. specialize (Ha (conj eq_refl H)). discriminate.
      + split; [|reflexivity]. intros _. apply Ha. reflexivity. }
  split; [rewrite Hc; exact Hiff|].
  intros Hbad.
  destruct (CallerFromRequest r) as [from [err|]] eqn:E.
  - apply (answer_without_caller s origin r from err E).
  - exfalso. rewrite <- Hc in Hiff. simpl in Hiff.
    destruct Hiff as [Hiff _]. rewrite (Hiff eq_refl) in Hbad. discriminate.
Qed.

Lemma caller_from_body_error_iff_witness :
  fst (makeRecordAnswerHandler
         (sampleStorage (EmptyString, None) ("390111,Anna" ++ nl, None))
         "https://voicebr.example"
         {| reqMethod := "POST"; reqQuery := [("from", ["390111"])];
            reqBody := inl (JObject [("from", JNumber (inject_Z 390111))]) |})
  = {| wHeader := []; wStatus := Some 401; wBody := [] |}.
Proof.
  destruct (caller_from_body_error_iff
              (sampleStorage (EmptyString, None) ("390111,Anna" ++ nl, None))
              "https://voicebr.example"
              {| reqMethod := "POST"; reqQuery := [("from", ["390111"])];
                 reqBody := inl (JObject [("from", JNumber (inject_Z 390111))]) |}
              eq_refl) as [_ H].
  apply H. reflexivity.
Defined.

(** ** What the answer handler answers *)

Ltac iff_by_cases :=
  let H := fresh "H" in
  split; intros H;
  first [ reflexivity
        | discriminate
        | exfalso; apply H; reflexivity
        | match type of H with
          | _ /\ _ =>
              let H1 := fresh in let H2 := fresh in
              destruct H as [H1 H2];
              first [discriminate | exfalso; apply H2; reflexivity]
          end
        | split; [reflexivity|discriminate] ].

(** X14.  The answer handler answers 200, 401 or 500 and nothing else;
    it writes a body, and the JSON content type, exactly when it answers
    200; it answers 500 exactly when the caller was read and the
    whitelist did not decode, and then the caller's number plays no
    part. *)
Theorem answer_status_and_body (s : Storage) origin r :
  (statusSent (fst (makeRecordAnswerHandler s origin r)) = 200 \/
   statusSent (fst (makeRecordAnswerHandler s origin r)) = 401 \/
   statusSent (fst (makeRecordAnswerHandler s origin r)) = 500) /\
  (wBody (fst (makeRecordAnswerHandler s origin r)) <> [] <->
   statusSent (fst (makeRecordAnswerHandler s origin r)) = 200) /\
  (wHeader (fst (makeRecordAnswerHandler s origin r)) <> [] <->
   statusSent (fst (makeRecordAnswerHandler s origin r)) = 200) /\
  (statusSent (fst (makeRecordAnswerHandler s origin r)) = 500 <->
   snd (CallerFromRequest r) = None /\
   snd (DecodeContacts (ReadWhitelist s)) <> None).
Proof.
  unfold makeRecordAnswerHandler.
  destruct (CallerFromRequest r) as [from [cerr|]];
    [|destruct (DecodeContacts (ReadWhitelist s)) as [whitelist [derr|]];
      [|destruct (findCaller from whitelist None) as [caller|]]];
    simpl;
    (split; [auto|split; [iff_by_cases|split; iff_by_cases]]).
Qed.

Lemma findCaller_last from v post :
  forall pre caller,
    Number v = from ->
    ~ In from (map Number post) ->
    findCaller from (pre ++ v :: post)%list caller = Some v.
Proof.
  intros pre. induction pre as [|x pre IH]; intros caller Hv Hpost.
  - cbn [app findCaller]. apply String.eqb_eq in Hv. rewrite Hv.
    clear Hv. revert Hpost. generalize (Some v) as acc.
    induction post as [|y post IHp]; intros acc Hpost; [reflexivity|].
    cbn [findCaller].
    destruct (String.eqb (Number y) from) eqn:E.
    + apply String.eqb_eq in E. exfalso. apply Hpost. left. exact E.
    + apply IHp. intros Hin. apply Hpost. right. exact Hin.
  - cbn [app findCaller].
    destruct (String.eqb (Number x) from); apply IH; assumption.
Qed.

(** X15.  When several whitelist entries have the caller's number, the
    handler greets the caller by the name of the last of them. *)
Theorem answer_greets_last_entry (s : Storage) origin r X pre v post :
  CallerFromRequest r = (X, None) ->
  DecodeContacts (ReadWhitelist s) = ((pre ++ v :: post)%list, None) ->
  Number v = X ->
  ~ In X (map Number post) ->
  statusSent (fst (makeRecordAnswerHandler s origin r)) = 200 /\
  exists talk record,
    wBody (fst (makeRecordAnswerHandler s origin r)) = [JSONDoc (JArray [talk; record])] /\
    Json.get "text" talk = Some (JString ("Parla pure" ++ Name v)).
Proof.
  intros Hc Hd Hv Hpost. unfold makeRecordAnswerHandler.
  rewrite Hc, Hd, (findCaller_last X v post pre None Hv Hpost).
  split; [reflexivity|]. eexists. eexists. split; reflexivity.
Qed.

Lemma answer_greets_last_entry_witness :
  exists talk record,
    wBody (fst (makeRecordAnswerHandler
                  (sampleStorage (EmptyString, None)
                     ("390111,Anna" ++ nl ++ "390222,Bea" ++ nl ++ "390111,Annina" ++ nl, None))
                  "https://voicebr.example"
                  {| reqMethod := "GET"; reqQuery := [("from", ["390111"])];
                     reqBody := inr (errorString "EOF") |}))
    = [JSONDoc (JArray [talk; record])] /\
    Json.get "text" talk = Some (JString "Parla pureAnnina").
Proof.
  apply (answer_greets_last_entry
           (sampleStorage (EmptyString, None)
              ("390111,Anna" ++ nl ++ "390222,Bea" ++ nl ++ "390111,Annina" ++ nl, None))
           "https://voicebr.example"
           {| reqMethod := "GET"; reqQuery := [("from", ["390111"])];
              reqBody := inr (errorString "EOF") |}
           "390111" [NewContact "390111" "Anna"; NewContact "390222" "Bea"]
           (NewContact "390111" "Annina") []
           eq_refl eq_refl eq_refl).
  simpl. tauto.
Defined.

(** ** The steps of the recording-stored handler *)

Lemma CallDecoded_events_only_log c decoded recName ev :
  In ev (snd (CallDecoded c decoded recName)) -> exists f a, ev = Log f a.
Proof.
  destruct decoded as [contacts [e|]]; unfold CallDecoded.
  - destruct (isErrCorruptedContacts e); simpl.
    + intros [H|[H|[]]]; subst ev; eexists; eexists; reflexivity.
    + intros [H|[]]; subst ev; eexists; eexists; reflexivity.
  - simpl. intros [H|[]]; subst ev; eexists; eexists; reflexivity.
Qed.

(** X16.  The recording-stored handler never skips a step.  Every file
    it writes holds the body of a response it has just downloaded, for a
    POST whose body decoded, from the decoded recording_url and with
    status 200 or 201, and is named after the decoded recording_uuid;
    and it starts the goroutines of a broadcast only after [WriteRec] has
    stored that file without error, for the name of that file. *)
Theorem store_handler_steps (s : Storage) c w r :
  (forall name data,
      In (Wrote name data) (events (makeStoreRecordingEventHandler s c w r)) ->
      exists content resp evs,
        reqMethod r = "POST" /\
        Decode (reqBody r) ["recording_url"; "recording_uuid"] = (content, None) /\
        Get c w None (Json.field "recording_url" content) = (Some resp, None, evs) /\
        (StatusCode resp = 200 \/ StatusCode resp = 201) /\
        data = RespBody resp /\
        name = Json.field "recording_uuid" content ++ ".mp3") /\
  (started (makeStoreRecordingEventHandler s c w r) <> [] ->
   exists name data,
     In (Wrote name data) (events (makeStoreRecordingEventHandler s c w r)) /\
     snd (WriteRec s data name) = None /\
     started (makeStoreRecordingEventHandler s c w r) = fst (Call c s name)).
Proof.
  unfold makeStoreRecordingEventHandler.
  destruct (String.eqb (reqMethod r) "POST") eqn:Em; simpl negb; cbv iota.
  2:{ split; [intros name data []|intros H; exfalso; apply H; reflexivity]. }
  apply String.eqb_eq in Em.
  destruct (Decode (reqBody r) ["recording_url"; "recording_uuid"])
    as [content [derr|]] eqn:Ed.
  { split; [intros name data [H|[]]; discriminate
           |intros H; exfalso; apply H; reflexivity]. }
  pose proof (fun n d => Get_events_no_write c w None
                           (Json.field "recording_url" content) n d) as Hnw.
  pose proof (Get_response c w None (Json.field "recording_url" content)) as Hresp.
  destruct (Get c w None (Json.field "recording_url" content)) as [[resp err] gevs] eqn:EG.
  simpl in Hnw. unfold recFormat. change ("." ++ "mp3") with ".mp3".
  destruct resp as [resp|]; destruct err as [e|].
  - split; [|intros H; exfalso; apply H; reflexivity].
    intros name data Hin. simpl in Hin. apply in_app_or in Hin.
    destruct Hin as [Hin|[Hin|[]]]; [exfalso; eapply Hnw; exact Hin|discriminate].
  - specialize (Hresp resp None gevs eq_refl). symmetry in Hresp.
    apply checkStatus_ok in Hresp.
    destruct (WriteRec s (RespBody resp) (Json.field "recording_uuid" content ++ ".mp3"))
      as [path [werr|]] eqn:Ew.
    + split; [|intros H; exfalso; apply H; reflexivity].
      intros name data Hin. simpl in Hin. apply in_app_or in Hin.
      destruct Hin as [Hin|[Hin|[Hin|[]]]];
        [exfalso; eapply Hnw; exact Hin| |discriminate].
      inversion Hin; subst. exists content, resp, gevs. repeat split; try assumption; reflexivity.
    + unfold Call.
      pose proof (fun ev => CallDecoded_events_only_log c
                    (DecodeContacts (ReadBroadcastList s))
                    (Json.field "recording_uuid" content ++ ".mp3") ev) as Hlog.
      destruct (CallDecoded c (DecodeContacts (ReadBroadcastList s))
                  (Json.field "recording_uuid" content ++ ".mp3")) as [gs cevs] eqn:Ec.
      simpl in Hlog. split.
      * intros name data Hin. simpl in Hin. apply in_app_or in Hin.
        destruct Hin as [Hin|[Hin|Hin]].
        -- exfalso. eapply Hnw. exact Hin.
        -- inversion Hin; subst. exists content, resp, gevs. repeat split; try assumption; reflexivity.
        -- destruct (Hlog _ Hin) as (f & a & Hf). discriminate.
      * intros _. exists (Json.field "recording_uuid" content ++ ".mp3"), (RespBody resp).
        split; [simpl; apply in_or_app; right; left; reflexivity|].
        rewrite Ew. split; [reflexivity|]. unfold Call. rewrite Ec. reflexivity.
  - split; [|intros H; exfalso; apply H; reflexivity].
    intros name data Hin. simpl in Hin. apply in_app_or in Hin.
    destruct Hin as [Hin|[Hin|[]]]; [exfalso; eapply Hnw; exact Hin|discriminate].
  - split; [|intros H; exfalso; apply H; reflexivity].
    intros name data Hin. exfalso. eapply Hnw. exact Hin.
Qed.

Lemma store_handler_steps_witness :
  exists name data,
    In (Wrote name data)
       (events (makeStoreRecordingEventHandler
                  (sampleStorage ("123,Alice" ++ nl, None) (EmptyString, None))
                  sampleClient (worldAnswering (inl okResponse))
                  {| reqMethod := "POST"; reqQuery := [];
                     reqBody := inl (JObject
                       [("recording_url", JString "https://api.nexmo.com/v1/files/abc");
                        ("recording_uuid", JString "ABC")]) |})) /\
    snd (WriteRec (sampleStorage ("123,Alice" ++ nl, None) (EmptyString, None)) data name)
    = None /\
    started (makeStoreRecordingEventHandler
               (sampleStorage ("123,Alice" ++ nl, None) (EmptyString, None))
               sampleClient (worldAnswering (inl okResponse))
               {| reqMethod := "POST"; reqQuery := [];
                  reqBody := inl (JObject
                    [("recording_url", JString "https://api.nexmo.com/v1/files/abc");
                     ("recording_uuid", JString "ABC")]) |})
    = fst (Call sampleClient
             (sampleStorage ("123,Alice" ++ nl, None) (EmptyString, None)) name).
Proof.
  destruct (store_handler_steps
              (sampleStorage ("123,Alice" ++ nl, None) (EmptyString, None))
              sampleClient (worldAnswering (inl okResponse))
              {| reqMethod := "POST"; reqQuery := [];
                 reqBody := inl (JObject
                   [("recording_url", JString "https://api.nexmo.com/v1/files/abc");
                    ("recording_uuid", JString "ABC")]) |}) as [_ H].
  apply H. simpl. discriminate.
Defined.

(** ** Routes *)

Lemma noSlash_app a b : noSlash (a ++ b) = noSlash a && noSlash b.
Proof.
  induction a as [|c a IH]; simpl; [reflexivity|].
  rewrite IH, andb_assoc. reflexivity.
Qed.

Lemma mp3_is_not_event U : (U ++ ".mp3" =? "event")%string = false.
Proof.
  apply String.eqb_neq.
  destruct U as [|a [|b [|c [|d [|e [|f U]]]]]]; simpl; intros H; inversion H.
Qed.

Lemma mp3_is_not_empty U : (U ++ ".mp3" =? EmptyString)%string = false.
Proof. destruct U; reflexivity. Qed.

Lemma play_path_event name :
  String.eqb "/play/recording/event" ("/play/recording/" ++ name) = String.eqb name "event".
Proof.
  rewrite (String.eqb_sym name "event"). reflexivity.
Qed.

(** X17.  Below [/play/recording/] the order of the routes decides: the
    path ending in [event] goes to the event logger, every other path of
    one more non-empty segment goes to the playback handler with that
    segment as the recording name, and a path with no further segment or
    with more than one matches no route. *)
Theorem play_routes name :
  Match NewRouter ("/play/recording/" ++ name) =
  if String.eqb name "event" then Some (logEventHandler, [])
  else if negb (String.eqb name EmptyString) && noSlash name
       then Some (playRecordingHandler, [("name", name)])
       else None.
Proof.
  unfold NewRouter. cbn [Match matchRoute].
  change (String.eqb "/record/voice/answer" ("/play/recording/" ++ name)) with false.
  change (String.eqb "/record/voice/event" ("/play/recording/" ++ name)) with false.
  change (String.eqb "/store/recording/event" ("/play/recording/" ++ name)) with false.
  cbv iota. rewrite play_path_event.
  destruct (String.eqb name "event"); [reflexivity|].
  change (stripPrefix "/play/recording/" ("/play/recording/" ++ name)) with (Some name).
  cbv iota.
  destruct (negb (String.eqb name EmptyString) && noSlash name); reflexivity.
Qed.

Lemma stripPrefix_some prefix :
  forall s v, stripPrefix prefix s = Some v -> s = prefix ++ v.
Proof.
  induction prefix as [|a prefix IH]; intros s v H; simpl in H.
  - inversion H. reflexivity.
  - destruct s as [|b s]; [discriminate|].
    destruct (Ascii.eqb a b) eqn:E; [|discriminate].
    apply Ascii.eqb_eq in E. subst b. simpl. f_equal. apply IH. exact H.
Qed.

Lemma play_route_inv path vars :
  Match NewRouter path = Some (playRecordingHandler, vars) ->
  exists name,
    path = "/play/recording/" ++ name /\ vars = [("name", name)] /\
    name <> EmptyString /\ noSlash name = true.
Proof.
  unfold NewRouter. cbn [Match matchRoute]. intros H.
  repeat match type of H with
         | match (if ?b then _ else _) with _ => _ end = _ =>
             destruct b; [discriminate|]
         end.
  destruct (stripPrefix "/play/recording/" path) as [v|] eqn:E.
  - destruct (negb (String.eqb v EmptyString) && noSlash v) eqn:Ev.
    + inversion H; subst vars. exists v.
      apply andb_true_iff in Ev. destruct Ev as [Hne Hns].
      apply negb_true_iff in Hne. apply String.eqb_neq in Hne.
      split; [apply stripPrefix_some; exact E|]. repeat split; assumption.
    + destruct (stripPrefix "/static/" path); discriminate.
  - destruct (stripPrefix "/static/" path); discriminate.
Qed.

Lemma static_route name :
  Match NewRouter ("/static/" ++ name) = Some (recFileHandler, []).
Proof. reflexivity. Qed.

(** X18.  A request the router gives to the playback handler has the
    path [/play/recording/] followed by one segment, the recording name.
    The handler answers 200 with exactly three actions (talk, stream,
    talk), and the stream URL is the origin followed by [/static/] and
    that name: a path the router gives to the file handler of the
    storage, which is asked for the file of that very name. *)
Theorem playback_names_the_file c (s : Storage) recFiles origin w r vars :
  Match NewRouter (URLPath r) = Some (playRecordingHandler, vars) ->
  exists name,
    URLPath r = "/play/recording/" ++ name /\
    statusSent (response (serveMatched c s recFiles origin w r
                            (playRecordingHandler, vars))) = 200 /\
    (exists intro stream outro,
        wBody (response (serveMatched c s recFiles origin w r
                           (playRecordingHandler, vars)))
        = [JSONDoc (JArray [intro; stream; outro])] /\
        Json.get "action" intro = Some (JString "talk") /\
        Json.get "action" stream = Some (JString "stream") /\
        Json.get "action" outro = Some (JString "talk") /\
        Json.get "streamUrl" stream
        = Some (JArray [JString (origin ++ "/static/" ++ name)])) /\
    forall r',
      URLPath r' = "/static/" ++ name ->
      Match NewRouter (URLPath r') = Some (recFileHandler, []) /\
      response (serveMatched c s recFiles origin w r' (recFileHandler, []))
      = recFiles name.
Proof.
  intros Hm. destruct (play_route_inv _ _ Hm) as (name & Hp & Hv & _ & _).
  exists name. subst vars. split; [exact Hp|]. split; [reflexivity|]. split.
  - eexists. eexists. eexists. split; [reflexivity|]. repeat split.
  - intros r' Hr'. rewrite Hr'. split; [apply static_route|].
    unfold serveMatched. rewrite Hr'.
    change (stripPrefix "/static/" ("/static/" ++ name)) with (Some name).
    reflexivity.
Qed.

Lemma playback_names_the_file_witness :
  exists name,
    "/play/recording/ABC.mp3" = "/play/recording/" ++ name /\
    statusSent
      (response (serveMatched sampleClient
                   (sampleStorage (EmptyString, None) (EmptyString, None))
                   (fun _ => newWriter) "https://voicebr.example"
                   (worldAnswering (inl okResponse))
                   (sampleIncoming "GET" "/play/recording/ABC.mp3" (EmptyString, None))
                   (playRecordingHandler, [("name", "ABC.mp3")]))) = 200.
Proof.
  destruct (playback_names_the_file sampleClient
              (sampleStorage (EmptyString, None) (EmptyString, None))
              (fun _ => newWriter) "https://voicebr.example"
              (worldAnswering (inl okResponse))
              (sampleIncoming "GET" "/play/recording/ABC.mp3" (EmptyString, None))
              [("name", "ABC.mp3")] eq_refl) as (name & Hp & Hs & _).
  exists name. split; [exact Hp|exact Hs].
Defined.

Lemma store_started (s : Storage) c w r g :
  In g (started (makeStoreRecordingEventHandler s c w r)) ->
  exists content,
    Decode (reqBody r) ["recording_url"; "recording_uuid"] = (content, None) /\
    In g (fst (Call c s (Json.field "recording_uuid" content ++ ".mp3"))).
Proof.
  unfold makeStoreRecordingEventHandler.
  destruct (negb (String.eqb (reqMethod r) "POST")); [intros []|].
  destruct (Decode (reqBody r) ["recording_url"; "recording_uuid"])
    as [content [derr|]]; [intros []|].
  destruct (Get c w None (Json.field "recording_url" content)) as [[resp err] gevs].
  unfold recFormat. change ("." ++ "mp3") with ".mp3".
  destruct resp as [resp|]; destruct err as [e|]; try (intros []).
  destruct (WriteRec s (RespBody resp) (Json.field "recording_uuid" content ++ ".mp3"))
    as [path [werr|]]; [intros []|].
  destruct (Call c s (Json.field "recording_uuid" content ++ ".mp3")) as [gs cevs] eqn:EC.
  simpl. intros H. exists content. split; [reflexivity|rewrite EC; exact H].
Qed.

(** X19.  Every call the broadcast of a stored recording places tells
    the platform to fetch its instructions from the origin of the client
    followed by [/play/recording/] and the name the recording was stored
    under, and to report to [/play/recording/event].  When the
    recording_uuid holds no slash, the router gives the first path to the
    playback handler with exactly that name, and the second to the event
    logger. *)
Theorem broadcast_points_to_playback (s : Storage) c w r g w' req :
  In g (started (makeStoreRecordingEventHandler s c w r)) ->
  In (Sent req) (g w') ->
  exists content payload,
    Decode (reqBody r) ["recording_url"; "recording_uuid"] = (content, None) /\
    Body req = Some payload /\
    Json.get "answer_url" payload
    = Some (JArray [JString (Origin c ++ "/play/recording/"
                               ++ Json.field "recording_uuid" content ++ ".mp3")]) /\
    Json.get "event_url" payload
    = Some (JArray [JString (Origin c ++ "/play/recording/event")]) /\
    Match NewRouter "/play/recording/event" = Some (logEventHandler, []) /\
    (noSlash (Json.field "recording_uuid" content) = true ->
     Match NewRouter ("/play/recording/" ++ Json.field "recording_uuid" content ++ ".mp3")
     = Some (playRecordingHandler,
             [("name", Json.field "recording_uuid" content ++ ".mp3")])).
Proof.
  intros Hg Hsent.
  destruct (store_started s c w r g Hg) as (content & Hd & Hin).
  unfold Call in Hin. apply CallDecoded_routines in Hin.
  destruct Hin as (contact & _ & ->).
  apply callRoutine_sends in Hsent. destruct Hsent as (_ & _ & Hb).
  exists content, (callPayload c contact (Json.field "recording_uuid" content ++ ".mp3")).
  split; [exact Hd|]. split; [exact Hb|]. split; [reflexivity|].
  split; [reflexivity|]. split; [reflexivity|].
  intros Hns. rewrite play_routes, mp3_is_not_event, mp3_is_not_empty.
  rewrite noSlash_app, Hns. reflexivity.
Qed.

Lemma broadcast_points_to_playback_witness :
  exists content payload,
    Decode (inl (JObject
                   [("recording_url", JString "https://api.nexmo.com/v1/files/abc");
                    ("recording_uuid", JString "ABC")]))
           ["recording_url"; "recording_uuid"] = (content, None) /\
    Some (callPayload sampleClient (NewContact "123" "Alice") "ABC.mp3") = Some payload /\
    Json.get "answer_url" payload
    = Some (JArray [JString ("https://voicebr.example" ++ "/play/recording/"
                               ++ Json.field "recording_uuid" content ++ ".mp3")]).
Proof.
  destruct (broadcast_points_to_playback
              (sampleStorage ("123,Alice" ++ nl, None) (EmptyString, None))
              sampleClient (worldAnswering (inl okResponse))
              {| reqMethod := "POST"; reqQuery := [];
                 reqBody := inl (JObject
                   [("recording_url", JString "https://api.nexmo.com/v1/files/abc");
                    ("recording_uuid", JString "ABC")]) |}
              (callRoutine sampleClient [NewContact "123" "Alice"] "ABC.mp3"
                 (NewContact "123" "Alice"))
              (worldAnswering (inl okResponse))
              {| Method := "POST"; URL := "https://api.nexmo.com/v1/calls";
                 Header := [("Authorization", "Bearer signed.jwt.token");
                            ("Content-Type", "application/json")];
                 Body := Some (callPayload sampleClient (NewContact "123" "Alice")
                                 "ABC.mp3") |})
    as (content & payload & Hd & Hb & Ha & _).
  - left. reflexivity.
  - right. right. left. reflexivity.
  - exists content, payload. split; [exact Hd|]. split; [exact Hb|exact Ha].
Defined.

(** ** The event webhooks *)

(** X20.  Both event paths go to the event logger, and the event logger
    never fails a request: whatever the method and the body, and even
    when reading the body fails, the response is 200 without a body and
    nothing is sent, stored or started.  For a POST the last thing it
    logs is the body as far as it was read. *)
Theorem event_webhooks_always_ok c (s : Storage) recFiles origin w r :
  URLPath r = "/record/voice/event" \/ URLPath r = "/play/recording/event" ->
  Match NewRouter (URLPath r) = Some (logEventHandler, []) /\
  statusSent (response (serveMatched c s recFiles origin w r (logEventHandler, []))) = 200 /\
  wBody (response (serveMatched c s recFiles origin w r (logEventHandler, []))) = [] /\
  started (serveMatched c s recFiles origin w r (logEventHandler, [])) = [] /\
  (forall ev, In ev (events (serveMatched c s recFiles origin w r (logEventHandler, []))) ->
              exists f a, ev = Log f a) /\
  (reqMethod (request r) = "POST" ->
   last (events (serveMatched c s recFiles origin w r (logEventHandler, [])))
        (Log EmptyString [])
   = Log "[EVENT] %v" [AStr (fst (rawBody r))]).
Proof.
  intros Hp. split; [destruct Hp as [-> | ->]; reflexivity|].
  unfold serveMatched, LogEventHandler.
  destruct (String.eqb (reqMethod (request r)) "POST") eqn:Em; simpl negb; cbv iota.
  - destruct (rawBody r) as [buf [e|]]; simpl;
      (split; [reflexivity|]); (split; [reflexivity|]); (split; [reflexivity|]);
      (split; [|intros _; reflexivity]);
      intros ev Hin;
      repeat (destruct Hin as [Hin|Hin]; [subst ev; eexists; eexists; reflexivity|]);
      destruct Hin.
  - simpl. split; [reflexivity|]. split; [reflexivity|]. split; [reflexivity|]. split.
    + intros ev [H|[]]. subst ev. eexists. eexists. reflexivity.
    + intros H. apply String.eqb_neq in Em. contradiction.
Qed.

Lemma event_webhooks_always_ok_witness :
  statusSent
    (response (serveMatched sampleClient
                 (sampleStorage (EmptyString, None) (EmptyString, None))
                 (fun _ => newWriter) "https://voicebr.example"
                 (worldAnswering (inl okResponse))
                 (sampleIncoming "POST" "/play/recording/event"
                    ("{status:", Some (errorString "unexpected EOF")))
                 (logEventHandler, []))) = 200.
Proof.
  apply (event_webhooks_always_ok sampleClient
           (sampleStorage (EmptyString, None) (EmptyString, None))
           (fun _ => newWriter) "https://voicebr.example"
           (worldAnswering (inl okResponse))
           (sampleIncoming "POST" "/play/recording/event"
              ("{status:", Some (errorString "unexpected EOF")))).
  right. reflexivity.
Defined.

(** ** The webhook of cmd/voicebrd *)

(** X21.  [Event] answers 500 exactly when the body of the request
    cannot be read, 400 exactly when it was read but does not unmarshal
    into an event request, and 200 otherwise; it writes a body (the text
    of the error) exactly when it does not answer 200. *)
Theorem Event_status (P : Type) (unmarshal : string -> P + error)
    (show : P -> string) (r : Incoming) :
  (statusSent (fst (voicebrd.Event P unmarshal show r)) = 200 \/
   statusSent (fst (voicebrd.Event P unmarshal show r)) = 400 \/
   statusSent (fst (voicebrd.Event P unmarshal show r)) = 500) /\
  (statusSent (fst (voicebrd.Event P unmarshal show r)) = 500 <->
   snd (rawBody r) <> None) /\
  (statusSent (fst (voicebrd.Event P unmarshal show r)) = 400 <->
   snd (rawBody r) = None /\ exists e, unmarshal (fst (rawBody r)) = inr e) /\
  (wBody (fst (voicebrd.Event P unmarshal show r)) = [] <->
   statusSent (fst (voicebrd.Event P unmarshal show r)) = 200).
Proof.
  unfold voicebrd.Event, voicebrd.returnEvent, voicebrd.Error.
  destruct (rawBody r) as [b [rerr|]]; cbn [fst snd].
  - simpl. split; [auto|]. split; [|split].
    + split; [discriminate|reflexivity].
    + split; [discriminate|intros [H _]; discriminate].
    + split; discriminate.
  - destruct (unmarshal b) as [p|uerr]; simpl.
    + split; [auto|]. split; [|split].
      * split; [discriminate|intros H; exfalso; apply H; reflexivity].
      * split; [discriminate|intros [_ [e H]]; discriminate].
      * split; reflexivity.
    + split; [auto|]. split; [|split].
      * split; [discriminate|intros H; exfalso; apply H; reflexivity].
      * split; [intros _; split; [reflexivity|exists uerr; reflexivity]|reflexivity].
      * split; discriminate.
Qed.

(** X22.  [Answer] answers 400 exactly when the body was read but does
    not unmarshal into an answer request, and 200 exactly when it was
    read, unmarshals and the talk control encodes; then the body is that
    talk control and nothing else.  In every other case it answers 500
    with the text of the error. *)
Theorem Answer_status (P : Type) (uuid from : P -> string)
    (unmarshal : string -> P + error) (encode : string -> json + error)
    (r : Incoming) :
  (statusSent (fst (voicebrd.Answer P uuid from unmarshal encode r)) = 400 <->
   snd (rawBody r) = None /\ exists e, unmarshal (fst (rawBody r)) = inr e) /\
  (statusSent (fst (voicebrd.Answer P uuid from unmarshal encode r)) = 200 <->
   snd (rawBody r) = None /\
   (exists p, unmarshal (fst (rawBody r)) = inl p) /\
   exists ncco, encode "Hi from Jecoz" = inl ncco) /\
  (forall ncco,
      statusSent (fst (voicebrd.Answer P uuid from unmarshal encode r)) = 200 ->
      encode "Hi from Jecoz" = inl ncco ->
      wBody (fst (voicebrd.Answer P uuid from unmarshal encode r)) = [JSONDoc ncco]) /\
  (statusSent (fst (voicebrd.Answer P uuid from unmarshal encode r)) <> 200 ->
   statusSent (fst (voicebrd.Answer P uuid from unmarshal encode r)) <> 400 ->
   statusSent (fst (voicebrd.Answer P uuid from unmarshal encode r)) = 500 /\
   exists e, wBody (fst (voicebrd.Answer P uuid from unmarshal encode r)) = [ErrorText e]).
Proof.
  unfold voicebrd.Answer, voicebrd.returnAnswer, voicebrd.Error.
  destruct (rawBody r) as [b [rerr|]]; cbn [fst snd].
  - simpl. split; [|split; [|split]].
    + split; [discriminate|intros [H _]; discriminate].
    + split; [discriminate|intros [H _]; discriminate].
    + intros ncco H. discriminate.
    + intros _ _. split; [reflexivity|eexists; reflexivity].
  - destruct (unmarshal b) as [p|uerr].
    + destruct (encode "Hi from Jecoz") as [ncco|eerr]; simpl.
      * split; [|split; [|split]].
        -- split; [discriminate|intros [_ [e H]]; discriminate].
        -- split; [|reflexivity]. intros _.
           split; [reflexivity|]. split; eexists; reflexivity.
        -- intros ncco' _ H. inversion H. reflexivity.
        -- intros H. exfalso. apply H. reflexivity.
      * split; [|split; [|split]].
        -- split; [discriminate|intros [_ [e H]]; discriminate].
        -- split; [discriminate|intros (_ & _ & n & H); discriminate].
        -- intros ncco H. discriminate.
        -- intros _ _. split; [reflexivity|eexists; reflexivity].
    + simpl. split; [|split; [|split]].
      * split; [|reflexivity]. intros _. split; [reflexivity|eexists; reflexivity].
      * split; [discriminate|intros (_ & [p H] & _); discriminate].
      * intros ncco H. discriminate.
      * intros _ H. exfalso. apply H. reflexivity.
Qed.

(** ** A recording-stored webhook without its identifier *)

Lemma field_setField_other f g v st :
  f <> g -> Json.field g (Json.setField f v st) = Json.field g st.
Proof.
  intros Hne. unfold Json.field, Json.setField.
  induction st as [|[k x] st IH]; [reflexivity|].
  cbn [map find fst snd].
  destruct (String.eqb k f) eqn:Ef.
  - apply String.eqb_eq in Ef. subst k. cbn [fst].
    apply String.eqb_neq in Hne. rewrite Hne. exact IH.
  - cbn [fst]. destruct (String.eqb k g); [reflexivity|exact IH].
Qed.

Lemma findField_not_uuid k :
  Json.equalFold "recording_uuid" k = false ->
  Json.findField ["recording_url"; "recording_uuid"] k = Some "recording_url" \/
  Json.findField ["recording_url"; "recording_uuid"] k = None.
Proof.
  intros H. unfold Json.findField. cbn [find].
  destruct (String.eqb k "recording_url"); [left; reflexivity|].
  destruct (String.eqb k "recording_uuid") eqn:E.
  - apply String.eqb_eq in E. subst k. vm_compute in H. discriminate.
  - destruct (Json.equalFold "recording_url" k); [left; reflexivity|].
    rewrite H. right. reflexivity.
Qed.

Lemma assign_keeps_uuid members :
  forall st saved,
    lacksField "recording_uuid" members = true ->
    Json.field "recording_uuid"
      (fst (Json.assign ["recording_url"; "recording_uuid"] members st saved))
    = Json.field "recording_uuid" st.
Proof.
  induction members as [|[k x] rest IH]; intros st saved H; [reflexivity|].
  simpl in H. apply andb_true_iff in H. destruct H as [Hk Hrest].
  apply negb_true_iff in Hk. cbn [Json.assign].
  destruct (findField_not_uuid k Hk) as [Hf|Hf]; rewrite Hf.
  - destruct (Json.storeString x (Json.field "recording_url" st)) as [s' e].
    rewrite (IH _ _ Hrest). apply field_setField_other. discriminate.
  - apply IH. exact Hrest.
Qed.

Lemma store_writes_name (s : Storage) c w r name data :
  In (Wrote name data) (events (makeStoreRecordingEventHandler s c w r)) ->
  exists content,
    Decode (reqBody r) ["recording_url"; "recording_uuid"] = (content, None) /\
    name = Json.field "recording_uuid" content ++ ".mp3".
Proof.
  unfold makeStoreRecordingEventHandler.
  destruct (negb (String.eqb (reqMethod r) "POST")); [intros []|].
  destruct (Decode (reqBody r) ["recording_url"; "recording_uuid"])
    as [content [derr|]]; [intros [H|[]]; discriminate|].
  pose proof (fun n d => Get_events_no_write c w None
                           (Json.field "recording_url" content) n d) as Hnw.
  destruct (Get c w None (Json.field "recording_url" content)) as [[resp err] gevs].
  simpl in Hnw. unfold recFormat. change ("." ++ "mp3") with ".mp3".
  intros Hin. exists content. split; [reflexivity|].
  destruct resp as [resp|]; destruct err as [e|];
    try (simpl in Hin; apply in_app_or in Hin;
         destruct Hin as [Hin|[Hin|[]]];
         [exfalso; eapply Hnw; exact Hin|discriminate]);
    try (exfalso; eapply Hnw; exact Hin).
  destruct (WriteRec s (RespBody resp) (Json.field "recording_uuid" content ++ ".mp3"))
    as [path [werr|]].
  - simpl in Hin. apply in_app_or in Hin.
    destruct Hin as [Hin|[Hin|[Hin|[]]]];
      [exfalso; eapply Hnw; exact Hin|inversion Hin; reflexivity|discriminate].
  - pose proof (fun n d => CallDecoded_events_no_write c
                  (DecodeContacts (ReadBroadcastList s))
                  (Json.field "recording_uuid" content ++ ".mp3") n d) as Hcw.
    unfold Call in Hin.
    destruct (CallDecoded c (DecodeContacts (ReadBroadcastList s))
                (Json.field "recording_uuid" content ++ ".mp3")) as [gs cevs].
    simpl in Hin, Hcw. apply in_app_or in Hin.
    destruct Hin as [Hin|[Hin|Hin]];
      [exfalso; eapply Hnw; exact Hin|inversion Hin; reflexivity
      |exfalso; eapply Hcw; exact Hin].
Qed.

(** X23.  A recording-stored webhook whose body is an object without a
    recording_uuid member is not refused: the identifier is taken to be
    empty, so whatever the handler stores it stores under the name
    [.mp3], the same for every such webhook. *)
Theorem store_without_uuid (s : Storage) c w r members name data :
  reqBody r = inl (JObject members) ->
  lacksField "recording_uuid" members = true ->
  In (Wrote name data) (events (makeStoreRecordingEventHandler s c w r)) ->
  name = ".mp3".
Proof.
  intros Hb Hl Hin.
  destruct (store_writes_name s c w r name data Hin) as (content & Hd & ->).
  unfold Decode in Hd. rewrite Hb in Hd. unfold Json.decodeStruct in Hd.
  pose proof (assign_keeps_uuid members
                (map (fun f => (f, EmptyString)) ["recording_url"; "recording_uuid"])
                None Hl) as Hk.
  destruct (Json.assign ["recording_url"; "recording_uuid"] members
              (map (fun f => (f, EmptyString)) ["recording_url"; "recording_uuid"]) None)
    as [st [msg|]]; [discriminate|].
  inversion Hd; subst content. simpl in Hk. rewrite Hk. reflexivity.
Qed.

Lemma store_without_uuid_witness :
  In (Wrote ".mp3" "ID3-audio-bytes")
     (events (makeStoreRecordingEventHandler
                (sampleStorage ("123,Alice" ++ nl, None) (EmptyString, None))
                sampleClient (worldAnswering (inl okResponse))
                {| reqMethod := "POST"; reqQuery := [];
                   reqBody := inl (JObject
                     [("recording_url", JString "https://api.nexmo.com/v1/files/abc")]) |})) /\
  ".mp3" = ".mp3".
Proof.
  assert (H : In (Wrote ".mp3" "ID3-audio-bytes")
     (events (makeStoreRecordingEventHandler
                (sampleStorage ("123,Alice" ++ nl, None) (EmptyString, None))
                sampleClient (worldAnswering (inl okResponse))
                {| reqMethod := "POST"; reqQuery := [];
                   reqBody := inl (JObject
                     [("recording_url", JString "https://api.nexmo.com/v1/files/abc")]) |})))
    by (right; right; left; reflexivity).
  split; [exact H|].
  apply (store_without_uuid
           (sampleStorage ("123,Alice" ++ nl, None) (EmptyString, None))
           sampleClient (worldAnswering (inl okResponse))
           {| reqMethod := "POST"; reqQuery := [];
              reqBody := inl (JObject
                [("recording_url", JString "https://api.nexmo.com/v1/files/abc")]) |}
           [("recording_url", JString "https://api.nexmo.com/v1/files/abc")]
           ".mp3" "ID3-audio-bytes" eq_refl eq_refl H).
Defined.

(** ** From the answer to the recording *)

(** X24.  What the answer handler tells the platform fits what the
    recording-stored handler does: for an authorized caller the record
    action asks for the format whose name is the extension the recording
    is stored under, and names as its event URL the origin followed by
    the path the router gives to the recording-stored handler. *)
Theorem record_points_to_store (s : Storage) origin r X whitelist :
  CallerFromRequest r = (X, None) ->
  DecodeContacts (ReadWhitelist s) = (whitelist, None) ->
  In X (map Number whitelist) ->
  exists talk record,
    wBody (fst (makeRecordAnswerHandler s origin r)) = [JSONDoc (JArray [talk; record])] /\
    Json.get "format" record = Some (JString recFormat) /\
    Json.get "eventUrl" record
    = Some (JArray [JString (origin ++ "/store/recording/event")]) /\
    Match NewRouter "/store/recording/event" = Some (storeRecordingEventHandler, []) /\
    forall c w r' name data,
      In (Wrote name data) (events (makeStoreRecordingEventHandler s c w r')) ->
      exists U, name = U ++ "." ++ recFormat.
Proof.
  intros Hc Hd Hin.
  destruct (answer_authorized s origin r X whitelist Hc Hd Hin) as (caller & _ & _ & Hw).
  rewrite Hw. eexists. eexists. split; [reflexivity|].
  split; [reflexivity|]. split; [reflexivity|]. split; [reflexivity|].
  intros c w r' name data Hwr.
  destruct (store_writes_name s c w r' name data Hwr) as (content & _ & ->).
  eexists. reflexivity.
Qed.

Lemma record_points_to_store_witness :
  exists talk record,
    wBody (fst (makeRecordAnswerHandler
                  (sampleStorage (EmptyString, None) ("390111,Anna" ++ nl, None))
                  "https://voicebr.example"
                  {| reqMethod := "GET"; reqQuery := [("from", ["390111"])];
                     reqBody := inr (errorString "EOF") |}))
    = [JSONDoc (JArray [talk; record])] /\
    Json.get "format" record = Some (JString "mp3").
Proof.
  destruct (record_points_to_store
              (sampleStorage (EmptyString, None) ("390111,Anna" ++ nl, None))
              "https://voicebr.example"
              {| reqMethod := "GET"; reqQuery := [("from", ["390111"])];
                 reqBody := inr (errorString "EOF") |}
              "390111" [NewContact "390111" "Anna"] eq_refl eq_refl
              (or_introl eq_refl)) as (talk & record & Hb & Hf & _).
  exists talk, record. split; [exact Hb|exact Hf].
Defined.
